(** * lib_i2c: the master-mode transaction state machine of the CH32V I2C driver

    A shallow embedding of the five functions of [lib_i2c.c]: [i2c_ping],
    [i2c_read] and [i2c_write], the bus scan [i2c_scan] built on
    [i2c_ping], and the set-up [i2c_init]; and the properties of their
    bus transactions and register accesses.

    The driver talks to a memory-mapped peripheral.  Every statement that
    touches a peripheral register is one operation of the class
    [I2C_Peripheral]; the driver is written in a state monad over the
    peripheral's state, and every register statement it executes is appended
    to a log, so that a transaction can be read back as a list of bus
    actions.  [i2c_init] reads and writes whole registers; it has a monad
    and a log of its own, over the class [Registers]. *)

From Stdlib Require Import ZArith List Bool Lia Ascii.
From stdpp Require Import base list strings.
Import ListNotations.
Local Open Scope Z_scope.

(** ** Names of the header *)

(** [i2c_err_t]: the three results the transaction functions return. *)
Inductive i2c_err_t : Type :=
| I2C_OK
| I2C_ERR_NACK
| I2C_ERR_TIMEOUT.

(** The bits of the control register [CTLR1] the driver sets or clears. *)
Inductive ctlr1_bit : Type :=
| I2C_CTLR1_START
| I2C_CTLR1_STOP
| I2C_CTLR1_ACK.

(** The flags of the status register [STAR1] the driver tests directly. *)
Inductive star1_bit : Type :=
| I2C_STAR1_TXE
| I2C_STAR1_RXNE.

(** The events [i2c_status] is asked for. *)
Inductive i2c_event : Type :=
| I2C_EVENT_MASTER_MODE_SELECT
| I2C_EVENT_MASTER_TRANSMITTER_MODE_SELECTED
| I2C_EVENT_MASTER_RECEIVER_MODE_SELECTED
| I2C_EVENT_MASTER_BYTE_TRANSMITTED.

Global Instance i2c_err_t_eq_dec : EqDecision i2c_err_t.
Proof. solve_decision. Defined.
Global Instance ctlr1_bit_eq_dec : EqDecision ctlr1_bit.
Proof. solve_decision. Defined.
Global Instance star1_bit_eq_dec : EqDecision star1_bit.
Proof. solve_decision. Defined.
Global Instance i2c_event_eq_dec : EqDecision i2c_event.
Proof. solve_decision. Defined.

(** ** The peripheral

    [lib_i2c.h] and the vendor header are not part of the sources.  The
    register bits and events they name are the constructors above; the
    masked register accesses, the timeout constant and the status helper
    [i2c_status] are taken as parameters, one field for each kind of
    register statement of [lib_i2c.c].  Status registers are volatile: a
    read returns a value and a new peripheral state, so time may pass and
    a read may clear flags. *)
Class I2C_Peripheral (HW : Type) : Type := {
  (** [#define I2C_TIMEOUT], the initial value of the [int32_t] counters *)
  I2C_TIMEOUT : Z;
  (** [I2C1->STAR2 & I2C_STAR2_BUSY], as a truth value *)
  hw_busy : HW -> bool * HW;
  (** [I2C1->STAR1 & bit], as a truth value *)
  hw_star1 : star1_bit -> HW -> bool * HW;
  (** [i2c_status(event)], declared in [lib_i2c.h] *)
  hw_status : i2c_event -> HW -> bool * HW;
  (** [I2C1->CTLR1 |= bit] *)
  hw_ctlr1_set : ctlr1_bit -> HW -> HW;
  (** [I2C1->CTLR1 &= ~bit] *)
  hw_ctlr1_clear : ctlr1_bit -> HW -> HW;
  (** [I2C1->DATAR = d] *)
  hw_datar_write : Z -> HW -> HW;
  (** [... = I2C1->DATAR], the 16-bit register value *)
  hw_datar_read : HW -> Z * HW
}.

(** ** Bus actions *)

(** One entry per register statement executed, in program order. *)
Inductive action : Type :=
| SetBit (b : ctlr1_bit)               (* I2C1->CTLR1 |= b *)
| ClearBit (b : ctlr1_bit)             (* I2C1->CTLR1 &= ~b *)
| Busy (v : bool)                      (* I2C1->STAR2 & I2C_STAR2_BUSY read as v *)
| Star1 (f : star1_bit) (v : bool)     (* I2C1->STAR1 & f read as v *)
| Status (e : i2c_event) (v : bool)    (* i2c_status(e) returned v *)
| Send (d : Z)                         (* I2C1->DATAR = d *)
| Recv (d : Z).                        (* I2C1->DATAR read as d *)

Global Instance action_eq_dec : EqDecision action.
Proof. solve_decision. Defined.

(** A poll whose answer keeps the driver waiting (or makes it give up). *)
Definition stalled (a : action) : bool :=
  match a with
  | Busy v => v
  | Star1 _ v => negb v
  | Status _ v => negb v
  | _ => false
  end.

(** The actions of a log that satisfy [p], in order. *)
Definition keep (p : action -> bool) (tr : list action) : list action :=
  flat_map (fun a => if p a then [a] else []) tr.

(** The log without the polls that did not succeed. *)
Definition progress (tr : list action) : list action :=
  keep (fun a => negb (stalled a)) tr.

(** The bytes placed on the data register, in order. *)
Definition sends (tr : list action) : list Z :=
  flat_map (fun a => match a with Send d => [d] | _ => [] end) tr.

(** The values read from the data register, in order. *)
Definition received (tr : list action) : list Z :=
  flat_map (fun a => match a with Recv d => [d] | _ => [] end) tr.

Definition is_control (a : action) : bool :=
  match a with
  | SetBit _ | ClearBit _ => true
  | _ => false
  end.

(** The writes to [CTLR1], in order. *)
Definition controls (tr : list action) : list action := keep is_control tr.

(** How many times bit [b] of [CTLR1] was set. *)
Definition asserted (b : ctlr1_bit) (tr : list action) : nat :=
  length (keep (fun a => bool_decide (a = SetBit b)) tr).

Definition is_status (e : i2c_event) (a : action) : bool :=
  match a with
  | Status e' _ => bool_decide (e' = e)
  | _ => false
  end.

(** How many times [i2c_status(e)] was called. *)
Definition status_polls (e : i2c_event) (tr : list action) : nat :=
  length (keep (is_status e) tr).

Definition is_busy (a : action) : bool :=
  match a with
  | Busy _ => true
  | _ => false
  end.

(** How many times the busy flag was tested. *)
Definition busy_polls (tr : list action) : nat :=
  length (keep is_busy tr).

(** ** The driver monad *)

Section Driver.
Context {HW : Type} `{!I2C_Peripheral HW}.

Record state : Type := mkState { hw : HW; trace : list action }.

(** The state a call starts from: peripheral [h], empty log. *)
Definition init (h : HW) : state := mkState h [].

(** A call returns, or spins in a wait without a timeout until the fuel
    is gone, or leaves the caller's buffer (undefined behaviour in C). *)
Inductive outcome (A : Type) : Type :=
| Ret (a : A) (s : state)
| Hang (s : state)
| Undef (s : state).
Global Arguments Ret {A} a s.
Global Arguments Hang {A} s.
Global Arguments Undef {A} s.

(** The state a call ends in, whatever the outcome. *)
Definition final {A} (o : outcome A) : state :=
  match o with Ret _ s | Hang s | Undef s => s end.

Definition M (A : Type) : Type := state -> outcome A.

Definition ret {A} (a : A) : M A := fun s => Ret a s.

Definition bind {A B} (m : M A) (k : A -> M B) : M B :=
  fun s =>
    match m s with
    | Ret a s' => k a s'
    | Hang s' => Hang s'
    | Undef s' => Undef s'
    end.

Definition hang {A} : M A := fun s => Hang s.
Definition undef {A} : M A := fun s => Undef s.
End Driver.

Global Arguments state HW : clear implicits.
Global Arguments outcome HW A : clear implicits.
Global Arguments M HW A : clear implicits.

Declare Scope i2c_scope.
Delimit Scope i2c_scope with i2c.
Notation "'let*' x ':=' m 'in' k" := (bind m (fun x => k))
  (at level 10, x name, m at level 100, k at level 200) : i2c_scope.
Local Open Scope i2c_scope.

Section Statements.
Context {HW : Type} `{!I2C_Peripheral HW}.

(** [I2C1->CTLR1 |= b;] *)
Definition CTLR1_set (b : ctlr1_bit) : M HW unit :=
  fun s => Ret tt (mkState (hw_ctlr1_set b (hw s)) (trace s ++ [SetBit b])).

(** [I2C1->CTLR1 &= ~b;] *)
Definition CTLR1_clear (b : ctlr1_bit) : M HW unit :=
  fun s => Ret tt (mkState (hw_ctlr1_clear b (hw s)) (trace s ++ [ClearBit b])).

(** [I2C1->STAR2 & I2C_STAR2_BUSY] *)
Definition STAR2_busy : M HW bool :=
  fun s => let (v, h) := hw_busy (hw s) in
           Ret v (mkState h (trace s ++ [Busy v])).

(** [I2C1->STAR1 & f] *)
Definition STAR1_test (f : star1_bit) : M HW bool :=
  fun s => let (v, h) := hw_star1 f (hw s) in
           Ret v (mkState h (trace s ++ [Star1 f v])).

(** [i2c_status(e)]: the helper of [lib_i2c.h], which reads the status
    registers and answers whether event [e] holds. *)
Definition i2c_status (e : i2c_event) : M HW bool :=
  fun s => let (v, h) := hw_status e (hw s) in
           Ret v (mkState h (trace s ++ [Status e v])).

(** [I2C1->DATAR = d;] *)
Definition DATAR_write (d : Z) : M HW unit :=
  fun s => Ret tt (mkState (hw_datar_write d (hw s)) (trace s ++ [Send d])).

(** [... = I2C1->DATAR] *)
Definition DATAR_read : M HW Z :=
  fun s => let (d, h) := hw_datar_read (hw s) in
           Ret d (mkState h (trace s ++ [Recv d])).

(** [buf[i] = v;]: outside the caller's buffer the store is undefined. *)
Definition buf_store (buf : list Z) (i v : Z) : M HW (list Z) :=
  if decide (0 <= i < Z.of_nat (length buf))
  then ret (<[Z.to_nat i := v]> buf)
  else undef.

(** [buf[i]]: outside the caller's buffer the load is undefined. *)
Definition buf_load (buf : list Z) (i : Z) : M HW Z :=
  if decide (0 <= i)
  then match buf !! Z.to_nat i with
       | Some v => ret v
       | None => undef
       end
  else undef.

(** ** The wait loops

    A loop with a timeout counter runs its body at most [timeout + 1]
    times; its recursion is on a bound [n] that the callers set to the
    counter's initial value, and which is never used up.  The counter
    stays between [-1] and [I2C_TIMEOUT], so [--timeout] is written
    without the [int32_t] wrap-around.  A loop without a counter recurses
    on [fuel], the number of polls it is given. *)

(** [while(I2C1->STAR2 & I2C_STAR2_BUSY) if(--timeout < 0) return I2C_ERR_TIMEOUT;]
    [true]: the loop was left, [false]: the function returns. *)
Fixpoint wait_bus_idle (n : nat) (timeout : Z) {struct n} : M HW bool :=
  let* busy := STAR2_busy in
  if busy then
    let timeout := timeout - 1 in
    if timeout <? 0 then ret false
    else match n with
         | O => hang
         | S n' => wait_bus_idle n' timeout
         end
  else ret true.

(** [while(!i2c_status(e)) { if(--timeout < 0) <leave>; }]
    [true]: the event was seen, [false]: the counter ran out. *)
Fixpoint wait_status_timeout (n : nat) (e : i2c_event) (timeout : Z)
    {struct n} : M HW bool :=
  let* seen := i2c_status e in
  if negb seen then
    let timeout := timeout - 1 in
    if timeout <? 0 then ret false
    else match n with
         | O => hang
         | S n' => wait_status_timeout n' e timeout
         end
  else ret true.

(** [while(!i2c_status(e));] *)
Fixpoint wait_status (fuel : nat) (e : i2c_event) : M HW unit :=
  match fuel with
  | O => hang
  | S fuel' =>
    let* seen := i2c_status e in
    if negb seen then wait_status fuel' e else ret tt
  end.

(** [while(!(I2C1->STAR1 & f));] *)
Fixpoint wait_star1 (fuel : nat) (f : star1_bit) : M HW unit :=
  match fuel with
  | O => hang
  | S fuel' =>
    let* set := STAR1_test f in
    if negb set then wait_star1 fuel' f else ret tt
  end.

(** ** [i2c_ping] *)
Definition i2c_ping (fuel : nat) (addr : Z) : M HW i2c_err_t :=
  let ret_sta := I2C_OK in
  let timeout := I2C_TIMEOUT in
  let* idle := wait_bus_idle (Z.to_nat timeout) timeout in
  if negb idle then ret I2C_ERR_TIMEOUT else
  let* _ := CTLR1_set I2C_CTLR1_START in
  let* _ := wait_status fuel I2C_EVENT_MASTER_MODE_SELECT in
  let timeout := I2C_TIMEOUT in
  let* _ := DATAR_write (Z.land addr 0xFE) in
  let* acked := wait_status_timeout (Z.to_nat timeout)
                  I2C_EVENT_MASTER_TRANSMITTER_MODE_SELECTED timeout in
  let ret_sta := if acked then ret_sta else I2C_ERR_NACK in
  let* _ := CTLR1_set I2C_CTLR1_STOP in
  ret ret_sta.

(** ** [i2c_read] *)

(** The receive loop, from index [cbyte] ([uint8_t], so [++cbyte] wraps
    at 256); [n] bounds the iterations left. *)
Fixpoint read_bytes (n fuel : nat) (len cbyte : Z) (buf : list Z)
    {struct n} : M HW (list Z) :=
  if cbyte <? len then
    match n with
    | O => hang
    | S n' =>
      let* _ := (if cbyte =? len then CTLR1_clear I2C_CTLR1_ACK else ret tt) in
      let* _ := wait_star1 fuel I2C_STAR1_RXNE in
      let* d := DATAR_read in
      let* buf := buf_store buf cbyte (d mod 256) in
      read_bytes n' fuel len ((cbyte + 1) mod 256) buf
    end
  else ret buf.

(** The result comes with the caller's buffer as the call leaves it. *)
Definition i2c_read (fuel : nat) (addr reg : Z) (buf : list Z) (len : Z)
    : M HW (i2c_err_t * list Z) :=
  let timeout := I2C_TIMEOUT in
  let* idle := wait_bus_idle (Z.to_nat timeout) timeout in
  if negb idle then ret (I2C_ERR_TIMEOUT, buf) else
  let* _ := CTLR1_set I2C_CTLR1_START in
  let* _ := wait_status fuel I2C_EVENT_MASTER_MODE_SELECT in
  let timeout := I2C_TIMEOUT in
  let* _ := DATAR_write (Z.land addr 0xFE) in
  let* acked := wait_status_timeout (Z.to_nat timeout)
                  I2C_EVENT_MASTER_TRANSMITTER_MODE_SELECTED timeout in
  if negb acked then ret (I2C_ERR_NACK, buf) else
  let* _ := DATAR_write reg in
  let* _ := wait_star1 fuel I2C_STAR1_TXE in
  let* _ := (if 1 <? len then CTLR1_set I2C_CTLR1_ACK else ret tt) in
  let* _ := CTLR1_set I2C_CTLR1_START in
  let* _ := wait_status fuel I2C_EVENT_MASTER_MODE_SELECT in
  let timeout := I2C_TIMEOUT in
  let* _ := DATAR_write (Z.lor addr 0x01) in
  let* acked := wait_status_timeout (Z.to_nat timeout)
                  I2C_EVENT_MASTER_RECEIVER_MODE_SELECTED timeout in
  if negb acked then ret (I2C_ERR_NACK, buf) else
  let cbyte := 0 in
  let* buf := read_bytes (Z.to_nat len) fuel len cbyte buf in
  let* _ := CTLR1_set I2C_CTLR1_STOP in
  ret (I2C_OK, buf).

(** ** [i2c_write] *)

(** The transmit loop, from index [cbyte]. *)
Fixpoint write_bytes (n fuel : nat) (len cbyte : Z) (buf : list Z)
    {struct n} : M HW unit :=
  if cbyte <? len then
    match n with
    | O => hang
    | S n' =>
      let* _ := wait_star1 fuel I2C_STAR1_TXE in
      let* b := buf_load buf cbyte in
      let* _ := DATAR_write b in
      write_bytes n' fuel len ((cbyte + 1) mod 256) buf
    end
  else ret tt.

Definition i2c_write (fuel : nat) (addr reg : Z) (buf : list Z) (len : Z)
    : M HW i2c_err_t :=
  let timeout := I2C_TIMEOUT in
  let* idle := wait_bus_idle (Z.to_nat timeout) timeout in
  if negb idle then ret I2C_ERR_TIMEOUT else
  let* _ := CTLR1_set I2C_CTLR1_START in
  let* _ := wait_status fuel I2C_EVENT_MASTER_MODE_SELECT in
  let timeout := I2C_TIMEOUT in
  let* _ := DATAR_write (Z.land addr 0xFE) in
  let* acked := wait_status_timeout (Z.to_nat timeout)
                  I2C_EVENT_MASTER_TRANSMITTER_MODE_SELECTED timeout in
  if negb acked then ret I2C_ERR_NACK else
  let* _ := DATAR_write reg in
  let* _ := wait_star1 fuel I2C_STAR1_TXE in
  let cbyte := 0 in
  let* _ := write_bytes (Z.to_nat len) fuel len cbyte buf in
  let* _ := wait_status fuel I2C_EVENT_MASTER_BYTE_TRANSMITTED in
  let* _ := CTLR1_set I2C_CTLR1_STOP in
  ret I2C_OK.

(** The outcome [o] of [i2c_read], with the buffer it returns replaced
    by [b]. *)
Definition with_buffer (b : list Z) (o : outcome HW (i2c_err_t * list Z))
    : outcome HW (i2c_err_t * list Z) :=
  match o with
  | Ret (r, _) s => Ret (r, b) s
  | Hang s => Hang s
  | Undef s => Undef s
  end.

(** ** What a peripheral may be assumed to do *)

(** Polling [p] from [h] answers [true] within [n] attempts. *)
Fixpoint within (n : nat) (p : HW -> bool * HW) (h : HW) : bool :=
  match n with
  | O => false
  | S n' => let (v, h') := p h in v || within n' p h'
  end.

(** The negated busy test, as a poll for "bus idle". *)
Definition hw_idle (h : HW) : bool * HW :=
  let (v, h') := hw_busy h in (negb v, h').

(** Whatever state the peripheral is in, polling [p] answers within [n]
    attempts. *)
Definition responds (n : nat) (p : HW -> bool * HW) : Prop :=
  forall h, within n p h = true.
End Statements.

(** ** A simulated peripheral

    For running the driver on concrete inputs.  The simulation counts the
    status reads in [ticks]; data reads pop [rxq], data writes are appended
    to [wire], and [ctl] holds the bits of [CTLR1] that are set.  Its
    behaviour is fixed by four switches: the timeout constant, whether the
    bus stays busy, whether a device acknowledges its address, and whether
    flags need a second read before they show. *)
Record sim : Type := mkSim {
  ticks : nat;
  rxq : list Z;
  wire : list Z;
  ctl : list ctlr1_bit
}.

Definition sim_tick (h : sim) : sim :=
  mkSim (S (ticks h)) (rxq h) (wire h) (ctl h).

Definition sim_flag (slow : bool) (h : sim) : bool :=
  if slow then Nat.odd (ticks h) else true.

Definition sim_periph (timeout : Z) (busy acks slow : bool)
    : I2C_Peripheral sim := {|
  I2C_TIMEOUT := timeout;
  hw_busy h := (busy, sim_tick h);
  hw_star1 _ h := (sim_flag slow h, sim_tick h);
  hw_status e h :=
    match e with
    | I2C_EVENT_MASTER_TRANSMITTER_MODE_SELECTED
    | I2C_EVENT_MASTER_RECEIVER_MODE_SELECTED =>
        (acks && sim_flag slow h, sim_tick h)
    | _ => (sim_flag slow h, sim_tick h)
    end;
  hw_ctlr1_set b h := mkSim (ticks h) (rxq h) (wire h) (b :: ctl h);
  hw_ctlr1_clear b h :=
    mkSim (ticks h) (rxq h) (wire h) (filter (fun c => c <> b) (ctl h));
  hw_datar_write d h := mkSim (ticks h) (rxq h) (wire h ++ [d]) (ctl h);
  hw_datar_read h :=
    (hd 0 (rxq h), mkSim (ticks h) (tl (rxq h)) (wire h) (ctl h))
|}.

(** A simulated bus at rest with [rx] waiting to be read. *)
Definition sim0 (rx : list Z) : sim := mkSim 0 rx [] [].

(** Four simulated buses, all with [I2C_TIMEOUT = 3]: a device whose
    flags show on every second read, a device that answers at once, a bus
    without a device, and a bus that stays busy. *)
Definition sim_device : I2C_Peripheral sim := sim_periph 3 false true true.
Definition sim_prompt : I2C_Peripheral sim := sim_periph 3 false true false.
Definition sim_absent : I2C_Peripheral sim := sim_periph 3 false false false.
Definition sim_busy : I2C_Peripheral sim := sim_periph 3 true true false.

(** Calls on the simulated buses. *)
Abbreviation read3_device :=
  (@i2c_read sim sim_device 5 0x43 0x10 [0; 0; 0; 0xEE] 3
     (init (sim0 [0x1A5; 7; 9]))) (only parsing).
Abbreviation read1_device :=
  (@i2c_read sim sim_device 5 0x43 0x10 [0; 0xEE] 1 (init (sim0 [7])))
  (only parsing).
Abbreviation read3_absent :=
  (@i2c_read sim sim_absent 5 0x43 0x10 [0; 0; 0] 3 (init (sim0 [])))
  (only parsing).
Abbreviation write3_prompt :=
  (@i2c_write sim sim_prompt 1 0x43 0x10 [1; 2; 3] 3 (init (sim0 [])))
  (only parsing).
Abbreviation write3_absent :=
  (@i2c_write sim sim_absent 1 0x43 0x10 [1; 2; 3] 3 (init (sim0 [])))
  (only parsing).
Abbreviation ping_absent :=
  (@i2c_ping sim sim_absent 1 0x43 (init (sim0 []))) (only parsing).
Abbreviation ping_busy :=
  (@i2c_ping sim sim_busy 0 0x43 (init (sim0 []))) (only parsing).

(** ** The shape of a transaction

    What a call leaves in the log depends on where it ends.  The shapes
    below list every way a call can end, with the log it leaves; they do
    not mention the peripheral. *)

(** How a call ended, without the state. *)
Inductive verdict (A : Type) : Type :=
| Returned (a : A)
| Hung
| Faulted.
Global Arguments Returned {A} a.
Global Arguments Hung {A}.
Global Arguments Faulted {A}.

Definition verdict_of {HW A} (o : outcome HW A) : verdict A :=
  match o with
  | Ret a _ => Returned a
  | Hang _ => Hung
  | Undef _ => Faulted
  end.

(** [k] busy polls, then the bus is seen idle. *)
Definition idle (k : nat) : list action :=
  repeat (Busy true) k ++ [Busy false].

(** [k] failed calls of [i2c_status(e)], then the event is seen. *)
Definition await (e : i2c_event) (k : nat) : list action :=
  repeat (Status e false) k ++ [Status e true].

(** [k] reads of [STAR1] with [f] clear, then [f] is seen set. *)
Definition ready (f : star1_bit) (k : nat) : list action :=
  repeat (Star1 f false) k ++ [Star1 f true].

(** The three functions begin alike: idle wait, START, write address. *)
Inductive opening_end : Type := OpTimeout | OpHang | OpNack | OpAck.

Inductive opening_shape (T fuel : nat) (addr : Z)
  : opening_end -> list action -> Prop :=
| opening_timeout :
    opening_shape T fuel addr OpTimeout (repeat (Busy true) (S T))
| opening_hang k :
    (k <= T)%nat ->
    opening_shape T fuel addr OpHang
      (idle k ++ [SetBit I2C_CTLR1_START]
       ++ repeat (Status I2C_EVENT_MASTER_MODE_SELECT false) fuel)
| opening_nack k j :
    (k <= T)%nat -> (j < fuel)%nat ->
    opening_shape T fuel addr OpNack
      (idle k ++ [SetBit I2C_CTLR1_START]
       ++ await I2C_EVENT_MASTER_MODE_SELECT j
       ++ [Send (Z.land addr 0xFE)]
       ++ repeat (Status I2C_EVENT_MASTER_TRANSMITTER_MODE_SELECTED false) (S T))
| opening_ack k j i :
    (k <= T)%nat -> (j < fuel)%nat -> (i <= T)%nat ->
    opening_shape T fuel addr OpAck
      (idle k ++ [SetBit I2C_CTLR1_START]
       ++ await I2C_EVENT_MASTER_MODE_SELECT j
       ++ [Send (Z.land addr 0xFE)]
       ++ await I2C_EVENT_MASTER_TRANSMITTER_MODE_SELECTED i).

(** Every way [i2c_ping] ends. *)
Inductive ping_shape (T fuel : nat) (addr : Z)
  : verdict i2c_err_t -> list action -> Prop :=
| ping_timeout tr :
    opening_shape T fuel addr OpTimeout tr ->
    ping_shape T fuel addr (Returned I2C_ERR_TIMEOUT) tr
| ping_hang tr :
    opening_shape T fuel addr OpHang tr ->
    ping_shape T fuel addr Hung tr
| ping_nack tr :
    opening_shape T fuel addr OpNack tr ->
    ping_shape T fuel addr (Returned I2C_ERR_NACK)
      (tr ++ [SetBit I2C_CTLR1_STOP])
| ping_ok tr :
    opening_shape T fuel addr OpAck tr ->
    ping_shape T fuel addr (Returned I2C_OK)
      (tr ++ [SetBit I2C_CTLR1_STOP]).

(** The log of receiving the bytes [l]; with each byte, the number of
    reads of [STAR1] that found the receive register empty. *)
Definition rx_trace (l : list (nat * Z)) : list action :=
  flat_map (fun kd => ready I2C_STAR1_RXNE (fst kd) ++ [Recv (snd kd)]) l.

(** The log of sending the bytes [l]; with each byte, the number of reads
    of [STAR1] that found the transmit register full. *)
Definition tx_trace (l : list (nat * Z)) : list action :=
  flat_map (fun kb => ready I2C_STAR1_TXE (fst kb) ++ [Send (snd kb)]) l.

(** The buffer after storing the bytes [bs] from index [c] on. *)
Definition filled (buf : list Z) (c : nat) (bs : list Z) : list Z :=
  take c buf ++ bs ++ drop (c + length bs) buf.

(** Every way the receive loop ends, started at index [c]. *)
Inductive read_bytes_shape (fuel : nat) (len c : nat) (buf : list Z)
  : verdict (list Z) -> list action -> Prop :=
| read_bytes_done l :
    (c + length l = Nat.max c len)%nat ->
    (c = Nat.max c len \/ Nat.max c len <= length buf)%nat ->
    read_bytes_shape fuel len c buf
      (Returned (filled buf c (map (fun kd => snd kd mod 256) l)))
      (rx_trace l)
| read_bytes_hang l :
    (c + length l < len)%nat ->
    read_bytes_shape fuel len c buf Hung
      (rx_trace l ++ repeat (Star1 I2C_STAR1_RXNE false) fuel)
| read_bytes_fault l k d :
    (c + length l < len)%nat ->
    (c + length l = Nat.max c (length buf))%nat ->
    read_bytes_shape fuel len c buf Faulted
      (rx_trace l ++ ready I2C_STAR1_RXNE k ++ [Recv d]).

(** [I2C1->CTLR1 |= I2C_CTLR1_ACK] when [len > 1]. *)
Definition ack_mode (len : Z) : list action :=
  if 1 <? len then [SetBit I2C_CTLR1_ACK] else [].

(** Every way [i2c_read] ends once the device has acknowledged the write
    address; [pre] is the log up to there. *)
Inductive read_shape_acked (T fuel : nat) (addr reg : Z) (buf : list Z)
    (len : Z) (pre : list action)
  : verdict (i2c_err_t * list Z) -> list action -> Prop :=
| read_hang_txe :
    read_shape_acked T fuel addr reg buf len pre Hung
      (pre ++ [Send reg] ++ repeat (Star1 I2C_STAR1_TXE false) fuel)
| read_hang_restart k :
    (k < fuel)%nat ->
    read_shape_acked T fuel addr reg buf len pre Hung
      (pre ++ [Send reg] ++ ready I2C_STAR1_TXE k ++ ack_mode len
       ++ [SetBit I2C_CTLR1_START]
       ++ repeat (Status I2C_EVENT_MASTER_MODE_SELECT false) fuel)
| read_nack_rx k j :
    (k < fuel)%nat -> (j < fuel)%nat ->
    read_shape_acked T fuel addr reg buf len pre
      (Returned (I2C_ERR_NACK, buf))
      (pre ++ [Send reg] ++ ready I2C_STAR1_TXE k ++ ack_mode len
       ++ [SetBit I2C_CTLR1_START]
       ++ await I2C_EVENT_MASTER_MODE_SELECT j
       ++ [Send (Z.lor addr 0x01)]
       ++ repeat (Status I2C_EVENT_MASTER_RECEIVER_MODE_SELECTED false) (S T))
| read_hang_rx k j i l :
    (k < fuel)%nat -> (j < fuel)%nat -> (i <= T)%nat ->
    (length l < Z.to_nat len)%nat ->
    read_shape_acked T fuel addr reg buf len pre Hung
      (pre ++ [Send reg] ++ ready I2C_STAR1_TXE k ++ ack_mode len
       ++ [SetBit I2C_CTLR1_START]
       ++ await I2C_EVENT_MASTER_MODE_SELECT j
       ++ [Send (Z.lor addr 0x01)]
       ++ await I2C_EVENT_MASTER_RECEIVER_MODE_SELECTED i
       ++ rx_trace l ++ repeat (Star1 I2C_STAR1_RXNE false) fuel)
| read_fault k j i l k' d :
    (k < fuel)%nat -> (j < fuel)%nat -> (i <= T)%nat ->
    (length l < Z.to_nat len)%nat -> length l = length buf ->
    read_shape_acked T fuel addr reg buf len pre Faulted
      (pre ++ [Send reg] ++ ready I2C_STAR1_TXE k ++ ack_mode len
       ++ [SetBit I2C_CTLR1_START]
       ++ await I2C_EVENT_MASTER_MODE_SELECT j
       ++ [Send (Z.lor addr 0x01)]
       ++ await I2C_EVENT_MASTER_RECEIVER_MODE_SELECTED i
       ++ rx_trace l ++ ready I2C_STAR1_RXNE k' ++ [Recv d])
| read_ok k j i l :
    (k < fuel)%nat -> (j < fuel)%nat -> (i <= T)%nat ->
    length l = Z.to_nat len -> (length l <= length buf)%nat ->
    read_shape_acked T fuel addr reg buf len pre
      (Returned (I2C_OK, filled buf 0 (map (fun kd => snd kd mod 256) l)))
      (pre ++ [Send reg] ++ ready I2C_STAR1_TXE k ++ ack_mode len
       ++ [SetBit I2C_CTLR1_START]
       ++ await I2C_EVENT_MASTER_MODE_SELECT j
       ++ [Send (Z.lor addr 0x01)]
       ++ await I2C_EVENT_MASTER_RECEIVER_MODE_SELECTED i
       ++ rx_trace l ++ [SetBit I2C_CTLR1_STOP]).

(** Every way [i2c_read] ends. *)
Inductive read_shape (T fuel : nat) (addr reg : Z) (buf : list Z) (len : Z)
  : verdict (i2c_err_t * list Z) -> list action -> Prop :=
| read_timeout tr :
    opening_shape T fuel addr OpTimeout tr ->
    read_shape T fuel addr reg buf len (Returned (I2C_ERR_TIMEOUT, buf)) tr
| read_hang tr :
    opening_shape T fuel addr OpHang tr ->
    read_shape T fuel addr reg buf len Hung tr
| read_nack tr :
    opening_shape T fuel addr OpNack tr ->
    read_shape T fuel addr reg buf len (Returned (I2C_ERR_NACK, buf)) tr
| read_acked pre v tr :
    opening_shape T fuel addr OpAck pre ->
    read_shape_acked T fuel addr reg buf len pre v tr ->
    read_shape T fuel addr reg buf len v tr.

(** Every way the transmit loop ends, started at index [c]. *)
Inductive write_bytes_shape (fuel : nat) (len c : nat) (buf : list Z)
  : verdict unit -> list action -> Prop :=
| write_bytes_done l :
    (c + length l = Nat.max c len)%nat ->
    map snd l = take (length l) (drop c buf) ->
    write_bytes_shape fuel len c buf (Returned tt) (tx_trace l)
| write_bytes_hang l :
    (c + length l < len)%nat ->
    map snd l = take (length l) (drop c buf) ->
    write_bytes_shape fuel len c buf Hung
      (tx_trace l ++ repeat (Star1 I2C_STAR1_TXE false) fuel)
| write_bytes_fault l k :
    (c + length l < len)%nat ->
    map snd l = drop c buf ->
    write_bytes_shape fuel len c buf Faulted
      (tx_trace l ++ ready I2C_STAR1_TXE k).

(** Every way [i2c_write] ends once the device has acknowledged its
    address; [pre] is the log up to there. *)
Inductive write_shape_acked (fuel : nat) (reg : Z) (buf : list Z)
    (len : Z) (pre : list action)
  : verdict i2c_err_t -> list action -> Prop :=
| write_hang_txe :
    write_shape_acked fuel reg buf len pre Hung
      (pre ++ [Send reg] ++ repeat (Star1 I2C_STAR1_TXE false) fuel)
| write_hang_tx k l :
    (k < fuel)%nat ->
    (length l < Z.to_nat len)%nat ->
    map snd l = take (length l) buf ->
    write_shape_acked fuel reg buf len pre Hung
      (pre ++ [Send reg] ++ ready I2C_STAR1_TXE k
       ++ tx_trace l ++ repeat (Star1 I2C_STAR1_TXE false) fuel)
| write_fault k l k' :
    (k < fuel)%nat ->
    (length l < Z.to_nat len)%nat ->
    map snd l = buf ->
    write_shape_acked fuel reg buf len pre Faulted
      (pre ++ [Send reg] ++ ready I2C_STAR1_TXE k
       ++ tx_trace l ++ ready I2C_STAR1_TXE k')
| write_hang_btf k l :
    (k < fuel)%nat ->
    length l = Z.to_nat len ->
    map snd l = take (length l) buf ->
    write_shape_acked fuel reg buf len pre Hung
      (pre ++ [Send reg] ++ ready I2C_STAR1_TXE k ++ tx_trace l
       ++ repeat (Status I2C_EVENT_MASTER_BYTE_TRANSMITTED false) fuel)
| write_ok k l j :
    (k < fuel)%nat -> (j < fuel)%nat ->
    length l = Z.to_nat len ->
    map snd l = take (length l) buf ->
    write_shape_acked fuel reg buf len pre (Returned I2C_OK)
      (pre ++ [Send reg] ++ ready I2C_STAR1_TXE k ++ tx_trace l
       ++ await I2C_EVENT_MASTER_BYTE_TRANSMITTED j
       ++ [SetBit I2C_CTLR1_STOP]).

(** Every way [i2c_write] ends. *)
Inductive write_shape (T fuel : nat) (addr reg : Z) (buf : list Z) (len : Z)
  : verdict i2c_err_t -> list action -> Prop :=
| write_timeout tr :
    opening_shape T fuel addr OpTimeout tr ->
    write_shape T fuel addr reg buf len (Returned I2C_ERR_TIMEOUT) tr
| write_hang tr :
    opening_shape T fuel addr OpHang tr ->
    write_shape T fuel addr reg buf len Hung tr
| write_nack tr :
    opening_shape T fuel addr OpNack tr ->
    write_shape T fuel addr reg buf len (Returned I2C_ERR_NACK) tr
| write_acked pre v tr :
    opening_shape T fuel addr OpAck pre ->
    write_shape_acked fuel reg buf len pre v tr ->
    write_shape T fuel addr reg buf len v tr.

(** Every way the wait for an idle bus ends, from a counter worth [T]. *)
Definition idle_shape (T : nat) (v : verdict bool) (tr : list action) : Prop :=
  match v with
  | Returned true => exists k, (k <= T)%nat /\ tr = idle k
  | Returned false => tr = repeat (Busy true) (S T)
  | _ => False
  end.

(** Every way a wait for [e] with a counter worth [T] ends. *)
Definition timed_shape (T : nat) (e : i2c_event) (v : verdict bool)
    (tr : list action) : Prop :=
  match v with
  | Returned true => exists k, (k <= T)%nat /\ tr = await e k
  | Returned false => tr = repeat (Status e false) (S T)
  | _ => False
  end.

(** Every way a wait for [e] without a counter ends. *)
Definition await_shape (fuel : nat) (e : i2c_event) (v : verdict unit)
    (tr : list action) : Prop :=
  match v with
  | Returned _ => exists k, (k < fuel)%nat /\ tr = await e k
  | Hung => tr = repeat (Status e false) fuel
  | Faulted => False
  end.

(** Every way a wait for flag [f] of [STAR1] ends. *)
Definition ready_shape (fuel : nat) (f : star1_bit) (v : verdict unit)
    (tr : list action) : Prop :=
  match v with
  | Returned _ => exists k, (k < fuel)%nat /\ tr = ready f k
  | Hung => tr = repeat (Star1 f false) fuel
  | Faulted => False
  end.

Section Runs.
Context {HW : Type} `{!I2C_Peripheral HW}.

(** From [s], the call [m] appends some [tr] to the log and ends with a
    verdict, and [P] holds of the two. *)
Definition runs {A} (m : M HW A) (s : state HW)
    (P : verdict A -> list action -> Prop) : Prop :=
  exists tr, trace (final (m s)) = trace s ++ tr /\ P (verdict_of (m s)) tr.

(** The statements the three functions begin with, then [k] with the
    answer of the address wait; [tmo] is returned when the bus stays
    busy.  The functions are instances of it by unfolding. *)
Definition opening {A} (fuel : nat) (addr : Z) (tmo : A)
    (k : bool -> M HW A) : M HW A :=
  let timeout := I2C_TIMEOUT in
  let* idle := wait_bus_idle (Z.to_nat timeout) timeout in
  if negb idle then ret tmo else
  let* _ := CTLR1_set I2C_CTLR1_START in
  let* _ := wait_status fuel I2C_EVENT_MASTER_MODE_SELECT in
  let timeout := I2C_TIMEOUT in
  let* _ := DATAR_write (Z.land addr 0xFE) in
  let* acked := wait_status_timeout (Z.to_nat timeout)
                  I2C_EVENT_MASTER_TRANSMITTER_MODE_SELECTED timeout in
  k acked.
End Runs.

(** ** [i2c_scan]

    [printf] is modelled by the list of strings it is called to print,
    threaded through the loop and returned with the result. *)

(** One hexadecimal digit, upper case. *)
Definition hex_digit (n : Z) : ascii :=
  if n <? 10 then ascii_of_nat (48 + Z.to_nat n)
  else ascii_of_nat (55 + Z.to_nat n).

(** [%02X] of a [uint8_t]: two digits. *)
Definition fmt_02X (v : Z) : string :=
  String (hex_digit (v / 16)) (String (hex_digit (v mod 16)) EmptyString).

(** ["--Scanning I2C Bus--\n"] *)
Definition scan_banner : string :=
  String.append "--Scanning I2C Bus--" (String (ascii_of_nat 10) EmptyString).

(** ["\tDevice 0x%02X Responded\n"] with [real_addr] *)
Definition scan_line (real_addr : Z) : string :=
  String (ascii_of_nat 9)
    (String.append "Device 0x"
       (String.append (fmt_02X real_addr)
          (String.append " Responded" (String (ascii_of_nat 10) EmptyString)))).

(** ["--Done Scanning--\n"] *)
Definition scan_done : string :=
  String.append "--Done Scanning--" (String (ascii_of_nat 10) EmptyString).

Section Scan.
Context {HW : Type} `{!I2C_Peripheral HW}.

(** [for(uint8_t addr = 0x00; addr < 0x7F; addr++) { ... }], from [addr];
    [n] bounds the iterations left and [out] is what was printed so
    far. *)
Fixpoint scan_loop (n fuel : nat) (addr : Z) (out : list string)
    {struct n} : M HW (list string) :=
  if addr <? 0x7F then
    match n with
    | O => hang
    | S n' =>
      let real_addr := (Z.shiftl addr 1) mod 256 in
      let* r := i2c_ping fuel real_addr in
      let out :=
        if decide (r = I2C_OK) then out ++ [scan_line real_addr] else out in
      scan_loop n' fuel ((addr + 1) mod 256) out
    end
  else ret out.

(** The result is everything printed. *)
Definition i2c_scan (fuel : nat) : M HW (list string) :=
  let out := [scan_banner] in
  let* out := scan_loop 127 fuel 0x00 out in
  ret (out ++ [scan_done]).
End Scan.

(** Every way the scan loop ends, started at [addr] with [out] printed:
    a sequence of probes that return, then the end of the address range
    or a probe that hangs. *)
Inductive scan_shape (T fuel : nat)
  : Z -> list string -> verdict (list string) -> list action -> Prop :=
| scan_end addr out :
    0x7F <= addr ->
    scan_shape T fuel addr out (Returned out) []
| scan_probe addr out r tr v tr' :
    addr < 0x7F ->
    ping_shape T fuel (2 * addr) (Returned r) tr ->
    scan_shape T fuel (addr + 1)
      (if decide (r = I2C_OK) then out ++ [scan_line (2 * addr)] else out)
      v tr' ->
    scan_shape T fuel addr out v (tr ++ tr')
| scan_stuck addr out tr :
    addr < 0x7F ->
    ping_shape T fuel (2 * addr) Hung tr ->
    scan_shape T fuel addr out Hung tr.

(** The bytes the log shows as acknowledged: those whose write to the
    data register is followed, failed polls apart, by the transmitter
    event. *)
Fixpoint acked_sends (tr : list action) : list Z :=
  match tr with
  | [] => []
  | Send d :: tr' =>
    match tr' with
    | Status I2C_EVENT_MASTER_TRANSMITTER_MODE_SELECTED true :: _ =>
        d :: acked_sends tr'
    | _ => acked_sends tr'
    end
  | _ :: tr' => acked_sends tr'
  end.

Definition acked (tr : list action) : list Z := acked_sends (progress tr).

(** The wire addresses [i2c_scan] probes, from 7-bit address [addr] on. *)
Definition probes (addr : Z) : list Z :=
  (fun a => 2 * a) <$> seqZ addr (0x7F - addr).

(** Every way [i2c_scan] ends. *)
Definition i2c_scan_shape (T fuel : nat) (v : verdict (list string))
    (tr : list action) : Prop :=
  match v with
  | Returned o =>
      exists out, o = out ++ [scan_done]
                  /\ scan_shape T fuel 0 [scan_banner] (Returned out) tr
  | Hung => scan_shape T fuel 0 [scan_banner] Hung tr
  | Faulted => False
  end.

(** The log of a call of [i2c_ping] that returns [r], without the failed
    polls. *)
Definition ping_progress (addr : Z) (r : i2c_err_t) : list action :=
  match r with
  | I2C_ERR_TIMEOUT => []
  | I2C_ERR_NACK =>
      [Busy false; SetBit I2C_CTLR1_START;
       Status I2C_EVENT_MASTER_MODE_SELECT true; Send (Z.land addr 0xFE);
       SetBit I2C_CTLR1_STOP]
  | I2C_OK =>
      [Busy false; SetBit I2C_CTLR1_START;
       Status I2C_EVENT_MASTER_MODE_SELECT true; Send (Z.land addr 0xFE);
       Status I2C_EVENT_MASTER_TRANSMITTER_MODE_SELECTED true;
       SetBit I2C_CTLR1_STOP]
  end.

(** A simulated bus with devices at the wire addresses [devs]: an address
    wait succeeds when the byte last written to the data register, bit 0
    cleared, is one of them; every other flag shows at once. *)
Definition sim_bus (timeout : Z) (devs : list Z) : I2C_Peripheral sim := {|
  I2C_TIMEOUT := timeout;
  hw_busy h := (false, sim_tick h);
  hw_star1 _ h := (true, sim_tick h);
  hw_status e h :=
    match e with
    | I2C_EVENT_MASTER_TRANSMITTER_MODE_SELECTED
    | I2C_EVENT_MASTER_RECEIVER_MODE_SELECTED =>
        (existsb (Z.eqb (Z.land (List.last (wire h) 0) 0xFE)) devs,
         sim_tick h)
    | _ => (true, sim_tick h)
    end;
  hw_ctlr1_set b h := mkSim (ticks h) (rxq h) (wire h) (b :: ctl h);
  hw_ctlr1_clear b h :=
    mkSim (ticks h) (rxq h) (wire h) (filter (fun c => c <> b) (ctl h));
  hw_datar_write d h := mkSim (ticks h) (rxq h) (wire h ++ [d]) (ctl h);
  hw_datar_read h :=
    (hd 0 (rxq h), mkSim (ticks h) (tl (rxq h)) (wire h) (ctl h))
|}.

(** A bus with one device, at 7-bit address 0x21. *)
Definition sim_one : I2C_Peripheral sim := sim_bus 3 [0x42].

(** A bus on which no event is ever reported: the bus is idle, but a
    START condition never shows. *)
Definition sim_mute : I2C_Peripheral sim := {|
  I2C_TIMEOUT := 3;
  hw_busy h := (false, sim_tick h);
  hw_star1 _ h := (true, sim_tick h);
  hw_status _ h := (false, sim_tick h);
  hw_ctlr1_set b h := mkSim (ticks h) (rxq h) (wire h) (b :: ctl h);
  hw_ctlr1_clear b h :=
    mkSim (ticks h) (rxq h) (wire h) (filter (fun c => c <> b) (ctl h));
  hw_datar_write d h := mkSim (ticks h) (rxq h) (wire h ++ [d]) (ctl h);
  hw_datar_read h :=
    (hd 0 (rxq h), mkSim (ticks h) (tl (rxq h)) (wire h) (ctl h))
|}.

(** The call that ended in [o] was given [fuel] polls and used them all
    waiting for the start event: it has set the START bit, asked for
    the event [fuel] times, and written nothing to the data register. *)
Definition hung_in_start {HW A} (fuel : nat) (o : outcome HW A) : Prop :=
  verdict_of o = Hung
  /\ status_polls I2C_EVENT_MASTER_MODE_SELECT (trace (final o)) = fuel
  /\ controls (trace (final o)) = [SetBit I2C_CTLR1_START]
  /\ sends (trace (final o)) = [].

(** ** [i2c_init]

    [i2c_init] configures the clocks, the two pins and the peripheral by
    reading and writing whole registers.  Each register it names is a
    constructor of [reg]; a load is volatile and returns a value and a
    new hardware state.  The masks, pin numbers and clock constants come
    from headers that are not part of the sources: they are the fields of
    [I2C_Config], taken to be non-negative [int] or [uint32_t] constants
    that fit their register. *)

Inductive reg : Type :=
| RCC_APB2PCENR
| RCC_APB1PCENR
| RCC_APB1PRSTR
| I2C_PORT_CFGLR
| I2C1_CTLR2
| I2C1_CKCFGR
| I2C1_CTLR1.

Global Instance reg_eq_dec : EqDecision reg.
Proof. solve_decision. Defined.

Class I2C_Config : Type := {
  I2C_PORT_RCC : Z;
  RCC_APB2Periph_AFIO : Z;
  RCC_APB1Periph_I2C1 : Z;
  I2C_PIN_SDA : Z;
  I2C_PIN_SCL : Z;
  GPIO_Speed_10MHz : Z;
  GPIO_CNF_OUT_OD_AF : Z;
  I2C_CTLR2_FREQ : Z;
  FUNCONF_SYSTEM_CORE_CLOCK : Z;
  I2C_PRERATE : Z;
  I2C_CKCFGR_CCR : Z;
  I2C_CKCFGR_FS : Z;
  I2C_CTLR1_PE : Z
}.

Class Registers (HW : Type) : Type := {
  (** [... = r], a volatile read *)
  hw_load : reg -> HW -> Z * HW;
  (** [r = v] *)
  hw_store : reg -> Z -> HW -> HW
}.

(** One entry per register access, in program order. *)
Inductive access : Type :=
| Load (r : reg) (v : Z)
| Store (r : reg) (v : Z).

(** The values stored to register [r], in order. *)
Definition stored (r : reg) (l : list access) : list Z :=
  flat_map (fun a => match a with
                     | Store r' v => if decide (r' = r) then [v] else []
                     | Load _ _ => []
                     end) l.

(** The registers stored to, in order. *)
Definition store_order (l : list access) : list reg :=
  flat_map (fun a => match a with
                     | Store r _ => [r]
                     | Load _ _ => []
                     end) l.

(** Conversion to [uint32_t] and to [uint16_t]. *)
Definition u32 (x : Z) : Z := x mod 2 ^ 32.
Definition u16 (x : Z) : Z := x mod 2 ^ 16.

Section InitMonad.
Context {HW : Type} `{!Registers HW} `{!I2C_Config}.

Record machine : Type := mkMachine { regs : HW; accesses : list access }.

(** The state [i2c_init] starts from: hardware [h], nothing accessed. *)
Definition power_on (h : HW) : machine := mkMachine h [].

(** [i2c_init] returns, or divides by zero (undefined behaviour in C). *)
Inductive result (A : Type) : Type :=
| Done (a : A) (m : machine)
| DivByZero (m : machine).
Global Arguments Done {A} a m.
Global Arguments DivByZero {A} m.

Definition Setup (A : Type) : Type := machine -> result A.

Definition done {A} (a : A) : Setup A := fun m => Done a m.

Definition and_then {A B} (c : Setup A) (k : A -> Setup B) : Setup B :=
  fun m =>
    match c m with
    | Done a m' => k a m'
    | DivByZero m' => DivByZero m'
    end.
End InitMonad.

Global Arguments machine HW : clear implicits.
Global Arguments result HW A : clear implicits.
Global Arguments Setup HW A : clear implicits.

Declare Scope init_scope.
Delimit Scope init_scope with init.
Notation "'let*' x ':=' m 'in' k" := (and_then m (fun x => k))
  (at level 10, x name, m at level 100, k at level 200) : init_scope.

Section InitStatements.
Context {HW : Type} `{!Registers HW} `{!I2C_Config}.
Local Open Scope init_scope.

Definition load (r : reg) : Setup HW Z :=
  fun m => let (v, h) := hw_load r (regs m) in
           Done v (mkMachine h (accesses m ++ [Load r v])).

Definition store (r : reg) (v : Z) : Setup HW unit :=
  fun m => Done tt (mkMachine (hw_store r v (regs m))
                      (accesses m ++ [Store r v])).

(** [r |= mask;] *)
Definition reg_or (r : reg) (mask : Z) : Setup HW unit :=
  let* x := load r in store r (Z.lor x mask).

(** [r &= ~mask;] *)
Definition reg_andnot (r : reg) (mask : Z) : Setup HW unit :=
  let* x := load r in store r (Z.land x (Z.lnot mask)).

(** [a / b] on unsigned operands. *)
Definition udiv (a b : Z) : Setup HW Z :=
  if b =? 0 then (fun m => DivByZero m) else done (a / b).

Definition i2c_init (clk_rate : Z) : Setup HW i2c_err_t :=
  let* _ := reg_or RCC_APB2PCENR (Z.lor I2C_PORT_RCC RCC_APB2Periph_AFIO) in
  let* _ := reg_or RCC_APB1PCENR RCC_APB1Periph_I2C1 in
  let* _ := reg_andnot I2C_PORT_CFGLR (Z.shiftl 0x0F (4 * I2C_PIN_SDA)) in
  let* _ := reg_or I2C_PORT_CFGLR
              (Z.shiftl (Z.lor GPIO_Speed_10MHz GPIO_CNF_OUT_OD_AF)
                 (4 * I2C_PIN_SDA)) in
  let* _ := reg_andnot I2C_PORT_CFGLR (Z.shiftl 0x0F (4 * I2C_PIN_SCL)) in
  let* _ := reg_or I2C_PORT_CFGLR
              (Z.shiftl (Z.lor GPIO_Speed_10MHz GPIO_CNF_OUT_OD_AF)
                 (4 * I2C_PIN_SCL)) in
  let* _ := reg_or RCC_APB1PRSTR RCC_APB1Periph_I2C1 in
  let* _ := reg_andnot RCC_APB1PRSTR RCC_APB1Periph_I2C1 in
  let* ctlr2 := load I2C1_CTLR2 in
  let i2c_conf := u16 (Z.land ctlr2 (Z.lnot I2C_CTLR2_FREQ)) in
  let* q := udiv FUNCONF_SYSTEM_CORE_CLOCK I2C_PRERATE in
  let i2c_conf := u16 (Z.lor i2c_conf (Z.land q I2C_CTLR2_FREQ)) in
  let* _ := store I2C1_CTLR2 i2c_conf in
  let* i2c_conf :=
    (if clk_rate <=? 100000 then
       let* q := udiv FUNCONF_SYSTEM_CORE_CLOCK (u32 (2 * clk_rate)) in
       done (u16 (Z.land q I2C_CKCFGR_CCR))
     else
       let* q := udiv FUNCONF_SYSTEM_CORE_CLOCK (u32 (3 * clk_rate)) in
       let i2c_conf := u16 (Z.land q I2C_CKCFGR_CCR) in
       done (u16 (Z.lor i2c_conf I2C_CKCFGR_FS))) in
  let* _ := store I2C1_CKCFGR i2c_conf in
  let* _ := reg_or I2C1_CTLR1 I2C_CTLR1_PE in
  done I2C_OK.
End InitStatements.

(** The machine a call of [i2c_init] ends in, whatever the outcome. *)
Definition machine_of {HW A} (o : result HW A) : machine HW :=
  match o with Done _ m | DivByZero m => m end.

Section InitShape.
Context `{!I2C_Config}.

(** The divisor of the clock configuration: [2*clk_rate] or
    [3*clk_rate], in [uint32_t]. *)
Definition clock_divisor (clk_rate : Z) : Z :=
  if clk_rate <=? 100000 then u32 (2 * clk_rate) else u32 (3 * clk_rate).

(** Clock enables, pin configuration, reset pulse and the read of
    [CTLR2]; [x n] is the value of the [n]-th load. *)
Definition setup_accesses (x : nat -> Z) : list access :=
  let cnf := Z.lor GPIO_Speed_10MHz GPIO_CNF_OUT_OD_AF in
  [Load RCC_APB2PCENR (x 0%nat);
   Store RCC_APB2PCENR
     (Z.lor (x 0%nat) (Z.lor I2C_PORT_RCC RCC_APB2Periph_AFIO));
   Load RCC_APB1PCENR (x 1%nat);
   Store RCC_APB1PCENR (Z.lor (x 1%nat) RCC_APB1Periph_I2C1);
   Load I2C_PORT_CFGLR (x 2%nat);
   Store I2C_PORT_CFGLR
     (Z.land (x 2%nat) (Z.lnot (Z.shiftl 0x0F (4 * I2C_PIN_SDA))));
   Load I2C_PORT_CFGLR (x 3%nat);
   Store I2C_PORT_CFGLR (Z.lor (x 3%nat) (Z.shiftl cnf (4 * I2C_PIN_SDA)));
   Load I2C_PORT_CFGLR (x 4%nat);
   Store I2C_PORT_CFGLR
     (Z.land (x 4%nat) (Z.lnot (Z.shiftl 0x0F (4 * I2C_PIN_SCL))));
   Load I2C_PORT_CFGLR (x 5%nat);
   Store I2C_PORT_CFGLR (Z.lor (x 5%nat) (Z.shiftl cnf (4 * I2C_PIN_SCL)));
   Load RCC_APB1PRSTR (x 6%nat);
   Store RCC_APB1PRSTR (Z.lor (x 6%nat) RCC_APB1Periph_I2C1);
   Load RCC_APB1PRSTR (x 7%nat);
   Store RCC_APB1PRSTR (Z.land (x 7%nat) (Z.lnot RCC_APB1Periph_I2C1));
   Load I2C1_CTLR2 (x 8%nat)].

(** The value written to [CTLR2] when [ctlr2] was read from it. *)
Definition ctlr2_value (ctlr2 : Z) : Z :=
  u16 (Z.lor (u16 (Z.land ctlr2 (Z.lnot I2C_CTLR2_FREQ)))
         (Z.land (FUNCONF_SYSTEM_CORE_CLOCK / I2C_PRERATE) I2C_CTLR2_FREQ)).

(** The value written to [CKCFGR]. *)
Definition ckcfgr_value (clk_rate : Z) : Z :=
  let ccr :=
    u16 (Z.land (FUNCONF_SYSTEM_CORE_CLOCK / clock_divisor clk_rate)
           I2C_CKCFGR_CCR) in
  if clk_rate <=? 100000 then ccr else u16 (Z.lor ccr I2C_CKCFGR_FS).

(** The accesses that configure the clock and enable the peripheral. *)
Definition enable_accesses (x : nat -> Z) (clk_rate : Z) : list access :=
  [Store I2C1_CKCFGR (ckcfgr_value clk_rate);
   Load I2C1_CTLR1 (x 9%nat);
   Store I2C1_CTLR1 (Z.lor (x 9%nat) I2C_CTLR1_PE)].

(** Every way [i2c_init] ends, with the accesses it has made. *)
Inductive init_shape (clk_rate : Z)
  : option i2c_err_t -> list access -> Prop :=
| init_prerate_zero x :
    I2C_PRERATE = 0 ->
    init_shape clk_rate None (setup_accesses x)
| init_divisor_zero x :
    I2C_PRERATE <> 0 -> clock_divisor clk_rate = 0 ->
    init_shape clk_rate None
      (setup_accesses x ++ [Store I2C1_CTLR2 (ctlr2_value (x 8%nat))])
| init_done x :
    I2C_PRERATE <> 0 -> clock_divisor clk_rate <> 0 ->
    init_shape clk_rate (Some I2C_OK)
      (setup_accesses x ++ [Store I2C1_CTLR2 (ctlr2_value (x 8%nat))]
       ++ enable_accesses x clk_rate).
End InitShape.

(** What a call returned, if it did. *)
Definition returned {HW A} (o : result HW A) : option A :=
  match o with Done a _ => Some a | DivByZero _ => None end.

(** Registers that hold what was last stored, and nothing else. *)
Definition regfile : Type := reg -> Z.

Definition regfile_registers : Registers regfile := {|
  hw_load r h := (h r, h);
  hw_store r v h := fun r' => if decide (r' = r) then v else h r'
|}.

(** A configuration to run [i2c_init] on: a 48 MHz core clock, SDA on
    pin 1 and SCL on pin 2 as in the header comment of [lib_i2c.c], and
    the register masks of a CH32V003. *)
Definition ch32v003_config : I2C_Config := {|
  I2C_PORT_RCC := 0x10;
  RCC_APB2Periph_AFIO := 0x01;
  RCC_APB1Periph_I2C1 := 0x200000;
  I2C_PIN_SDA := 1;
  I2C_PIN_SCL := 2;
  GPIO_Speed_10MHz := 1;
  GPIO_CNF_OUT_OD_AF := 0x0C;
  I2C_CTLR2_FREQ := 0x3F;
  FUNCONF_SYSTEM_CORE_CLOCK := 48000000;
  I2C_PRERATE := 1000000;
  I2C_CKCFGR_CCR := 0x0FFF;
  I2C_CKCFGR_FS := 0x8000;
  I2C_CTLR1_PE := 0x0001
|}.

(** Calls of [i2c_init] on registers that read as zero: fast mode,
    standard mode, and a rate of zero. *)
Abbreviation init_fast :=
  (@i2c_init regfile regfile_registers ch32v003_config 400000
     (power_on (fun _ => 0))) (only parsing).
Abbreviation init_standard :=
  (@i2c_init regfile regfile_registers ch32v003_config 100000
     (power_on (fun _ => 0))) (only parsing).

(** * Properties *)

Section Logic.
Context {HW : Type} `{!I2C_Peripheral HW}.
Implicit Types (s : state HW) (tr : list action).

Lemma runs_ret {A} (a : A) s (P : verdict A -> list action -> Prop) :
  P (Returned a) [] -> runs (ret a) s P.
Proof. intros HP. exists []. cbn. rewrite app_nil_r. auto. Qed.

Lemma runs_hang {A} s (P : verdict A -> list action -> Prop) :
  P Hung [] -> runs hang s P.
Proof. intros HP. exists []. cbn. rewrite app_nil_r. auto. Qed.

Lemma runs_undef {A} s (P : verdict A -> list action -> Prop) :
  P Faulted [] -> runs undef s P.
Proof. intros HP. exists []. cbn. rewrite app_nil_r. auto. Qed.

Lemma runs_weaken {A} (m : M HW A) s (P Q : verdict A -> list action -> Prop) :
  runs m s P -> (forall v tr, P v tr -> Q v tr) -> runs m s Q.
Proof. intros (tr & Htr & HP) HPQ. exists tr. auto. Qed.

Lemma runs_bind {A B} (m : M HW A) (k : A -> M HW B) s
    (P : verdict A -> list action -> Prop)
    (Q : verdict B -> list action -> Prop) :
  runs m s P ->
  (forall a tr1 s1, P (Returned a) tr1 ->
     runs (k a) s1 (fun v tr2 => Q v (tr1 ++ tr2))) ->
  (forall tr1, P Hung tr1 -> Q Hung tr1) ->
  (forall tr1, P Faulted tr1 -> Q Faulted tr1) ->
  runs (bind m k) s Q.
Proof.
  intros (tr1 & Htr & HP) Hk Hh Hf. unfold runs, bind.
  destruct (m s) as [a s1|s1|s1]; cbn in *.
  - destruct (Hk a tr1 s1 HP) as (tr2 & Htr2 & HQ).
    exists (tr1 ++ tr2). rewrite Htr2, Htr, app_assoc. auto.
  - exists tr1. auto.
  - exists tr1. auto.
Qed.

(** The register statements: each appends its one action. *)
Lemma runs_CTLR1_set b s (P : verdict unit -> list action -> Prop) :
  P (Returned tt) [SetBit b] -> runs (CTLR1_set b) s P.
Proof. intros HP. exists [SetBit b]. cbn. auto. Qed.

Lemma runs_DATAR_write d s (P : verdict unit -> list action -> Prop) :
  P (Returned tt) [Send d] -> runs (DATAR_write d) s P.
Proof. intros HP. exists [Send d]. cbn. auto. Qed.

Lemma runs_DATAR_read s (P : verdict Z -> list action -> Prop) :
  (forall d, P (Returned d) [Recv d]) -> runs DATAR_read s P.
Proof.
  intros HP. unfold runs, DATAR_read.
  destruct (hw_datar_read (hw s)) as [d h]. exists [Recv d]. cbn. auto.
Qed.

(** ** The wait loops *)

Lemma wait_bus_idle_runs n t s :
  (Z.to_nat t <= n)%nat ->
  runs (wait_bus_idle n t) s (idle_shape (Z.to_nat t)).
Proof.
  revert t s. induction n as [|n IH]; intros t s Hn.
  all: unfold runs; cbn [wait_bus_idle]; unfold bind, STAR2_busy; cbn beta.
  all: destruct (hw_busy (hw s)) as [[] h] eqn:Hb.
  all: try (exists [Busy false]; cbn; split;
            [reflexivity | exists 0%nat; split; [lia | reflexivity]]).
  - destruct (t - 1 <? 0) eqn:Ht; [|lia].
    exists [Busy true]. cbn. split; [reflexivity|].
    replace (Z.to_nat t) with 0%nat by lia. cbn. reflexivity.
  - destruct (t - 1 <? 0) eqn:Ht.
    + exists [Busy true]. cbn. split; [reflexivity|].
      replace (Z.to_nat t) with 0%nat by lia. cbn. reflexivity.
    + destruct (IH (t - 1) (mkState h (trace s ++ [Busy true])))
        as (tr & Htr & Hsh); [lia|].
      exists (Busy true :: tr). split.
      * rewrite Htr. cbn. rewrite <- app_assoc. reflexivity.
      * replace (Z.to_nat t) with (S (Z.to_nat (t - 1))) by lia.
        destruct (verdict_of _) as [[]| |]; cbn in *; try contradiction.
        -- destruct Hsh as (k & Hk & ->). exists (S k). split; [lia|reflexivity].
        -- rewrite Hsh. reflexivity.
Qed.

Lemma wait_status_timeout_runs n e t s :
  (Z.to_nat t <= n)%nat ->
  runs (wait_status_timeout n e t) s (timed_shape (Z.to_nat t) e).
Proof.
  revert t s. induction n as [|n IH]; intros t s Hn.
  all: unfold runs; cbn [wait_status_timeout]; unfold bind, i2c_status; cbn beta.
  all: destruct (hw_status e (hw s)) as [[] h] eqn:Hb; cbn [negb].
  all: try (exists [Status e true]; cbn; split;
            [reflexivity | exists 0%nat; split; [lia | reflexivity]]).
  - destruct (t - 1 <? 0) eqn:Ht; [|lia].
    exists [Status e false]. cbn. split; [reflexivity|].
    replace (Z.to_nat t) with 0%nat by lia. cbn. reflexivity.
  - destruct (t - 1 <? 0) eqn:Ht.
    + exists [Status e false]. cbn. split; [reflexivity|].
      replace (Z.to_nat t) with 0%nat by lia. cbn. reflexivity.
    + destruct (IH (t - 1) (mkState h (trace s ++ [Status e false])))
        as (tr & Htr & Hsh); [lia|].
      exists (Status e false :: tr). split.
      * rewrite Htr. cbn. rewrite <- app_assoc. reflexivity.
      * replace (Z.to_nat t) with (S (Z.to_nat (t - 1))) by lia.
        destruct (verdict_of _) as [[]| |]; cbn in *; try contradiction.
        -- destruct Hsh as (k & Hk & ->). exists (S k). split; [lia|reflexivity].
        -- rewrite Hsh. reflexivity.
Qed.

Lemma wait_status_runs fuel e s :
  runs (wait_status fuel e) s (await_shape fuel e).
Proof.
  revert s. induction fuel as [|fuel IH]; intros s.
  { apply runs_hang. reflexivity. }
  unfold runs; cbn [wait_status]; unfold bind, i2c_status; cbn beta.
  destruct (hw_status e (hw s)) as [[] h] eqn:Hb; cbn [negb].
  - exists [Status e true]. cbn. split; [reflexivity|].
    exists 0%nat. split; [lia|reflexivity].
  - destruct (IH (mkState h (trace s ++ [Status e false])))
      as (tr & Htr & Hsh).
    exists (Status e false :: tr). split.
    + rewrite Htr. cbn. rewrite <- app_assoc. reflexivity.
    + destruct (verdict_of _) as [[]| |]; cbn in *; try contradiction.
      * destruct Hsh as (k & Hk & ->). exists (S k). split; [lia|reflexivity].
      * rewrite Hsh. reflexivity.
Qed.

Lemma wait_star1_runs fuel f s :
  runs (wait_star1 fuel f) s (ready_shape fuel f).
Proof.
  revert s. induction fuel as [|fuel IH]; intros s.
  { apply runs_hang. reflexivity. }
  unfold runs; cbn [wait_star1]; unfold bind, STAR1_test; cbn beta.
  destruct (hw_star1 f (hw s)) as [[] h] eqn:Hb; cbn [negb].
  - exists [Star1 f true]. cbn. split; [reflexivity|].
    exists 0%nat. split; [lia|reflexivity].
  - destruct (IH (mkState h (trace s ++ [Star1 f false])))
      as (tr & Htr & Hsh).
    exists (Star1 f false :: tr). split.
    + rewrite Htr. cbn. rewrite <- app_assoc. reflexivity.
    + destruct (verdict_of _) as [[]| |]; cbn in *; try contradiction.
      * destruct Hsh as (k & Hk & ->). exists (S k). split; [lia|reflexivity].
      * rewrite Hsh. reflexivity.
Qed.

(** Sequencing after a statement that cannot fail. *)
Lemma runs_seq_set {B} b (k : unit -> M HW B) s
    (Q : verdict B -> list action -> Prop) :
  (forall s1, runs (k tt) s1 (fun v tr => Q v ([SetBit b] ++ tr))) ->
  runs (bind (CTLR1_set b) k) s Q.
Proof.
  intros Hk.
  eapply runs_bind
    with (P := fun v tr => v = Returned tt /\ tr = [SetBit b]).
  - apply runs_CTLR1_set. auto.
  - intros [] tr1 s1 [_ ->]. apply Hk.
  - intros tr1 [Hv _]. discriminate.
  - intros tr1 [Hv _]. discriminate.
Qed.

Lemma runs_seq_send {B} d (k : unit -> M HW B) s
    (Q : verdict B -> list action -> Prop) :
  (forall s1, runs (k tt) s1 (fun v tr => Q v ([Send d] ++ tr))) ->
  runs (bind (DATAR_write d) k) s Q.
Proof.
  intros Hk.
  eapply runs_bind
    with (P := fun v tr => v = Returned tt /\ tr = [Send d]).
  - apply runs_DATAR_write. auto.
  - intros [] tr1 s1 [_ ->]. apply Hk.
  - intros tr1 [Hv _]. discriminate.
  - intros tr1 [Hv _]. discriminate.
Qed.

Lemma runs_seq_recv {B} (k : Z -> M HW B) s
    (Q : verdict B -> list action -> Prop) :
  (forall d s1, runs (k d) s1 (fun v tr => Q v ([Recv d] ++ tr))) ->
  runs (bind DATAR_read k) s Q.
Proof.
  intros Hk.
  eapply runs_bind
    with (P := fun v tr => exists d, v = Returned d /\ tr = [Recv d]).
  - apply runs_DATAR_read. eauto.
  - intros d tr1 s1 (d' & [= <-] & ->). apply Hk.
  - intros tr1 (d & Hv & _). discriminate.
  - intros tr1 (d & Hv & _). discriminate.
Qed.

Lemma runs_seq_ret {A B} (a : A) (k : A -> M HW B) s
    (Q : verdict B -> list action -> Prop) :
  runs (k a) s Q -> runs (bind (ret a) k) s Q.
Proof. intros Hk. exact Hk. Qed.

(** Sequencing after the two waits without a counter. *)
Lemma runs_seq_wait_status {B} fuel e (k : unit -> M HW B) s
    (Q : verdict B -> list action -> Prop) :
  Q Hung (repeat (Status e false) fuel) ->
  (forall j s1, (j < fuel)%nat ->
     runs (k tt) s1 (fun v tr => Q v (await e j ++ tr))) ->
  runs (bind (wait_status fuel e) k) s Q.
Proof.
  intros Hh Hk. eapply runs_bind; [apply wait_status_runs| | |].
  - intros [] tr1 s1 (j & Hj & ->). apply Hk, Hj.
  - intros tr1 ->. exact Hh.
  - intros tr1 [].
Qed.

Lemma runs_seq_wait_star1 {B} fuel f (k : unit -> M HW B) s
    (Q : verdict B -> list action -> Prop) :
  Q Hung (repeat (Star1 f false) fuel) ->
  (forall j s1, (j < fuel)%nat ->
     runs (k tt) s1 (fun v tr => Q v (ready f j ++ tr))) ->
  runs (bind (wait_star1 fuel f) k) s Q.
Proof.
  intros Hh Hk. eapply runs_bind; [apply wait_star1_runs| | |].
  - intros [] tr1 s1 (j & Hj & ->). apply Hk, Hj.
  - intros tr1 ->. exact Hh.
  - intros tr1 [].
Qed.

(** ** The common opening *)

Lemma runs_opening {A} fuel addr (tmo : A) (k : bool -> M HW A) s
    (Q : verdict A -> list action -> Prop) :
  let T := Z.to_nat I2C_TIMEOUT in
  (forall tr, opening_shape T fuel addr OpTimeout tr -> Q (Returned tmo) tr) ->
  (forall tr, opening_shape T fuel addr OpHang tr -> Q Hung tr) ->
  (forall (acked : bool) tr s1,
     opening_shape T fuel addr (if acked then OpAck else OpNack) tr ->
     runs (k acked) s1 (fun v tr2 => Q v (tr ++ tr2))) ->
  runs (opening fuel addr tmo k) s Q.
Proof.
  intros T Ht Hh Hk. unfold opening.
  eapply runs_bind;
    [apply wait_bus_idle_runs; lia| |intros ? []|intros ? []].
  intros [] tr1 s1 Hidle; cbn [negb idle_shape] in *.
  2: { apply runs_ret. rewrite app_nil_r. apply Ht.
       rewrite Hidle. constructor. }
  destruct Hidle as (k0 & Hk0 & ->).
  apply runs_seq_set. intros s2. cbn beta.
  apply runs_seq_wait_status.
  { apply Hh. constructor. exact Hk0. }
  intros j s3 Hj. cbn beta.
  apply runs_seq_send. intros s4. cbn beta.
  eapply runs_bind;
    [apply wait_status_timeout_runs; lia| |intros ? []|intros ? []].
  intros acked tr3 s5 Hack. cbn beta.
  eapply runs_weaken.
  - apply Hk with
      (tr := idle k0 ++ [SetBit I2C_CTLR1_START]
             ++ await I2C_EVENT_MASTER_MODE_SELECT j
             ++ [Send (Z.land addr 0xFE)] ++ tr3).
    destruct acked; cbn [timed_shape] in Hack.
    + destruct Hack as (i & Hi & ->). constructor; assumption.
    + rewrite Hack. constructor; assumption.
  - intros v tr HQ. cbn beta in HQ.
    rewrite <- !app_assoc in HQ. exact HQ.
Qed.

(** ** [i2c_ping] *)

Lemma i2c_ping_opening fuel addr :
  i2c_ping fuel addr
  = opening fuel addr I2C_ERR_TIMEOUT
      (fun acked =>
         let* _ := CTLR1_set I2C_CTLR1_STOP in
         ret (if acked then I2C_OK else I2C_ERR_NACK)).
Proof. reflexivity. Qed.

Lemma i2c_ping_runs fuel addr s :
  runs (i2c_ping fuel addr) s
    (ping_shape (Z.to_nat I2C_TIMEOUT) fuel addr).
Proof.
  rewrite i2c_ping_opening.
  apply runs_opening.
  - intros tr Htr. constructor. exact Htr.
  - intros tr Htr. constructor. exact Htr.
  - intros acked tr s1 Htr.
    apply runs_seq_set. intros s2. apply runs_ret. rewrite app_nil_r.
    destruct acked; constructor; exact Htr.
Qed.

(** ** The receive loop *)

Lemma filled_nil (buf : list Z) c : filled buf c [] = buf.
Proof.
  unfold filled. cbn [app length]. rewrite Nat.add_0_r. apply take_drop.
Qed.

Lemma filled_0 (buf : list Z) bs :
  filled buf 0 bs = bs ++ drop (length bs) buf.
Proof. unfold filled. rewrite take_0. reflexivity. Qed.

Lemma filled_insert (buf : list Z) c v bs :
  (c < length buf)%nat ->
  filled (<[c := v]> buf) (S c) bs = filled buf c (v :: bs).
Proof.
  intros Hc. unfold filled.
  rewrite (take_S_r _ c v) by (apply list_lookup_insert_eq; exact Hc).
  rewrite take_insert_ge by lia.
  rewrite drop_insert_lt by lia.
  rewrite <- app_assoc. cbn [app length].
  replace (S c + length bs)%nat with (c + S (length bs))%nat by lia.
  reflexivity.
Qed.

Lemma read_bytes_shape_step fuel len c (buf : list Z) k d v tr :
  (c < len)%nat -> (c < length buf)%nat ->
  read_bytes_shape fuel len (S c) (<[c := d mod 256]> buf) v tr ->
  read_bytes_shape fuel len c buf v
    (ready I2C_STAR1_RXNE k ++ [Recv d] ++ tr).
Proof.
  intros Hc Hb Hsh.
  inversion Hsh as [l H1 H2|l H1|l k' d' H1 H2]; subst.
  - rewrite filled_insert by exact Hb.
    change (read_bytes_shape fuel len c buf
              (Returned (filled buf c
                 (map (fun kd => snd kd mod 256) ((k, d) :: l))))
              (ready I2C_STAR1_RXNE k ++ [Recv d] ++ rx_trace l)).
    replace (ready I2C_STAR1_RXNE k ++ [Recv d] ++ rx_trace l)
      with (rx_trace ((k, d) :: l))
      by (unfold rx_trace; cbn [flat_map fst snd];
          rewrite <- app_assoc; reflexivity).
    rewrite length_insert in H2.
    apply read_bytes_done; cbn [length]; lia.
  - replace (ready I2C_STAR1_RXNE k ++ [Recv d] ++ rx_trace l
               ++ repeat (Star1 I2C_STAR1_RXNE false) fuel)
      with (rx_trace ((k, d) :: l)
              ++ repeat (Star1 I2C_STAR1_RXNE false) fuel)
      by (unfold rx_trace; cbn [flat_map fst snd];
          rewrite <- !app_assoc; reflexivity).
    apply read_bytes_hang; cbn [length]; lia.
  - replace (ready I2C_STAR1_RXNE k ++ [Recv d] ++ rx_trace l
               ++ ready I2C_STAR1_RXNE k' ++ [Recv d'])
      with (rx_trace ((k, d) :: l) ++ ready I2C_STAR1_RXNE k' ++ [Recv d'])
      by (unfold rx_trace; cbn [flat_map fst snd];
          rewrite <- !app_assoc; reflexivity).
    rewrite length_insert in H2.
    apply read_bytes_fault; cbn [length]; lia.
Qed.

Lemma read_bytes_runs n fuel len c buf s :
  0 <= c -> len <= 255 ->
  (Z.to_nat len - Z.to_nat c <= n)%nat ->
  runs (read_bytes n fuel len c buf) s
    (read_bytes_shape fuel (Z.to_nat len) (Z.to_nat c) buf).
Proof.
  revert c buf s. induction n as [|n IH]; intros c buf s Hc Hlen Hn.
  all: cbn [read_bytes]; destruct (c <? len) eqn:Hlt.
  all: try (apply runs_ret; rewrite <- (filled_nil buf (Z.to_nat c)) at 2;
            apply (read_bytes_done _ _ _ _ []); cbn [length]; lia).
  { lia. }
  replace (c =? len) with false by lia.
  apply runs_seq_ret.
  apply runs_seq_wait_star1.
  { apply (read_bytes_hang _ _ _ _ []). cbn [length]. lia. }
  intros k s1 Hk. cbn beta.
  apply runs_seq_recv. intros d s2. cbn beta.
  unfold buf_store. destruct (decide _) as [Hin|Hout].
  - apply runs_seq_ret.
    replace ((c + 1) mod 256) with (c + 1) by (rewrite Z.mod_small; lia).
    eapply runs_weaken; [apply IH; lia|].
    intros v tr Hsh. cbn beta.
    apply read_bytes_shape_step; [lia|lia|].
    replace (S (Z.to_nat c)) with (Z.to_nat (c + 1)) by lia. exact Hsh.
  - unfold bind at 1. apply runs_undef. rewrite app_nil_r.
    apply (read_bytes_fault _ _ _ _ [] k d); cbn [length]; lia.
Qed.

(** ** The transmit loop *)

Lemma write_bytes_shape_step fuel len c (buf : list Z) k b v tr :
  (c < len)%nat -> buf !! c = Some b ->
  write_bytes_shape fuel len (S c) buf v tr ->
  write_bytes_shape fuel len c buf v
    (ready I2C_STAR1_TXE k ++ [Send b] ++ tr).
Proof.
  intros Hc Hb Hsh.
  inversion Hsh as [l H1 H2|l H1 H2|l k' H1 H2]; subst.
  - replace (ready I2C_STAR1_TXE k ++ [Send b] ++ tx_trace l)
      with (tx_trace ((k, b) :: l))
      by (unfold tx_trace; cbn [flat_map fst snd];
          rewrite <- app_assoc; reflexivity).
    apply write_bytes_done; cbn [length map snd]; [lia|].
    rewrite (drop_S _ _ _ Hb). cbn [take]. rewrite H2. reflexivity.
  - replace (ready I2C_STAR1_TXE k ++ [Send b] ++ tx_trace l
               ++ repeat (Star1 I2C_STAR1_TXE false) fuel)
      with (tx_trace ((k, b) :: l)
              ++ repeat (Star1 I2C_STAR1_TXE false) fuel)
      by (unfold tx_trace; cbn [flat_map fst snd];
          rewrite <- !app_assoc; reflexivity).
    apply write_bytes_hang; cbn [length map snd]; [lia|].
    rewrite (drop_S _ _ _ Hb). cbn [take]. rewrite H2. reflexivity.
  - replace (ready I2C_STAR1_TXE k ++ [Send b] ++ tx_trace l
               ++ ready I2C_STAR1_TXE k')
      with (tx_trace ((k, b) :: l) ++ ready I2C_STAR1_TXE k')
      by (unfold tx_trace; cbn [flat_map fst snd];
          rewrite <- !app_assoc; reflexivity).
    apply write_bytes_fault; cbn [length map snd]; [lia|].
    rewrite (drop_S _ _ _ Hb). rewrite H2. reflexivity.
Qed.

Lemma write_bytes_runs n fuel len c buf s :
  0 <= c -> len <= 255 ->
  (Z.to_nat len - Z.to_nat c <= n)%nat ->
  runs (write_bytes n fuel len c buf) s
    (write_bytes_shape fuel (Z.to_nat len) (Z.to_nat c) buf).
Proof.
  revert c s. induction n as [|n IH]; intros c s Hc Hlen Hn.
  all: cbn [write_bytes]; destruct (c <? len) eqn:Hlt.
  all: try (apply runs_ret;
            apply (write_bytes_done _ _ _ _ []); cbn [length]; [lia|reflexivity]).
  { lia. }
  apply runs_seq_wait_star1.
  { apply (write_bytes_hang _ _ _ _ []); cbn [length]; [lia|reflexivity]. }
  intros k s1 Hk. cbn beta.
  unfold buf_load. destruct (decide (0 <= c)) as [_|]; [|lia].
  destruct (buf !! Z.to_nat c) as [b|] eqn:Hb.
  - apply runs_seq_ret. apply runs_seq_send. intros s2. cbn beta.
    replace ((c + 1) mod 256) with (c + 1) by (rewrite Z.mod_small; lia).
    eapply runs_weaken; [apply IH; lia|].
    intros v tr Hsh. cbn beta.
    apply write_bytes_shape_step; [lia|exact Hb|].
    replace (S (Z.to_nat c)) with (Z.to_nat (c + 1)) by lia. exact Hsh.
  - unfold bind at 1. apply runs_undef. rewrite app_nil_r.
    apply (write_bytes_fault _ _ _ _ [] k); cbn [length map]; [lia|].
    symmetry. apply drop_ge. apply lookup_ge_None. exact Hb.
Qed.

(** ** [i2c_read] *)

Lemma runs_seq_ack_mode {B} len (k : unit -> M HW B) s
    (Q : verdict B -> list action -> Prop) :
  (forall s1, runs (k tt) s1 (fun v tr => Q v (ack_mode len ++ tr))) ->
  runs (bind (if 1 <? len then CTLR1_set I2C_CTLR1_ACK else ret tt) k) s Q.
Proof.
  unfold ack_mode. intros Hk. destruct (1 <? len).
  - apply runs_seq_set. exact Hk.
  - apply runs_seq_ret. apply Hk.
Qed.

Lemma i2c_read_opening fuel addr reg buf len :
  i2c_read fuel addr reg buf len
  = opening fuel addr (I2C_ERR_TIMEOUT, buf)
      (fun acked =>
         if negb acked then ret (I2C_ERR_NACK, buf) else
         let* _ := DATAR_write reg in
         let* _ := wait_star1 fuel I2C_STAR1_TXE in
         let* _ := (if 1 <? len then CTLR1_set I2C_CTLR1_ACK else ret tt) in
         let* _ := CTLR1_set I2C_CTLR1_START in
         let* _ := wait_status fuel I2C_EVENT_MASTER_MODE_SELECT in
         let* _ := DATAR_write (Z.lor addr 0x01) in
         let* acked := wait_status_timeout (Z.to_nat I2C_TIMEOUT)
                         I2C_EVENT_MASTER_RECEIVER_MODE_SELECTED
                         I2C_TIMEOUT in
         if negb acked then ret (I2C_ERR_NACK, buf) else
         let* buf := read_bytes (Z.to_nat len) fuel len 0 buf in
         let* _ := CTLR1_set I2C_CTLR1_STOP in
         ret (I2C_OK, buf)).
Proof. reflexivity. Qed.

Lemma i2c_read_runs fuel addr reg buf len s :
  len <= 255 ->
  runs (i2c_read fuel addr reg buf len) s
    (read_shape (Z.to_nat I2C_TIMEOUT) fuel addr reg buf len).
Proof.
  intros Hlen.
  rewrite i2c_read_opening.
  apply runs_opening.
  - intros tr Htr. apply read_timeout, Htr.
  - intros tr Htr. apply read_hang, Htr.
  - intros [] pre s1 Hpre; cbn [negb].
    2: { apply runs_ret. rewrite app_nil_r. apply read_nack, Hpre. }
    apply runs_seq_send. intros s2. cbn beta.
    apply runs_seq_wait_star1.
    { eapply read_acked; [exact Hpre|]. apply read_hang_txe. }
    intros k s3 Hk. cbn beta.
    apply runs_seq_ack_mode. intros s4. cbn beta.
    apply runs_seq_set. intros s5. cbn beta.
    apply runs_seq_wait_status.
    { eapply read_acked; [exact Hpre|]. apply read_hang_restart, Hk. }
    intros j s6 Hj. cbn beta.
    apply runs_seq_send. intros s7. cbn beta.
    eapply runs_bind;
      [apply wait_status_timeout_runs; lia| |intros ? []|intros ? []].
    intros [] tr1 s8 Hack; cbn [negb timed_shape] in *.
    2: { apply runs_ret. rewrite app_nil_r, Hack.
         eapply read_acked; [exact Hpre|]. apply read_nack_rx; assumption. }
    destruct Hack as (i & Hi & ->).
    eapply runs_bind; [apply read_bytes_runs; lia| | |].
    + intros buf' tr2 s9 Hsh. change (Z.to_nat 0) with 0%nat in Hsh.
      apply runs_seq_set. intros s10. apply runs_ret. rewrite app_nil_r.
      inversion Hsh as [l H1 H2| |]; subst.
      eapply read_acked; [exact Hpre|]. apply read_ok; try assumption; lia.
    + intros tr2 Hsh. change (Z.to_nat 0) with 0%nat in Hsh.
      inversion Hsh as [|l H1|]; subst.
      eapply read_acked; [exact Hpre|].
      apply read_hang_rx; try assumption; lia.
    + intros tr2 Hsh. change (Z.to_nat 0) with 0%nat in Hsh.
      inversion Hsh as [| |l k' d H1 H2]; subst.
      eapply read_acked; [exact Hpre|].
      apply read_fault; try assumption; lia.
Qed.

(** ** [i2c_write] *)

Lemma i2c_write_opening fuel addr reg buf len :
  i2c_write fuel addr reg buf len
  = opening fuel addr I2C_ERR_TIMEOUT
      (fun acked =>
         if negb acked then ret I2C_ERR_NACK else
         let* _ := DATAR_write reg in
         let* _ := wait_star1 fuel I2C_STAR1_TXE in
         let* _ := write_bytes (Z.to_nat len) fuel len 0 buf in
         let* _ := wait_status fuel I2C_EVENT_MASTER_BYTE_TRANSMITTED in
         let* _ := CTLR1_set I2C_CTLR1_STOP in
         ret I2C_OK).
Proof. reflexivity. Qed.

Lemma i2c_write_runs fuel addr reg buf len s :
  len <= 255 ->
  runs (i2c_write fuel addr reg buf len) s
    (write_shape (Z.to_nat I2C_TIMEOUT) fuel addr reg buf len).
Proof.
  intros Hlen.
  rewrite i2c_write_opening.
  apply runs_opening.
  - intros tr Htr. apply write_timeout, Htr.
  - intros tr Htr. apply write_hang, Htr.
  - intros [] pre s1 Hpre; cbn [negb].
    2: { apply runs_ret. rewrite app_nil_r. apply write_nack, Hpre. }
    apply runs_seq_send. intros s2. cbn beta.
    apply runs_seq_wait_star1.
    { eapply write_acked; [exact Hpre|]. apply write_hang_txe. }
    intros k s3 Hk. cbn beta.
    eapply runs_bind; [apply write_bytes_runs; lia| | |].
    + intros [] tr2 s4 Hsh. change (Z.to_nat 0) with 0%nat in Hsh.
      inversion Hsh as [l H1 H2| |]; subst.
      cbn [drop Nat.max] in *.
      apply runs_seq_wait_status.
      { eapply write_acked; [exact Hpre|].
        apply write_hang_btf; try assumption; lia. }
      intros j s5 Hj. cbn beta.
      apply runs_seq_set. intros s6. apply runs_ret. rewrite app_nil_r.
      eapply write_acked; [exact Hpre|].
      apply write_ok; try assumption; lia.
    + intros tr2 Hsh. change (Z.to_nat 0) with 0%nat in Hsh.
      inversion Hsh as [|l H1 H2|]; subst. cbn [drop] in *.
      eapply write_acked; [exact Hpre|].
      apply write_hang_tx; try assumption; lia.
    + intros tr2 Hsh. change (Z.to_nat 0) with 0%nat in Hsh.
      inversion Hsh as [| |l k' H1 H2]; subst. cbn [drop] in *.
      eapply write_acked; [exact Hpre|].
      apply write_fault; try assumption; lia.
Qed.
End Logic.

(** ** Reading a log *)

Section Projections.
Context {X : Type} (f : action -> list X).

Lemma flat_map_repeat_nil a k : f a = [] -> flat_map f (repeat a k) = [].
Proof.
  intros Ha. induction k as [|k IH]; cbn; [reflexivity|].
  rewrite Ha, IH. reflexivity.
Qed.

Lemma flat_map_idle k :
  f (Busy true) = [] -> flat_map f (idle k) = f (Busy false).
Proof.
  intros Hf. unfold idle.
  rewrite flat_map_app, flat_map_repeat_nil by exact Hf.
  cbn. apply app_nil_r.
Qed.

Lemma flat_map_await e k :
  f (Status e false) = [] -> flat_map f (await e k) = f (Status e true).
Proof.
  intros Hf. unfold await.
  rewrite flat_map_app, flat_map_repeat_nil by exact Hf.
  cbn. apply app_nil_r.
Qed.

Lemma flat_map_ready b k :
  f (Star1 b false) = [] -> flat_map f (ready b k) = f (Star1 b true).
Proof.
  intros Hf. unfold ready.
  rewrite flat_map_app, flat_map_repeat_nil by exact Hf.
  cbn. apply app_nil_r.
Qed.

Lemma flat_map_rx_trace l :
  f (Star1 I2C_STAR1_RXNE false) = [] ->
  flat_map f (rx_trace l)
  = flat_map (fun kd => f (Star1 I2C_STAR1_RXNE true) ++ f (Recv (snd kd))) l.
Proof.
  intros Hf. unfold rx_trace.
  induction l as [|[k d] l IH]; cbn [flat_map fst snd]; [reflexivity|].
  rewrite !flat_map_app, flat_map_ready, IH by exact Hf.
  cbn. rewrite app_nil_r, <- app_assoc. reflexivity.
Qed.

Lemma flat_map_tx_trace l :
  f (Star1 I2C_STAR1_TXE false) = [] ->
  flat_map f (tx_trace l)
  = flat_map (fun kb => f (Star1 I2C_STAR1_TXE true) ++ f (Send (snd kb))) l.
Proof.
  intros Hf. unfold tx_trace.
  induction l as [|[k d] l IH]; cbn [flat_map fst snd]; [reflexivity|].
  rewrite !flat_map_app, flat_map_ready, IH by exact Hf.
  cbn. rewrite app_nil_r, <- app_assoc. reflexivity.
Qed.
End Projections.

Lemma flat_map_none {A B} (l : list A) : flat_map (fun _ => @nil B) l = [].
Proof. induction l; cbn; auto. Qed.

Lemma flat_map_one {A B} (g : A -> B) (l : list A) :
  flat_map (fun x => [g x]) l = map g l.
Proof. induction l as [|x l IH]; cbn; [|rewrite IH]; reflexivity. Qed.

Lemma length_keep_repeat p a k :
  p a = true -> length (keep p (repeat a k)) = k.
Proof.
  intros Hp. unfold keep. induction k as [|k IH]; cbn; [reflexivity|].
  rewrite Hp. cbn. rewrite IH. reflexivity.
Qed.

(** Normalise a projection of a log built from the shapes. *)
Ltac read_log :=
  unfold asserted, status_polls, busy_polls, progress, controls, keep,
    sends, received, ack_mode;
  repeat match goal with
         | |- context [1 <? ?len] => destruct (Z.ltb_spec 1 len)
         end;
  repeat first
    [ rewrite flat_map_app
    | rewrite flat_map_idle by reflexivity
    | rewrite flat_map_await by reflexivity
    | rewrite flat_map_ready by reflexivity
    | rewrite flat_map_repeat_nil by reflexivity
    | rewrite flat_map_rx_trace by reflexivity
    | rewrite flat_map_tx_trace by reflexivity
    | progress cbn [flat_map app stalled negb is_control is_status is_busy] ];
  rewrite ?app_nil_r.

(** ** Runs that are known to return *)

Section Verdicts.
Context {HW : Type} `{!I2C_Peripheral HW}.
Implicit Types (s : state HW) (tr : list action).

Lemma verdict_ret {A} (o : outcome HW A) a :
  verdict_of o = Returned a -> exists s', o = Ret a s'.
Proof. destruct o; cbn; intros [=]; subst; eauto. Qed.

Lemma verdict_bind {A B} (m : M HW A) (k : A -> M HW B) s a v :
  verdict_of (m s) = Returned a ->
  (forall s1, verdict_of (k a s1) = v) ->
  verdict_of (bind m k s) = v.
Proof.
  unfold bind. destruct (m s); cbn; intros [=] Hk; subst. apply Hk.
Qed.

(** At the start of a call the log is empty: what [runs] says of the
    appended actions holds of the whole log. *)
Lemma runs_init {A} (m : M HW A) h (P : verdict A -> list action -> Prop) :
  runs m (init h) P ->
  P (verdict_of (m (init h))) (trace (final (m (init h)))).
Proof. intros (tr & Htr & HP). cbn in Htr. rewrite Htr. exact HP. Qed.

Lemma runs_init_ret {A} (m : M HW A) h a s'
    (P : verdict A -> list action -> Prop) :
  runs m (init h) P -> m (init h) = Ret a s' -> P (Returned a) (trace s').
Proof. intros Hr Hm. apply runs_init in Hr. rewrite Hm in Hr. exact Hr. Qed.

Lemma wait_bus_idle_stuck m t s :
  (forall x, fst (hw_busy x) = true) ->
  (Z.to_nat t <= m)%nat ->
  verdict_of (wait_bus_idle m t s) = Returned false.
Proof.
  intros Hbusy. revert t s. induction m as [|m IH]; intros t s Hm.
  all: cbn [wait_bus_idle]; unfold bind, STAR2_busy; cbn beta.
  all: pose proof (Hbusy (hw s)) as Hb.
  all: destruct (hw_busy (hw s)) as [b x]; cbn in Hb; subst b.
  all: destruct (t - 1 <? 0) eqn:Ht; try reflexivity.
  - lia.
  - apply IH. lia.
Qed.

Lemma wait_bus_idle_live n m t s :
  within n hw_idle (hw s) = true ->
  (n <= S (Z.to_nat t))%nat -> (Z.to_nat t <= m)%nat ->
  verdict_of (wait_bus_idle m t s) = Returned true.
Proof.
  revert m t s. induction n as [|n IH]; intros m t s Hw Hn Hm.
  { discriminate. }
  cbn [within] in Hw. unfold hw_idle in Hw.
  destruct m; cbn [wait_bus_idle]; unfold bind, STAR2_busy; cbn beta.
  all: destruct (hw_busy (hw s)) as [[] x]; cbn in Hw; try reflexivity.
  all: destruct (t - 1 <? 0) eqn:Ht.
  all: try (destruct n; [cbn [within] in Hw; discriminate|lia]).
  apply IH; [exact Hw|lia|lia].
Qed.

Lemma wait_status_timeout_never m e t s :
  (forall x, fst (hw_status e x) = false) ->
  (Z.to_nat t <= m)%nat ->
  verdict_of (wait_status_timeout m e t s) = Returned false.
Proof.
  intros Hnever. revert t s. induction m as [|m IH]; intros t s Hm.
  all: cbn [wait_status_timeout]; unfold bind, i2c_status; cbn beta.
  all: pose proof (Hnever (hw s)) as Hb.
  all: destruct (hw_status e (hw s)) as [b x]; cbn in Hb; subst b.
  all: cbn [negb]; destruct (t - 1 <? 0) eqn:Ht; try reflexivity.
  - lia.
  - apply IH. lia.
Qed.

Lemma wait_status_timeout_live n m e t s :
  within n (hw_status e) (hw s) = true ->
  (n <= S (Z.to_nat t))%nat -> (Z.to_nat t <= m)%nat ->
  verdict_of (wait_status_timeout m e t s) = Returned true.
Proof.
  revert m t s. induction n as [|n IH]; intros m t s Hw Hn Hm.
  { discriminate. }
  cbn [within] in Hw.
  destruct m; cbn [wait_status_timeout]; unfold bind, i2c_status; cbn beta.
  all: destruct (hw_status e (hw s)) as [[] x]; cbn in Hw; try reflexivity.
  all: cbn [negb]; destruct (t - 1 <? 0) eqn:Ht.
  all: try (destruct n; [cbn [within] in Hw; discriminate|lia]).
  apply IH; [exact Hw|lia|lia].
Qed.

Lemma wait_status_live n fuel e s :
  within n (hw_status e) (hw s) = true -> (n <= fuel)%nat ->
  verdict_of (wait_status fuel e s) = Returned tt.
Proof.
  revert fuel s. induction n as [|n IH]; intros fuel s Hw Hn.
  { discriminate. }
  cbn [within] in Hw. destruct fuel as [|fuel]; [lia|].
  cbn [wait_status]; unfold bind, i2c_status; cbn beta.
  destruct (hw_status e (hw s)) as [[] x]; cbn in Hw; [reflexivity|].
  cbn [negb]. apply IH; [exact Hw|lia].
Qed.

Lemma wait_star1_live n fuel f s :
  within n (hw_star1 f) (hw s) = true -> (n <= fuel)%nat ->
  verdict_of (wait_star1 fuel f s) = Returned tt.
Proof.
  revert fuel s. induction n as [|n IH]; intros fuel s Hw Hn.
  { discriminate. }
  cbn [within] in Hw. destruct fuel as [|fuel]; [lia|].
  cbn [wait_star1]; unfold bind, STAR1_test; cbn beta.
  destruct (hw_star1 f (hw s)) as [[] x]; cbn in Hw; [reflexivity|].
  cbn [negb]. apply IH; [exact Hw|lia].
Qed.

(** The opening on a bus that is idle and starts, when the answer
    [acks] of the address wait is known. *)
Lemma verdict_opening {A} n fuel addr (tmo : A) (k : bool -> M HW A) s
    (acks : bool) v :
  responds n hw_idle ->
  responds n (hw_status I2C_EVENT_MASTER_MODE_SELECT) ->
  (n <= fuel)%nat -> (n <= S (Z.to_nat I2C_TIMEOUT))%nat ->
  (forall s1, verdict_of
     (wait_status_timeout (Z.to_nat I2C_TIMEOUT)
        I2C_EVENT_MASTER_TRANSMITTER_MODE_SELECTED I2C_TIMEOUT s1)
     = Returned acks) ->
  (forall s1, verdict_of (k acks s1) = v) ->
  verdict_of (opening fuel addr tmo k s) = v.
Proof.
  intros Hidle Hms Hfuel HT Hack Hk. unfold opening.
  eapply verdict_bind.
  { apply (wait_bus_idle_live n); [apply Hidle|lia|lia]. }
  intros s1. cbn [negb].
  eapply verdict_bind; [reflexivity|]. intros s2.
  eapply verdict_bind.
  { apply (wait_status_live n); [apply Hms|lia]. }
  intros s3.
  eapply verdict_bind; [reflexivity|]. intros s4.
  eapply verdict_bind; [apply Hack|]. exact Hk.
Qed.

(** The opening on a bus that stays busy. *)
Lemma opening_busy {A} fuel addr (tmo : A) (k : bool -> M HW A) h :
  (forall x, fst (hw_busy x) = true) ->
  exists s', opening fuel addr tmo k (init h) = Ret tmo s'
             /\ trace s' = repeat (Busy true) (S (Z.to_nat I2C_TIMEOUT)).
Proof.
  intros Hbusy. unfold opening, bind.
  pose proof (wait_bus_idle_stuck (Z.to_nat I2C_TIMEOUT) I2C_TIMEOUT
                (init h) Hbusy (Nat.le_refl _)) as Hv.
  apply verdict_ret in Hv as [s1 Hs1].
  pose proof (runs_init_ret _ _ _ _ _
                (wait_bus_idle_runs _ _ (init h) (Nat.le_refl _)) Hs1) as Hsh.
  rewrite Hs1. cbn [negb]. exists s1. split; [reflexivity|exact Hsh].
Qed.
(** What is known of the verdict may be added to what [runs] says. *)
Lemma runs_verdict {A} (m : M HW A) s (P : verdict A -> list action -> Prop)
    v0 :
  runs m s P -> verdict_of (m s) = v0 ->
  runs m s (fun v tr => v = v0 /\ P v0 tr).
Proof. intros (tr & Htr & HP) Hv. exists tr. rewrite Hv in *. auto. Qed.
End Verdicts.

(** ** What the shapes say about the data and control registers *)

Lemma take_prefix_le {A} (l : list A) n m :
  (n <= m)%nat -> take n l `prefix_of` take m l.
Proof.
  intros Hnm. replace n with (Nat.min n m) by lia.
  rewrite <- take_take. apply prefix_take.
Qed.

Lemma In_keep p a tr : In a tr -> p a = true -> In a (keep p tr).
Proof.
  intros Hin Hp. unfold keep. apply in_flat_map. exists a.
  rewrite Hp. split; [exact Hin|left; reflexivity].
Qed.

Ltac solve_prefix :=
  repeat apply prefix_cons; first [apply prefix_nil | reflexivity].

Ltac invert_shapes :=
  repeat match goal with
         | H : opening_shape _ _ _ _ _ |- _ => inversion H; clear H; subst
         | H : read_shape_acked _ _ _ _ _ _ _ _ _ |- _ =>
             inversion H; clear H; subst
         | H : write_shape_acked _ _ _ _ _ _ _ |- _ =>
             inversion H; clear H; subst
         end.

Lemma ping_sends T fuel addr v tr :
  ping_shape T fuel addr v tr -> sends tr `prefix_of` [Z.land addr 0xFE].
Proof.
  intros Hsh. inversion Hsh; subst; invert_shapes; read_log; solve_prefix.
Qed.

Lemma read_sends T fuel addr reg buf len v tr :
  read_shape T fuel addr reg buf len v tr ->
  sends tr `prefix_of` [Z.land addr 0xFE; reg; Z.lor addr 0x01].
Proof.
  intros Hsh. inversion Hsh; subst; invert_shapes; read_log;
    rewrite ?flat_map_none; solve_prefix.
Qed.

Lemma write_sends T fuel addr reg buf len v tr :
  write_shape T fuel addr reg buf len v tr ->
  sends tr `prefix_of` Z.land addr 0xFE :: reg :: take (Z.to_nat len) buf.
Proof.
  intros Hsh. inversion Hsh; subst; invert_shapes; read_log;
    rewrite ?flat_map_one; try solve_prefix.
  all: repeat apply prefix_cons.
  all: first
    [ match goal with
      | H : map snd _ = take _ _ |- _ =>
          rewrite H; apply take_prefix_le; lia
      end
    | rewrite take_ge by (rewrite length_map; lia); reflexivity ].
Qed.

(** The writes to [CTLR1] of [i2c_read], in order: START, the
    acknowledge bit when [len > 1], START again, STOP. *)
Lemma read_controls T fuel addr reg buf len v tr :
  read_shape T fuel addr reg buf len v tr ->
  controls tr `prefix_of`
    SetBit I2C_CTLR1_START :: ack_mode len
    ++ [SetBit I2C_CTLR1_START; SetBit I2C_CTLR1_STOP].
Proof.
  intros Hsh. inversion Hsh; subst; invert_shapes; read_log;
    rewrite ?flat_map_none; cbn [app]; solve_prefix.
Qed.

(** The writes to [CTLR1] of [i2c_write]: START, and STOP on the one
    path that returns [I2C_OK]. *)
Lemma write_controls T fuel addr reg buf len v tr :
  write_shape T fuel addr reg buf len v tr ->
  (v = Returned I2C_OK
   /\ controls tr = [SetBit I2C_CTLR1_START; SetBit I2C_CTLR1_STOP])
  \/ (v <> Returned I2C_OK
      /\ controls tr `prefix_of` [SetBit I2C_CTLR1_START]).
Proof.
  intros Hsh. inversion Hsh; subst; invert_shapes; read_log;
    rewrite ?flat_map_none; cbn [app].
  all: first [ left; split; reflexivity
             | right; split; [discriminate|solve_prefix] ].
Qed.

Lemma flat_map_map {A B C} (g : A -> B) (f : B -> list C) (l : list A) :
  flat_map f (map g l) = flat_map (fun x => f (g x)) l.
Proof. induction l as [|x l IH]; cbn; [|rewrite IH]; reflexivity. Qed.

Lemma In_prefix {A} (x : A) (l1 l2 : list A) :
  In x l1 -> l1 `prefix_of` l2 -> In x l2.
Proof.
  intros Hin Hpre. apply list_elem_of_In.
  eapply elem_of_prefix; [apply list_elem_of_In, Hin|exact Hpre].
Qed.

(** The two bytes an address is sent as: bit 0 is the direction, the
    other bits are the caller's. *)
Lemma address_bytes addr :
  Z.testbit (Z.land addr 0xFE) 0 = false
  /\ Z.testbit (Z.lor addr 0x01) 0 = true
  /\ forall addr', Z.shiftr addr' 1 = Z.shiftr addr 1 ->
       Z.land addr' 0xFE = Z.land addr 0xFE
       /\ Z.lor addr' 0x01 = Z.lor addr 0x01.
Proof.
  split; [|split].
  - rewrite Z.land_spec. apply andb_false_r.
  - rewrite Z.lor_spec. apply orb_true_r.
  - intros addr' Hsame.
    assert (forall n, 0 < n -> Z.testbit addr' n = Z.testbit addr n) as Hbits.
    { intros n Hn. replace n with ((n - 1) + 1) by lia.
      rewrite <- !Z.shiftr_spec by lia. rewrite Hsame. reflexivity. }
    split; apply Z.bits_inj'; intros n Hn.
    + rewrite !Z.land_spec. destruct (Z.eq_dec n 0) as [->|Hne].
      * rewrite !andb_false_r. reflexivity.
      * rewrite Hbits by lia. reflexivity.
    + rewrite !Z.lor_spec. destruct (Z.eq_dec n 0) as [->|Hne].
      * rewrite !orb_true_r. reflexivity.
      * rewrite Hbits by lia. reflexivity.
Qed.

(** ** The address bytes are placed *)

Lemma prefix_first {A} (l : list A) x :
  l `prefix_of` [x] -> l !! 0%nat = Some x -> l = [x].
Proof.
  intros [k Hk] Hx. destruct l as [|y [|z l]]; [discriminate| |discriminate].
  injection Hx as ->. reflexivity.
Qed.

Lemma prefix_whole {A} (l m rest : list A) :
  l `prefix_of` m -> l = m ++ rest -> l = m.
Proof.
  intros Hpre ->. apply prefix_length in Hpre. rewrite length_app in Hpre.
  destruct rest; [apply app_nil_r|cbn in Hpre; lia].
Qed.

Lemma opening_sends T fuel addr (acked : bool) pre :
  opening_shape T fuel addr (if acked then OpAck else OpNack) pre ->
  sends pre = [Z.land addr 0xFE].
Proof.
  intros Hpre. destruct acked; inversion Hpre; subst; read_log; reflexivity.
Qed.

Lemma ping_returned_sends T fuel addr res tr :
  ping_shape T fuel addr (Returned res) tr -> res <> I2C_ERR_TIMEOUT ->
  sends tr = [Z.land addr 0xFE].
Proof.
  intros Hsh Hres. inversion Hsh; subst; try congruence.
  all: invert_shapes; read_log; reflexivity.
Qed.

Lemma read_returned_sends T fuel addr reg buf len res b tr :
  read_shape T fuel addr reg buf len (Returned (res, b)) tr ->
  (res <> I2C_ERR_TIMEOUT -> sends tr !! 0%nat = Some (Z.land addr 0xFE))
  /\ (res = I2C_OK -> sends tr = [Z.land addr 0xFE; reg; Z.lor addr 0x01]).
Proof.
  intros Hsh. inversion Hsh; subst; invert_shapes.
  all: split; intros Hres; try congruence.
  all: read_log; rewrite ?flat_map_none; reflexivity.
Qed.

Lemma write_returned_sends T fuel addr reg buf len res tr :
  write_shape T fuel addr reg buf len (Returned res) tr ->
  res <> I2C_ERR_TIMEOUT -> sends tr !! 0%nat = Some (Z.land addr 0xFE).
Proof.
  intros Hsh Hres. inversion Hsh; subst; invert_shapes; try congruence.
  all: read_log; reflexivity.
Qed.

Section AddressPhase.
Context {HW : Type} `{!I2C_Peripheral HW}.
Implicit Types (h : HW) (s : state HW) (tr : list action).

(** A call that only appends to the log. *)
Lemma runs_grow_bind {A B} (m : M HW A) (k : A -> M HW B) s :
  runs m s (fun _ _ => True) ->
  (forall a s1, runs (k a) s1 (fun _ _ => True)) ->
  runs (bind m k) s (fun _ _ => True).
Proof.
  intros Hm Hk. eapply runs_bind; [exact Hm| |auto|auto].
  intros a tr1 s1 _. apply Hk.
Qed.

Lemma runs_grow {A} (m : M HW A) s (P : verdict A -> list action -> Prop) :
  runs m s P -> runs m s (fun _ _ => True).
Proof. intros Hm. eapply runs_weaken; [exact Hm|auto]. Qed.

(** The opening on a bus that is idle and starts: the address is
    written and the address wait is reached. *)
Lemma runs_opening_live {A} n fuel addr (tmo : A) (k : bool -> M HW A) s
    (Q : verdict A -> list action -> Prop) :
  responds n hw_idle ->
  responds n (hw_status I2C_EVENT_MASTER_MODE_SELECT) ->
  (n <= fuel)%nat -> (n <= S (Z.to_nat I2C_TIMEOUT))%nat ->
  (forall (acked : bool) pre s1,
     opening_shape (Z.to_nat I2C_TIMEOUT) fuel addr
       (if acked then OpAck else OpNack) pre ->
     runs (k acked) s1 (fun v tr2 => Q v (pre ++ tr2))) ->
  runs (opening fuel addr tmo k) s Q.
Proof.
  intros Hidle Hms Hfuel HT Hk. unfold opening.
  eapply runs_bind.
  - eapply runs_verdict; [apply wait_bus_idle_runs; lia|].
    apply (wait_bus_idle_live n); [apply Hidle|lia|lia].
  - intros a tr1 s1 [[= ->] Hsh]. cbn [negb].
    cbn in Hsh. destruct Hsh as (k0 & Hk0 & ->).
    apply runs_seq_set. intros s2. cbn beta.
    eapply runs_bind.
    + eapply runs_verdict; [apply wait_status_runs|].
      apply (wait_status_live n); [apply Hms|exact Hfuel].
    + intros [] tr2 s3 [_ Hsh]. cbn in Hsh. destruct Hsh as (j & Hj & ->).
      apply runs_seq_send. intros s4. cbn beta.
      eapply runs_bind;
        [apply wait_status_timeout_runs; lia| |intros ? []|intros ? []].
      intros acked tr3 s5 Hack. cbn beta.
      eapply runs_weaken.
      * apply Hk with
          (pre := idle k0 ++ [SetBit I2C_CTLR1_START]
                  ++ await I2C_EVENT_MASTER_MODE_SELECT j
                  ++ [Send (Z.land addr 0xFE)] ++ tr3).
        destruct acked; cbn [timed_shape] in Hack.
        -- destruct Hack as (i & Hi & ->). constructor; assumption.
        -- rewrite Hack. constructor; assumption.
      * intros v tr HQ. cbn beta in HQ.
        rewrite <- !app_assoc in HQ. exact HQ.
    + intros tr2 [Hv _]. discriminate.
    + intros tr2 [Hv _]. discriminate.
  - intros tr1 [Hv _]. discriminate.
  - intros tr1 [Hv _]. discriminate.
Qed.

(** On such a bus the first byte written to the data register is the
    address with bit 0 clear, whatever the call does next. *)
Lemma opening_places_address {A} n fuel addr (tmo : A) (k : bool -> M HW A)
    s :
  responds n hw_idle ->
  responds n (hw_status I2C_EVENT_MASTER_MODE_SELECT) ->
  (n <= fuel)%nat -> (n <= S (Z.to_nat I2C_TIMEOUT))%nat ->
  (forall acked s1, runs (k acked) s1 (fun _ _ => True)) ->
  runs (opening fuel addr tmo k) s
    (fun _ tr => sends tr !! 0%nat = Some (Z.land addr 0xFE)).
Proof.
  intros Hidle Hms Hfuel HT Hk.
  apply (runs_opening_live n); try assumption.
  intros acked pre s1 Hpre.
  eapply runs_weaken; [apply Hk|]. intros v tr2 _. cbn beta.
  unfold sends. rewrite flat_map_app.
  fold (sends pre). rewrite (opening_sends _ _ _ _ _ Hpre). reflexivity.
Qed.

Lemma ping_rest_grows (acked : bool) s :
  runs (let* _ := CTLR1_set I2C_CTLR1_STOP in
        ret (if acked then I2C_OK else I2C_ERR_NACK)) s (fun _ _ => True).
Proof.
  apply runs_grow_bind; [apply runs_CTLR1_set; exact I|].
  intros _ s1. apply runs_ret. exact I.
Qed.

Lemma read_tail_grows fuel buf len s :
  len <= 255 ->
  runs (let* acked := wait_status_timeout (Z.to_nat I2C_TIMEOUT)
                        I2C_EVENT_MASTER_RECEIVER_MODE_SELECTED
                        I2C_TIMEOUT in
        if negb acked then ret (I2C_ERR_NACK, buf) else
        let* buf := read_bytes (Z.to_nat len) fuel len 0 buf in
        let* _ := CTLR1_set I2C_CTLR1_STOP in
        ret (I2C_OK, buf)) s (fun _ _ => True).
Proof.
  intros Hlen. apply runs_grow_bind.
  { eapply runs_grow. apply wait_status_timeout_runs. lia. }
  intros [] s1; cbn [negb]; [|apply runs_ret; exact I].
  apply runs_grow_bind.
  { eapply runs_grow. apply read_bytes_runs; lia. }
  intros b s2. apply runs_grow_bind; [apply runs_CTLR1_set; exact I|].
  intros _ s3. apply runs_ret. exact I.
Qed.

Lemma read_rest_grows fuel addr reg buf len (acked : bool) s :
  len <= 255 ->
  runs (if negb acked then ret (I2C_ERR_NACK, buf) else
        let* _ := DATAR_write reg in
        let* _ := wait_star1 fuel I2C_STAR1_TXE in
        let* _ := (if 1 <? len then CTLR1_set I2C_CTLR1_ACK else ret tt) in
        let* _ := CTLR1_set I2C_CTLR1_START in
        let* _ := wait_status fuel I2C_EVENT_MASTER_MODE_SELECT in
        let* _ := DATAR_write (Z.lor addr 0x01) in
        let* acked := wait_status_timeout (Z.to_nat I2C_TIMEOUT)
                        I2C_EVENT_MASTER_RECEIVER_MODE_SELECTED
                        I2C_TIMEOUT in
        if negb acked then ret (I2C_ERR_NACK, buf) else
        let* buf := read_bytes (Z.to_nat len) fuel len 0 buf in
        let* _ := CTLR1_set I2C_CTLR1_STOP in
        ret (I2C_OK, buf)) s (fun _ _ => True).
Proof.
  intros Hlen. destruct acked; cbn [negb]; [|apply runs_ret; exact I].
  apply runs_grow_bind; [apply runs_DATAR_write; exact I|]. intros _ s1.
  apply runs_grow_bind; [eapply runs_grow; apply wait_star1_runs|].
  intros _ s2.
  apply runs_grow_bind.
  { destruct (1 <? len); [apply runs_CTLR1_set|apply runs_ret]; exact I. }
  intros _ s3.
  apply runs_grow_bind; [apply runs_CTLR1_set; exact I|]. intros _ s4.
  apply runs_grow_bind; [eapply runs_grow; apply wait_status_runs|].
  intros _ s5.
  apply runs_grow_bind; [apply runs_DATAR_write; exact I|]. intros _ s6.
  apply read_tail_grows, Hlen.
Qed.

Lemma write_rest_grows fuel reg buf len (acked : bool) s :
  len <= 255 ->
  runs (if negb acked then ret I2C_ERR_NACK else
        let* _ := DATAR_write reg in
        let* _ := wait_star1 fuel I2C_STAR1_TXE in
        let* _ := write_bytes (Z.to_nat len) fuel len 0 buf in
        let* _ := wait_status fuel I2C_EVENT_MASTER_BYTE_TRANSMITTED in
        let* _ := CTLR1_set I2C_CTLR1_STOP in
        ret I2C_OK) s (fun _ _ => True).
Proof.
  intros Hlen. destruct acked; cbn [negb]; [|apply runs_ret; exact I].
  apply runs_grow_bind; [apply runs_DATAR_write; exact I|]. intros _ s1.
  apply runs_grow_bind; [eapply runs_grow; apply wait_star1_runs|].
  intros _ s2.
  apply runs_grow_bind.
  { eapply runs_grow. apply write_bytes_runs; lia. }
  intros _ s3.
  apply runs_grow_bind; [eapply runs_grow; apply wait_status_runs|].
  intros _ s4.
  apply runs_grow_bind; [apply runs_CTLR1_set; exact I|]. intros _ s5.
  apply runs_ret. exact I.
Qed.

(** On a bus that also acknowledges and takes the register number,
    [i2c_read] writes the read address, whatever happens after. *)
Lemma read_places_addresses n fuel addr reg buf len s :
  len <= 255 ->
  responds n hw_idle ->
  responds n (hw_status I2C_EVENT_MASTER_MODE_SELECT) ->
  responds n (hw_status I2C_EVENT_MASTER_TRANSMITTER_MODE_SELECTED) ->
  responds n (hw_star1 I2C_STAR1_TXE) ->
  (n <= fuel)%nat -> (n <= S (Z.to_nat I2C_TIMEOUT))%nat ->
  runs (i2c_read fuel addr reg buf len) s
    (fun _ tr =>
       exists rest,
         sends tr = [Z.land addr 0xFE; reg; Z.lor addr 0x01] ++ rest).
Proof.
  intros Hlen Hidle Hms Htx Htxe Hfuel HT.
  rewrite i2c_read_opening. unfold opening.
  eapply runs_bind.
  - eapply runs_verdict; [apply wait_bus_idle_runs; lia|].
    apply (wait_bus_idle_live n); [apply Hidle|lia|lia].
  - intros a tr1 s1 [[= ->] Hsh1]. cbn [negb].
    cbn in Hsh1. destruct Hsh1 as (k0 & Hk0 & ->).
    apply runs_seq_set. intros s2. cbn beta.
    eapply runs_bind.
    + eapply runs_verdict; [apply wait_status_runs|].
      apply (wait_status_live n); [apply Hms|exact Hfuel].
    + intros [] tr2 s3 [_ Hsh2]. cbn in Hsh2.
      destruct Hsh2 as (j & Hj & ->).
      apply runs_seq_send. intros s4. cbn beta.
      eapply runs_bind.
      * eapply runs_verdict; [apply wait_status_timeout_runs; lia|].
        apply (wait_status_timeout_live n); [apply Htx|lia|lia].
      * intros a tr3 s5 [[= ->] Hsh3]. cbn [negb].
        cbn in Hsh3. destruct Hsh3 as (i & Hi & ->).
        apply runs_seq_send. intros s6. cbn beta.
        eapply runs_bind.
        -- eapply runs_verdict; [apply wait_star1_runs|].
           apply (wait_star1_live n); [apply Htxe|exact Hfuel].
        -- intros [] tr4 s7 [_ Hsh4]. cbn in Hsh4.
           destruct Hsh4 as (k & Hk & ->).
           apply runs_seq_ack_mode. intros s8. cbn beta.
           apply runs_seq_set. intros s9. cbn beta.
           eapply runs_bind.
           ++ eapply runs_verdict; [apply wait_status_runs|].
              apply (wait_status_live n); [apply Hms|exact Hfuel].
           ++ intros [] tr5 s10 [_ Hsh5]. cbn in Hsh5.
              destruct Hsh5 as (j' & Hj' & ->).
              apply runs_seq_send. intros s11. cbn beta.
              eapply runs_weaken; [apply read_tail_grows, Hlen|].
              intros v tr6 _. cbn beta.
              exists (sends tr6). read_log; reflexivity.
           ++ intros tr5 [Hv _]. discriminate.
           ++ intros tr5 [Hv _]. discriminate.
        -- intros tr4 [Hv _]. discriminate.
        -- intros tr4 [Hv _]. discriminate.
      * intros tr3 [Hv _]. discriminate.
      * intros tr3 [Hv _]. discriminate.
    + intros tr2 [Hv _]. discriminate.
    + intros tr2 [Hv _]. discriminate.
  - intros tr1 [Hv _]. discriminate.
  - intros tr1 [Hv _]. discriminate.
Qed.
End AddressPhase.

(** * The claims *)

Section Claims.
Context {HW : Type} `{!I2C_Peripheral HW}.
Implicit Types (h : HW) (s : state HW) (tr : list action).

(** C2, amended.  A call of [i2c_ping] that returns [I2C_OK] or
    [I2C_ERR_NACK] has set the START bit exactly once and the STOP bit
    exactly once; a call that returns [I2C_ERR_TIMEOUT] has set neither. *)
Theorem ping_start_stop_count fuel addr h r s' :
  i2c_ping fuel addr (init h) = Ret r s' ->
  (r = I2C_ERR_TIMEOUT ->
     asserted I2C_CTLR1_START (trace s') = 0%nat
     /\ asserted I2C_CTLR1_STOP (trace s') = 0%nat)
  /\ (r <> I2C_ERR_TIMEOUT ->
       asserted I2C_CTLR1_START (trace s') = 1%nat
       /\ asserted I2C_CTLR1_STOP (trace s') = 1%nat).
Proof.
  intros Hrun.
  pose proof (runs_init_ret _ _ _ _ _ (i2c_ping_runs fuel addr (init h)) Hrun)
    as Hsh.
  inversion Hsh as [tr Hop|tr Hop|tr Hop|tr Hop]; subst;
    inversion Hop; subst; read_log.
  all: split; [intros Hr|intros Hr]; try congruence.
  all: split; reflexivity.
Qed.

(** C3.  On a bus whose busy flag never clears, [i2c_ping], [i2c_read]
    and [i2c_write] return [I2C_ERR_TIMEOUT], whatever the fuel; the
    log holds the [I2C_TIMEOUT + 1] busy polls of the idle wait and
    nothing else: the START bit was not set and nothing was written to
    the data register.  [i2c_read] leaves the buffer as it was. *)
Theorem busy_bus_times_out fuel addr reg buf len h :
  (forall x, fst (hw_busy x) = true) ->
  let quiet := repeat (Busy true) (S (Z.to_nat I2C_TIMEOUT)) in
  (exists s', i2c_ping fuel addr (init h) = Ret I2C_ERR_TIMEOUT s'
              /\ trace s' = quiet)
  /\ (exists s', i2c_read fuel addr reg buf len (init h)
                 = Ret (I2C_ERR_TIMEOUT, buf) s'
                 /\ trace s' = quiet)
  /\ (exists s', i2c_write fuel addr reg buf len (init h)
                 = Ret I2C_ERR_TIMEOUT s'
                 /\ trace s' = quiet)
  /\ asserted I2C_CTLR1_START quiet = 0%nat
  /\ sends quiet = []
  /\ busy_polls quiet = S (Z.to_nat I2C_TIMEOUT).
Proof.
  intros Hbusy quiet. subst quiet.
  rewrite i2c_ping_opening, i2c_read_opening, i2c_write_opening.
  repeat split; try (apply opening_busy; exact Hbusy).
  - unfold asserted, keep. rewrite flat_map_repeat_nil; reflexivity.
  - unfold sends. rewrite flat_map_repeat_nil; reflexivity.
  - unfold busy_polls. apply length_keep_repeat. reflexivity.
Qed.

(** C6, amended.  On a bus that is idle and starts, if [i2c_status]
    never reports [I2C_EVENT_MASTER_TRANSMITTER_MODE_SELECTED] then
    [i2c_ping] returns [I2C_ERR_NACK] after asking for that event
    exactly [I2C_TIMEOUT + 1] times. *)
Theorem ping_nack_poll_count n fuel addr h :
  responds n hw_idle ->
  responds n (hw_status I2C_EVENT_MASTER_MODE_SELECT) ->
  (forall x,
     fst (hw_status I2C_EVENT_MASTER_TRANSMITTER_MODE_SELECTED x) = false) ->
  (n <= fuel)%nat -> (n <= S (Z.to_nat I2C_TIMEOUT))%nat ->
  0 <= I2C_TIMEOUT ->
  exists s',
    i2c_ping fuel addr (init h) = Ret I2C_ERR_NACK s'
    /\ Z.of_nat (status_polls I2C_EVENT_MASTER_TRANSMITTER_MODE_SELECTED
                   (trace s'))
       = I2C_TIMEOUT + 1.
Proof.
  intros Hidle Hms Hnever Hfuel HT Hpos.
  assert (verdict_of (i2c_ping fuel addr (init h)) = Returned I2C_ERR_NACK)
    as Hv.
  { rewrite i2c_ping_opening.
    apply (verdict_opening n) with (acks := false); try assumption.
    - intros s1. apply wait_status_timeout_never; [exact Hnever|lia].
    - intros s1. reflexivity. }
  apply verdict_ret in Hv as [s' Hrun]. exists s'. split; [exact Hrun|].
  pose proof (runs_init_ret _ _ _ _ _ (i2c_ping_runs fuel addr (init h)) Hrun)
    as Hsh.
  inversion Hsh as [|  |tr Hop|]; subst. inversion Hop; subst.
  unfold status_polls, keep. rewrite !flat_map_app.
  rewrite flat_map_idle, flat_map_await by reflexivity.
  cbn [flat_map app is_status]. rewrite !length_app.
  change (flat_map _ (repeat ?a ?k)) with (keep
    (is_status I2C_EVENT_MASTER_TRANSMITTER_MODE_SELECTED) (repeat a k)).
  rewrite length_keep_repeat by reflexivity.
  match goal with
  | |- context [bool_decide ?P] => change (bool_decide P) with false
  end.
  cbn [length]. lia.
Qed.

(** C1.  When [i2c_read] returns [I2C_OK] it has read the data register
    [len] times, byte [i] of the transfer is at index [i] of the buffer
    (the low eight bits of what was read), and every index from [len] on
    holds what it held before. *)
Theorem read_ok_fills_buffer fuel addr reg buf len h buf' s' :
  0 <= len <= 255 ->
  i2c_read fuel addr reg buf len (init h) = Ret (I2C_OK, buf') s' ->
  let rx := received (trace s') in
  length rx = Z.to_nat len
  /\ length buf' = length buf
  /\ (forall i d, rx !! i = Some d -> buf' !! i = Some (d mod 256))
  /\ (forall i, (Z.to_nat len <= i)%nat -> buf' !! i = buf !! i).
Proof.
  intros Hlen Hrun rx. subst rx.
  pose proof (runs_init_ret _ _ _ _ _
                (i2c_read_runs fuel addr reg buf len (init h) (proj2 Hlen))
                Hrun) as Hsh.
  inversion Hsh as [| | |pre v tr Hpre Hacked]; subst.
  inversion Hacked as [| | | | |k j i l Hk Hj Hi Hl Hb]; subst.
  inversion Hpre; subst. clear Hsh Hacked Hpre.
  read_log; rewrite flat_map_one.
  all: change (map snd l) with (snd <$> l).
  all: rewrite filled_0, !length_map.
  all: change (map (fun kd : nat * Z => snd kd mod 256) l)
         with ((fun kd : nat * Z => snd kd mod 256) <$> l).
  all: repeat split.
  all: try exact Hl.
  all: try (rewrite length_app, length_fmap, length_drop; lia).
  all: try (intros n d Hn; rewrite list_lookup_fmap in Hn;
            destruct (l !! n) as [kd|] eqn:Hkd; [|discriminate];
            cbn in Hn; injection Hn as <-;
            apply lookup_app_l_Some;
            rewrite list_lookup_fmap, Hkd; reflexivity).
  all: intros n Hn; rewrite lookup_app_r by (rewrite length_fmap; lia).
  all: rewrite length_fmap, lookup_drop; f_equal; lia.
Qed.

(** C4.  Whatever address the caller passes, the first byte each of
    [i2c_ping], [i2c_read] and [i2c_write] writes to the data register
    is the address with bit 0 cleared, and the third byte [i2c_read]
    writes is the address with bit 0 set; the only other bytes written
    are the register number and, for [i2c_write], the data.  The two
    address bytes are the same for any two addresses that differ in
    bit 0 only.

    The bytes are placed.  A call that returns anything but
    [I2C_ERR_TIMEOUT] has written the address with bit 0 cleared first,
    and [i2c_read] returning [I2C_OK] has written exactly write address,
    register number, read address.  On a bus that is idle and starts,
    every run of the three functions, complete or not, writes the
    address with bit 0 cleared first; if the bus also acknowledges and
    takes the register number, every run of [i2c_read] writes the read
    address third. *)
Theorem address_direction_bit n fuel addr reg buf len h :
  0 <= len <= 255 ->
  let w := Z.land addr 0xFE in
  let r := Z.lor addr 0x01 in
  (sends (trace (final (i2c_ping fuel addr (init h)))) `prefix_of` [w]
   /\ sends (trace (final (i2c_read fuel addr reg buf len (init h))))
        `prefix_of` [w; reg; r]
   /\ sends (trace (final (i2c_write fuel addr reg buf len (init h))))
        `prefix_of` w :: reg :: take (Z.to_nat len) buf)
  /\ Z.testbit w 0 = false
  /\ Z.testbit r 0 = true
  /\ (forall addr', Z.shiftr addr' 1 = Z.shiftr addr 1 ->
        Z.land addr' 0xFE = w /\ Z.lor addr' 0x01 = r)
  /\ (forall res s',
        i2c_ping fuel addr (init h) = Ret res s' ->
        res <> I2C_ERR_TIMEOUT -> sends (trace s') = [w])
  /\ (forall res b s',
        i2c_read fuel addr reg buf len (init h) = Ret (res, b) s' ->
        (res <> I2C_ERR_TIMEOUT -> sends (trace s') !! 0%nat = Some w)
        /\ (res = I2C_OK -> sends (trace s') = [w; reg; r]))
  /\ (forall res s',
        i2c_write fuel addr reg buf len (init h) = Ret res s' ->
        res <> I2C_ERR_TIMEOUT -> sends (trace s') !! 0%nat = Some w)
  /\ (responds n hw_idle ->
      responds n (hw_status I2C_EVENT_MASTER_MODE_SELECT) ->
      (n <= fuel)%nat -> (n <= S (Z.to_nat I2C_TIMEOUT))%nat ->
      sends (trace (final (i2c_ping fuel addr (init h)))) = [w]
      /\ sends (trace (final (i2c_read fuel addr reg buf len (init h))))
           !! 0%nat = Some w
      /\ sends (trace (final (i2c_write fuel addr reg buf len (init h))))
           !! 0%nat = Some w
      /\ (responds n (hw_status I2C_EVENT_MASTER_TRANSMITTER_MODE_SELECTED) ->
          responds n (hw_star1 I2C_STAR1_TXE) ->
          sends (trace (final (i2c_read fuel addr reg buf len (init h))))
          = [w; reg; r])).
Proof.
  intros Hlen w r.
  pose proof (i2c_ping_runs fuel addr (init h)) as Hping.
  pose proof (i2c_read_runs fuel addr reg buf len (init h) (proj2 Hlen))
    as Hread.
  pose proof (i2c_write_runs fuel addr reg buf len (init h) (proj2 Hlen))
    as Hwrite.
  pose proof (ping_sends _ _ _ _ _ (runs_init _ _ _ Hping)) as Hp.
  pose proof (read_sends _ _ _ _ _ _ _ _ (runs_init _ _ _ Hread)) as Hr.
  pose proof (write_sends _ _ _ _ _ _ _ _ (runs_init _ _ _ Hwrite)) as Hw.
  split; [split; [exact Hp|split; [exact Hr|exact Hw]]|].
  destruct (address_bytes addr) as (Hw0 & Hr0 & Hsame).
  split; [exact Hw0|]. split; [exact Hr0|]. split; [exact Hsame|].
  split; [|split; [|split]].
  - intros res s' Hrun Hres.
    exact (ping_returned_sends _ _ _ _ _
             (runs_init_ret _ _ _ _ _ Hping Hrun) Hres).
  - intros res b s' Hrun.
    exact (read_returned_sends _ _ _ _ _ _ _ _ _
             (runs_init_ret _ _ _ _ _ Hread Hrun)).
  - intros res s' Hrun Hres.
    exact (write_returned_sends _ _ _ _ _ _ _ _
             (runs_init_ret _ _ _ _ _ Hwrite Hrun) Hres).
  - intros Hidle Hms Hfuel HT.
    assert (sends (trace (final (i2c_ping fuel addr (init h)))) !! 0%nat
            = Some w) as Hp1.
    { rewrite i2c_ping_opening.
      apply (runs_init _ _
               (fun _ tr => sends tr !! 0%nat = Some (Z.land addr 0xFE))).
      apply (opening_places_address n); try assumption.
      intros acked s1. apply ping_rest_grows. }
    split; [exact (prefix_first _ _ Hp Hp1)|]. split; [|split].
    + rewrite i2c_read_opening.
      apply (runs_init _ _
               (fun _ tr => sends tr !! 0%nat = Some (Z.land addr 0xFE))).
      apply (opening_places_address n); try assumption.
      intros acked s1. apply read_rest_grows. lia.
    + rewrite i2c_write_opening.
      apply (runs_init _ _
               (fun _ tr => sends tr !! 0%nat = Some (Z.land addr 0xFE))).
      apply (opening_places_address n); try assumption.
      intros acked s1. apply write_rest_grows. lia.
    + intros Htx Htxe.
      destruct (runs_init _ _ _
                  (read_places_addresses n fuel addr reg buf len (init h)
                     (proj2 Hlen) Hidle Hms Htx Htxe Hfuel HT))
        as [rest Hrest].
      exact (prefix_whole _ _ _ Hr Hrest).
Qed.

(** C5.  When [i2c_read] or [i2c_write] returns [I2C_ERR_NACK], the log
    ends with the [I2C_TIMEOUT + 1] failed polls of an address wait (for
    the transmitter event, or for [i2c_read] the receiver event) and the
    STOP bit was never set.  When [i2c_ping] returns [I2C_ERR_NACK], the
    same failed polls are followed by setting the STOP bit.  On a bus that
    is idle and starts, the three functions do return [I2C_ERR_NACK] when
    the transmitter event is never reported, and so does [i2c_read] when
    the receiver event is never reported. *)
Theorem nack_without_stop n fuel addr reg buf len h :
  0 <= len <= 255 ->
  let T := S (Z.to_nat I2C_TIMEOUT) in
  (forall b s',
     i2c_read fuel addr reg buf len (init h) = Ret (I2C_ERR_NACK, b) s' ->
     asserted I2C_CTLR1_STOP (trace s') = 0%nat
     /\ exists tr e,
          (e = I2C_EVENT_MASTER_TRANSMITTER_MODE_SELECTED
           \/ e = I2C_EVENT_MASTER_RECEIVER_MODE_SELECTED)
          /\ trace s' = tr ++ repeat (Status e false) T)
  /\ (forall s',
       i2c_write fuel addr reg buf len (init h) = Ret I2C_ERR_NACK s' ->
       asserted I2C_CTLR1_STOP (trace s') = 0%nat
       /\ exists tr,
            trace s'
            = tr ++ repeat
                      (Status I2C_EVENT_MASTER_TRANSMITTER_MODE_SELECTED
                         false) T)
  /\ (forall s',
       i2c_ping fuel addr (init h) = Ret I2C_ERR_NACK s' ->
       asserted I2C_CTLR1_STOP (trace s') = 1%nat
       /\ exists tr,
            trace s'
            = tr ++ repeat
                      (Status I2C_EVENT_MASTER_TRANSMITTER_MODE_SELECTED
                         false) T
                 ++ [SetBit I2C_CTLR1_STOP])
  /\ (responds n hw_idle ->
      responds n (hw_status I2C_EVENT_MASTER_MODE_SELECT) ->
      (n <= fuel)%nat -> (n <= T)%nat ->
      ((forall x,
          fst (hw_status I2C_EVENT_MASTER_TRANSMITTER_MODE_SELECTED x)
          = false) ->
       verdict_of (i2c_read fuel addr reg buf len (init h))
       = Returned (I2C_ERR_NACK, buf)
       /\ verdict_of (i2c_write fuel addr reg buf len (init h))
          = Returned I2C_ERR_NACK
       /\ verdict_of (i2c_ping fuel addr (init h)) = Returned I2C_ERR_NACK)
      /\ (responds n (hw_status I2C_EVENT_MASTER_TRANSMITTER_MODE_SELECTED) ->
          responds n (hw_star1 I2C_STAR1_TXE) ->
          (forall x,
             fst (hw_status I2C_EVENT_MASTER_RECEIVER_MODE_SELECTED x)
             = false) ->
          verdict_of (i2c_read fuel addr reg buf len (init h))
          = Returned (I2C_ERR_NACK, buf))).
Proof.
  intros Hlen T. subst T. split; [|split; [|split]].
  - intros b s' Hrun.
    pose proof (runs_init_ret _ _ _ _ _
                  (i2c_read_runs fuel addr reg buf len (init h) (proj2 Hlen))
                  Hrun) as Hsh.
    split.
    + inversion Hsh; subst; invert_shapes; read_log; reflexivity.
    + remember (Returned (I2C_ERR_NACK, b)) as v eqn:Hv.
      destruct Hsh as [tr Hop|tr Hop|tr Hop|pre v tr Hop Hacked];
        try discriminate Hv.
      * remember OpNack as e eqn:He.
        destruct Hop; try discriminate He.
        rewrite !app_assoc.
        eexists _, _. split; [left; reflexivity|reflexivity].
      * destruct Hacked; try discriminate Hv.
        rewrite !app_assoc.
        eexists _, _. split; [right; reflexivity|reflexivity].
  - intros s' Hrun.
    pose proof (runs_init_ret _ _ _ _ _
                  (i2c_write_runs fuel addr reg buf len (init h) (proj2 Hlen))
                  Hrun) as Hsh.
    split.
    + inversion Hsh; subst; invert_shapes; read_log; reflexivity.
    + remember (Returned I2C_ERR_NACK) as v eqn:Hv.
      destruct Hsh as [tr Hop|tr Hop|tr Hop|pre v tr Hop Hacked];
        try discriminate Hv.
      * remember OpNack as e eqn:He.
        destruct Hop; try discriminate He.
        rewrite !app_assoc. eexists. reflexivity.
      * destruct Hacked; discriminate Hv.
  - intros s' Hrun.
    pose proof (runs_init_ret _ _ _ _ _
                  (i2c_ping_runs fuel addr (init h)) Hrun) as Hsh.
    split.
    + inversion Hsh; subst; invert_shapes; read_log; reflexivity.
    + remember (Returned I2C_ERR_NACK) as v eqn:Hv.
      destruct Hsh as [tr Hop|tr Hop|tr Hop|tr Hop];
        try discriminate Hv.
      remember OpNack as e eqn:He.
      destruct Hop as [|k Hk|k j Hk Hj|]; try discriminate He.
      exists (idle k ++ [SetBit I2C_CTLR1_START]
              ++ await I2C_EVENT_MASTER_MODE_SELECT j
              ++ [Send (Z.land addr 0xFE)]).
      rewrite <- !app_assoc. reflexivity.
  - intros Hidle Hms Hfuel HT. split.
    + intros Hnever.
      rewrite i2c_read_opening, i2c_write_opening, i2c_ping_opening.
      repeat split.
      all: apply (verdict_opening n) with (acks := false); try assumption.
      all: intros s1; first
             [ apply wait_status_timeout_never; [exact Hnever|lia]
             | reflexivity ].
    + intros Htx Htxe Hnever. rewrite i2c_read_opening.
      apply (verdict_opening n) with (acks := true); try assumption.
      { intros s1. apply (wait_status_timeout_live n); [apply Htx|lia|lia]. }
      intros s1. cbn [negb].
      eapply verdict_bind; [reflexivity|]. intros s2.
      eapply verdict_bind; [apply (wait_star1_live n); [apply Htxe|lia]|].
      intros s3.
      eapply verdict_bind; [destruct (1 <? len); reflexivity|]. intros s4.
      eapply verdict_bind; [reflexivity|]. intros s5.
      eapply verdict_bind; [apply (wait_status_live n); [apply Hms|lia]|].
      intros s6.
      eapply verdict_bind; [reflexivity|]. intros s7.
      eapply verdict_bind;
        [apply wait_status_timeout_never; [exact Hnever|lia]|].
      intros s8. reflexivity.
Qed.

(** C7.  In every run of [i2c_read], complete or not: with [len] 0 or 1
    the acknowledge bit is never set and [CTLR1] sees START, START,
    STOP; with [len > 1] it sees START, ACK, START, STOP, so the
    acknowledge bit is set before the repeated START, and a call that
    returns [I2C_OK] has made all four writes. *)
Theorem read_ack_mode fuel addr reg buf len h :
  0 <= len <= 255 ->
  let tr := trace (final (i2c_read fuel addr reg buf len (init h))) in
  (len <= 1 ->
     ~ In (SetBit I2C_CTLR1_ACK) tr
     /\ controls tr `prefix_of`
          [SetBit I2C_CTLR1_START; SetBit I2C_CTLR1_START;
           SetBit I2C_CTLR1_STOP])
  /\ (1 < len ->
       controls tr `prefix_of`
         [SetBit I2C_CTLR1_START; SetBit I2C_CTLR1_ACK;
          SetBit I2C_CTLR1_START; SetBit I2C_CTLR1_STOP]
       /\ forall b s',
            i2c_read fuel addr reg buf len (init h) = Ret (I2C_OK, b) s' ->
            controls (trace s')
            = [SetBit I2C_CTLR1_START; SetBit I2C_CTLR1_ACK;
               SetBit I2C_CTLR1_START; SetBit I2C_CTLR1_STOP]).
Proof.
  intros Hlen tr.
  pose proof (i2c_read_runs fuel addr reg buf len (init h) (proj2 Hlen))
    as Hruns.
  pose proof (read_controls _ _ _ _ _ _ _ _ (runs_init _ _ _ Hruns)) as Hc.
  fold tr in Hc. unfold ack_mode in Hc. split.
  - intros Hle. destruct (Z.ltb_spec 1 len) as [Hlt|_]; [lia|].
    cbn [app] in Hc. split; [|exact Hc].
    intros Hin.
    apply (In_keep is_control) in Hin; [|reflexivity].
    apply (In_prefix _ _ _ Hin) in Hc. cbn in Hc.
    intuition discriminate.
  - intros Hlt. destruct (Z.ltb_spec 1 len) as [_|Hle]; [|lia].
    cbn [app] in Hc. split; [exact Hc|].
    intros b s' Hrun.
    pose proof (runs_init_ret _ _ _ _ _ Hruns Hrun) as Hsh.
    inversion Hsh; subst; invert_shapes; read_log;
      rewrite ?flat_map_none; first [reflexivity|lia].
Qed.

(** C8.  No run of [i2c_read], complete or not, clears a bit of
    [CTLR1]: the statement guarded by [cbyte == len] is never executed,
    because inside the loop [cbyte < len]. *)
Theorem read_never_clears_ack fuel addr reg buf len h :
  0 <= len <= 255 ->
  (forall b,
     ~ In (ClearBit b)
         (trace (final (i2c_read fuel addr reg buf len (init h)))))
  /\ (forall cbyte, (cbyte <? len) = true -> (cbyte =? len) = false).
Proof.
  intros Hlen. split; [|intros cbyte Hlt; lia].
  intros b Hin.
  pose proof (read_controls _ _ _ _ _ _ _ _
                (runs_init _ _ _
                   (i2c_read_runs fuel addr reg buf len (init h)
                      (proj2 Hlen)))) as Hc.
  apply (In_keep is_control) in Hin; [|reflexivity].
  apply (In_prefix _ _ _ Hin) in Hc.
  unfold ack_mode in Hc. destruct (1 <? len); cbn in Hc;
    intuition discriminate.
Qed.

(** C9.  In every run of [i2c_write] the bytes written to the data
    register are the address, the register number and then the buffer
    from index 0 on.  The STOP bit is set only by a call that returns
    [I2C_OK], and the log of such a call, read without the failed polls,
    is: the opening, the register number, then for each of the [len]
    bytes a read of [STAR1] that finds the transmit register empty and
    the byte, then the byte-transmitted event, then STOP, last. *)
Theorem write_stop_after_last_byte fuel addr reg buf len h :
  0 <= len <= 255 ->
  let o := i2c_write fuel addr reg buf len (init h) in
  sends (trace (final o))
    `prefix_of` Z.land addr 0xFE :: reg :: take (Z.to_nat len) buf
  /\ (In (SetBit I2C_CTLR1_STOP) (trace (final o)) ->
      verdict_of o = Returned I2C_OK)
  /\ (forall s', o = Ret I2C_OK s' ->
        (Z.to_nat len <= length buf)%nat
        /\ progress (trace s')
           = [Busy false; SetBit I2C_CTLR1_START;
              Status I2C_EVENT_MASTER_MODE_SELECT true;
              Send (Z.land addr 0xFE);
              Status I2C_EVENT_MASTER_TRANSMITTER_MODE_SELECTED true;
              Send reg; Star1 I2C_STAR1_TXE true]
             ++ flat_map (fun b => [Star1 I2C_STAR1_TXE true; Send b])
                  (take (Z.to_nat len) buf)
             ++ [Status I2C_EVENT_MASTER_BYTE_TRANSMITTED true;
                 SetBit I2C_CTLR1_STOP]).
Proof.
  intros Hlen o. subst o.
  pose proof (i2c_write_runs fuel addr reg buf len (init h) (proj2 Hlen))
    as Hruns.
  pose proof (runs_init _ _ _ Hruns) as Hsh.
  split; [exact (write_sends _ _ _ _ _ _ _ _ Hsh)|]. split.
  - intros Hin.
    destruct (write_controls _ _ _ _ _ _ _ _ Hsh) as [[Hv _]|[_ Hc]];
      [exact Hv|].
    apply (In_keep is_control) in Hin; [|reflexivity].
    apply (In_prefix _ _ _ Hin) in Hc. cbn in Hc. intuition discriminate.
  - intros s' Hrun. rewrite Hrun in Hsh. cbn [verdict_of final] in Hsh.
    inversion Hsh as [| | |pre v tr Hpre Hacked]; subst.
    inversion Hacked as [| | | |k l j Hk Hj Hl Hb]; subst.
    inversion Hpre; subst. clear Hsh Hacked Hpre.
    split.
    + rewrite <- Hl. apply (f_equal length) in Hb.
      rewrite length_map, length_take in Hb. lia.
    + read_log. rewrite <- Hl, <- Hb, flat_map_map. reflexivity.
Qed.

(** C10.  With [len = 0], [i2c_read] and [i2c_write] do not touch the
    buffer: they run as they do on an empty buffer, which has no index
    to access, and [i2c_read] hands the buffer back as it was.  On a
    peripheral that answers every poll within [n] attempts they return
    [I2C_OK] after the idle wait, START, the address and the register
    number (and for [i2c_read] the repeated START and the read address),
    and STOP. *)
Theorem zero_length_transfer n fuel addr reg buf h :
  i2c_read fuel addr reg buf 0 (init h)
  = with_buffer buf (i2c_read fuel addr reg [] 0 (init h))
  /\ verdict_of (i2c_read fuel addr reg [] 0 (init h)) <> Faulted
  /\ i2c_write fuel addr reg buf 0 (init h)
     = i2c_write fuel addr reg [] 0 (init h)
  /\ verdict_of (i2c_write fuel addr reg [] 0 (init h)) <> Faulted
  /\ (responds n hw_idle ->
      (forall e, responds n (hw_status e)) ->
      responds n (hw_star1 I2C_STAR1_TXE) ->
      (n <= fuel)%nat -> (n <= S (Z.to_nat I2C_TIMEOUT))%nat ->
      (exists s',
         i2c_read fuel addr reg buf 0 (init h) = Ret (I2C_OK, buf) s'
         /\ progress (trace s')
            = [Busy false; SetBit I2C_CTLR1_START;
               Status I2C_EVENT_MASTER_MODE_SELECT true;
               Send (Z.land addr 0xFE);
               Status I2C_EVENT_MASTER_TRANSMITTER_MODE_SELECTED true;
               Send reg; Star1 I2C_STAR1_TXE true;
               SetBit I2C_CTLR1_START;
               Status I2C_EVENT_MASTER_MODE_SELECT true;
               Send (Z.lor addr 0x01);
               Status I2C_EVENT_MASTER_RECEIVER_MODE_SELECTED true;
               SetBit I2C_CTLR1_STOP])
      /\ (exists s',
           i2c_write fuel addr reg buf 0 (init h) = Ret I2C_OK s'
           /\ progress (trace s')
              = [Busy false; SetBit I2C_CTLR1_START;
                 Status I2C_EVENT_MASTER_MODE_SELECT true;
                 Send (Z.land addr 0xFE);
                 Status I2C_EVENT_MASTER_TRANSMITTER_MODE_SELECTED true;
                 Send reg; Star1 I2C_STAR1_TXE true;
                 Status I2C_EVENT_MASTER_BYTE_TRANSMITTED true;
                 SetBit I2C_CTLR1_STOP])).
Proof.
  assert (0 <= 255) as H255 by lia.
  pose proof (fun b => i2c_read_runs fuel addr reg b 0 (init h) H255)
    as Hread.
  pose proof (fun b => i2c_write_runs fuel addr reg b 0 (init h) H255)
    as Hwrite.
  split; [|split; [|split; [|split]]].
  - unfold i2c_read, with_buffer, bind.
    change (Z.to_nat 0) with 0%nat. cbn [read_bytes].
    change (0 <? 0) with false. cbn iota. unfold ret.
    repeat case_match; simplify_eq; reflexivity.
  - intros Hv. pose proof (runs_init _ _ _ (Hread [])) as Hsh.
    rewrite Hv in Hsh.
    inversion Hsh; subst; invert_shapes; cbn in *; lia.
  - unfold i2c_write, bind.
    change (Z.to_nat 0) with 0%nat. cbn [write_bytes].
    change (0 <? 0) with false. cbn iota. unfold ret.
    repeat case_match; simplify_eq; reflexivity.
  - intros Hv. pose proof (runs_init _ _ _ (Hwrite [])) as Hsh.
    rewrite Hv in Hsh.
    inversion Hsh; subst; invert_shapes; cbn in *; lia.
  - intros Hidle Hst Htxe Hfuel HT. split.
    + assert (verdict_of (i2c_read fuel addr reg buf 0 (init h))
              = Returned (I2C_OK, buf)) as Hv.
      { rewrite i2c_read_opening.
        apply (verdict_opening n) with (acks := true);
          try assumption; [apply Hst| |].
        { intros s1. apply (wait_status_timeout_live n);
            [apply Hst|lia|lia]. }
        intros s1. cbn [negb].
        eapply verdict_bind; [reflexivity|]. intros s2.
        eapply verdict_bind;
          [apply (wait_star1_live n); [apply Htxe|lia]|]. intros s3.
        change (1 <? 0) with false. cbn iota.
        eapply verdict_bind; [reflexivity|]. intros s4.
        eapply verdict_bind; [reflexivity|]. intros s5.
        eapply verdict_bind;
          [apply (wait_status_live n); [apply Hst|lia]|]. intros s6.
        eapply verdict_bind; [reflexivity|]. intros s7.
        eapply verdict_bind;
          [apply (wait_status_timeout_live n); [apply Hst|lia|lia]|].
        intros s8. cbn [negb].
        eapply verdict_bind; [reflexivity|]. intros s9.
        eapply verdict_bind; [reflexivity|]. intros s10.
        reflexivity. }
      apply verdict_ret in Hv as [s' Hrun]. exists s'.
      split; [exact Hrun|].
      pose proof (runs_init_ret _ _ _ _ _ (Hread buf) Hrun) as Hsh.
      inversion Hsh as [| | |pre v tr Hpre Hacked]; subst.
      inversion Hacked as [| | | | |k j i l Hk Hj Hi Hl Hb]; subst.
      inversion Hpre; subst. clear Hsh Hacked Hpre.
      destruct l; [|discriminate].
      read_log; first [reflexivity|lia].
    + assert (verdict_of (i2c_write fuel addr reg buf 0 (init h))
              = Returned I2C_OK) as Hv.
      { rewrite i2c_write_opening.
        apply (verdict_opening n) with (acks := true);
          try assumption; [apply Hst| |].
        { intros s1. apply (wait_status_timeout_live n);
            [apply Hst|lia|lia]. }
        intros s1. cbn [negb].
        eapply verdict_bind; [reflexivity|]. intros s2.
        eapply verdict_bind;
          [apply (wait_star1_live n); [apply Htxe|lia]|]. intros s3.
        eapply verdict_bind; [reflexivity|]. intros s4.
        eapply verdict_bind;
          [apply (wait_status_live n); [apply Hst|lia]|]. intros s5.
        eapply verdict_bind; [reflexivity|]. intros s6.
        reflexivity. }
      apply verdict_ret in Hv as [s' Hrun]. exists s'.
      split; [exact Hrun|].
      pose proof (runs_init_ret _ _ _ _ _ (Hwrite buf) Hrun) as Hsh.
      inversion Hsh as [| | |pre v tr Hpre Hacked]; subst.
      inversion Hacked as [| | | |k l j Hk Hj Hl Hb]; subst.
      inversion Hpre; subst. clear Hsh Hacked Hpre.
      destruct l; [|discriminate].
      read_log; reflexivity.
Qed.
End Claims.

(** * The claims on the simulated buses *)

(** C1 on a device that sends 0x1A5, 7, 9 to a four-byte buffer. *)
Lemma read_ok_fills_buffer_witness :
  0 <= 3 <= 255
  /\ read3_device = Ret (I2C_OK, [0xA5; 7; 9; 0xEE]) (final read3_device)
  /\ length (received (trace (final read3_device))) = Z.to_nat 3
  /\ length [0xA5; 7; 9; 0xEE] = length [0; 0; 0; 0xEE]
  /\ (forall i d,
        received (trace (final read3_device)) !! i = Some d ->
        [0xA5; 7; 9; 0xEE] !! i = Some (d mod 256))
  /\ (forall i, (Z.to_nat 3 <= i)%nat ->
        [0xA5; 7; 9; 0xEE] !! i = [0; 0; 0; 0xEE] !! i).
Proof.
  assert (0 <= 3 <= 255) as Hlen by lia.
  assert (read3_device = Ret (I2C_OK, [0xA5; 7; 9; 0xEE]) (final read3_device))
    as Hrun by (vm_compute; reflexivity).
  split; [exact Hlen|]. split; [exact Hrun|].
  exact (@read_ok_fills_buffer sim sim_device 5 0x43 0x10 [0; 0; 0; 0xEE] 3
           (sim0 [0x1A5; 7; 9]) _ _ Hlen Hrun).
Defined.

(** C2 as stated fails on a busy bus: [i2c_ping] returns
    [I2C_ERR_TIMEOUT] and has set neither START nor STOP. *)
Lemma ping_timeout_counterexample :
  ping_busy = Ret I2C_ERR_TIMEOUT (final ping_busy)
  /\ asserted I2C_CTLR1_START (trace (final ping_busy)) <> 1%nat
  /\ asserted I2C_CTLR1_STOP (trace (final ping_busy)) <> 1%nat.
Proof. vm_compute. repeat split; discriminate. Qed.

(** C2, amended, on a bus without a device. *)
Lemma ping_start_stop_count_witness :
  ping_absent = Ret I2C_ERR_NACK (final ping_absent)
  /\ asserted I2C_CTLR1_START (trace (final ping_absent)) = 1%nat
  /\ asserted I2C_CTLR1_STOP (trace (final ping_absent)) = 1%nat.
Proof.
  assert (ping_absent = Ret I2C_ERR_NACK (final ping_absent)) as Hrun
    by (vm_compute; reflexivity).
  split; [exact Hrun|].
  apply (@ping_start_stop_count sim sim_absent 1 0x43 (sim0 []) _ _ Hrun).
  discriminate.
Defined.

(** C3 on a bus that stays busy. *)
Lemma busy_bus_times_out_witness :
  (forall x, fst (@hw_busy sim sim_busy x) = true)
  /\ ping_busy = Ret I2C_ERR_TIMEOUT (final ping_busy)
  /\ trace (final ping_busy) = repeat (Busy true) 4.
Proof.
  assert (forall x, fst (@hw_busy sim sim_busy x) = true) as Hbusy
    by (intros x; reflexivity).
  split; [exact Hbusy|].
  destruct (@busy_bus_times_out sim sim_busy 0 0x43 0x10 [] 0 (sim0 []) Hbusy)
    as [[s' [Hrun Htr]] _].
  rewrite Hrun. split; [reflexivity|exact Htr].
Defined.

(** C4 on a bus that answers at once, with an address whose low bit
    is set: the bytes written are 0x42, the register number and 0x43. *)
Lemma address_direction_bit_witness :
  0 <= 2 <= 255
  /\ @responds sim 1 (@hw_idle sim sim_prompt)
  /\ sends (trace (final (@i2c_read sim sim_prompt 1 0x43 0x10 [0; 0; 0xEE]
                            2 (init (sim0 [5; 6])))))
     = [0x42; 0x10; 0x43].
Proof.
  assert (0 <= 2 <= 255) as Hlen by lia.
  assert (@responds sim 1 (@hw_idle sim sim_prompt)) as Hidle
    by (intros x; reflexivity).
  split; [exact Hlen|]. split; [exact Hidle|].
  refine (proj2 (proj2 (proj2
            (proj2 (proj2 (proj2 (proj2 (proj2 (proj2 (proj2
               (@address_direction_bit sim sim_prompt 1 1 0x43 0x10
                  [0; 0; 0xEE] 2 (sim0 [5; 6]) Hlen)))))))
             Hidle _ _ _))) _ _).
  - intros x. reflexivity.
  - lia.
  - vm_compute. lia.
  - intros x. reflexivity.
  - intros x. reflexivity.
Defined.

(** C5 on a bus without a device. *)
Lemma nack_without_stop_witness :
  0 <= 3 <= 255
  /\ read3_absent = Ret (I2C_ERR_NACK, [0; 0; 0]) (final read3_absent)
  /\ asserted I2C_CTLR1_STOP (trace (final read3_absent)) = 0%nat
  /\ write3_absent = Ret I2C_ERR_NACK (final write3_absent)
  /\ asserted I2C_CTLR1_STOP (trace (final write3_absent)) = 0%nat
  /\ responds 1 (@hw_idle sim sim_absent)
  /\ responds 1 (@hw_status sim sim_absent I2C_EVENT_MASTER_MODE_SELECT)
  /\ (forall x,
        fst (@hw_status sim sim_absent
               I2C_EVENT_MASTER_TRANSMITTER_MODE_SELECTED x) = false)
  /\ verdict_of ping_absent = Returned I2C_ERR_NACK.
Proof.
  assert (0 <= 3 <= 255) as Hlen by lia.
  assert (responds 1 (@hw_idle sim sim_absent)) as Hidle
    by (intros x; reflexivity).
  assert (responds 1 (@hw_status sim sim_absent I2C_EVENT_MASTER_MODE_SELECT))
    as Hms by (intros x; reflexivity).
  assert (forall x,
            fst (@hw_status sim sim_absent
                   I2C_EVENT_MASTER_TRANSMITTER_MODE_SELECTED x) = false)
    as Hnever by (intros x; reflexivity).
  assert (1 <= 1)%nat as Hfuel by lia.
  assert (1 <= S (Z.to_nat (@I2C_TIMEOUT sim sim_absent)))%nat as HT
    by (vm_compute; lia).
  assert (read3_absent = Ret (I2C_ERR_NACK, [0; 0; 0]) (final read3_absent))
    as Hread by (vm_compute; reflexivity).
  assert (write3_absent = Ret I2C_ERR_NACK (final write3_absent))
    as Hwrite by (vm_compute; reflexivity).
  split; [exact Hlen|]. split; [exact Hread|].
  split; [|split; [|split; [|split; [|split; [|split]]]]].
  - exact (proj1 (proj1
             (@nack_without_stop sim sim_absent 1 5 0x43 0x10 [0; 0; 0] 3
                (sim0 []) Hlen) _ _ Hread)).
  - exact Hwrite.
  - exact (proj1 (proj1 (proj2
             (@nack_without_stop sim sim_absent 1 1 0x43 0x10 [1; 2; 3] 3
                (sim0 []) Hlen)) _ Hwrite)).
  - exact Hidle.
  - exact Hms.
  - exact Hnever.
  - exact (proj2 (proj2 (proj1
             (proj2 (proj2 (proj2
                (@nack_without_stop sim sim_absent 1 1 0x43 0x10 [1; 2; 3] 3
                   (sim0 []) Hlen)))
                Hidle Hms Hfuel HT) Hnever))).
Defined.

(** C6 as stated fails on a bus without a device: with [I2C_TIMEOUT = 3],
    [i2c_ping] returns [I2C_ERR_NACK] after four polls, not three. *)
Lemma ping_nack_polls_counterexample :
  (forall x,
     fst (@hw_status sim sim_absent
            I2C_EVENT_MASTER_TRANSMITTER_MODE_SELECTED x) = false)
  /\ ping_absent = Ret I2C_ERR_NACK (final ping_absent)
  /\ @I2C_TIMEOUT sim sim_absent = 3
  /\ status_polls I2C_EVENT_MASTER_TRANSMITTER_MODE_SELECTED
       (trace (final ping_absent)) = 4%nat.
Proof.
  split; [intros x; reflexivity|]. vm_compute. repeat split.
Qed.

(** C6, amended, on a bus without a device. *)
Lemma ping_nack_poll_count_witness :
  responds 1 (@hw_idle sim sim_absent)
  /\ responds 1 (@hw_status sim sim_absent I2C_EVENT_MASTER_MODE_SELECT)
  /\ (forall x,
        fst (@hw_status sim sim_absent
               I2C_EVENT_MASTER_TRANSMITTER_MODE_SELECTED x) = false)
  /\ exists s',
       ping_absent = Ret I2C_ERR_NACK s'
       /\ Z.of_nat (status_polls I2C_EVENT_MASTER_TRANSMITTER_MODE_SELECTED
                      (trace s'))
          = 3 + 1.
Proof.
  assert (responds 1 (@hw_idle sim sim_absent)) as Hidle
    by (intros x; reflexivity).
  assert (responds 1 (@hw_status sim sim_absent I2C_EVENT_MASTER_MODE_SELECT))
    as Hms by (intros x; reflexivity).
  assert (forall x,
            fst (@hw_status sim sim_absent
                   I2C_EVENT_MASTER_TRANSMITTER_MODE_SELECTED x) = false)
    as Hnever by (intros x; reflexivity).
  split; [exact Hidle|]. split; [exact Hms|]. split; [exact Hnever|].
  apply (@ping_nack_poll_count sim sim_absent 1 1 0x43 (sim0 [])
           Hidle Hms Hnever).
  - lia.
  - vm_compute. lia.
  - vm_compute. discriminate.
Defined.

(** C7 on a device, reading three bytes and reading one. *)
Lemma read_ack_mode_witness :
  0 <= 3 <= 255
  /\ 1 < 3
  /\ controls (trace (final read3_device))
     = [SetBit I2C_CTLR1_START; SetBit I2C_CTLR1_ACK;
        SetBit I2C_CTLR1_START; SetBit I2C_CTLR1_STOP]
  /\ 0 <= 1 <= 255
  /\ 1 <= 1
  /\ ~ In (SetBit I2C_CTLR1_ACK) (trace (final read1_device)).
Proof.
  assert (0 <= 3 <= 255) as Hlen3 by lia.
  assert (1 < 3) as Hlt by lia.
  assert (0 <= 1 <= 255) as Hlen1 by lia.
  assert (1 <= 1) as Hle by lia.
  assert (read3_device = Ret (I2C_OK, [0xA5; 7; 9; 0xEE]) (final read3_device))
    as Hrun by (vm_compute; reflexivity).
  split; [exact Hlen3|]. split; [exact Hlt|]. split; [|split; [|split]].
  - exact (proj2 (proj2
             (@read_ack_mode sim sim_device 5 0x43 0x10 [0; 0; 0; 0xEE] 3
                (sim0 [0x1A5; 7; 9]) Hlen3) Hlt) _ _ Hrun).
  - exact Hlen1.
  - exact Hle.
  - exact (proj1 (proj1
             (@read_ack_mode sim sim_device 5 0x43 0x10 [0; 0xEE] 1
                (sim0 [7]) Hlen1) Hle)).
Defined.

(** C8 on a device, reading three bytes. *)
Lemma read_never_clears_ack_witness :
  0 <= 3 <= 255
  /\ ~ In (ClearBit I2C_CTLR1_ACK) (trace (final read3_device)).
Proof.
  assert (0 <= 3 <= 255) as Hlen by lia.
  split; [exact Hlen|].
  exact (proj1
           (@read_never_clears_ack sim sim_device 5 0x43 0x10 [0; 0; 0; 0xEE]
              3 (sim0 [0x1A5; 7; 9]) Hlen) I2C_CTLR1_ACK).
Defined.

(** C9 on a device, writing three bytes. *)
Lemma write_stop_after_last_byte_witness :
  0 <= 3 <= 255
  /\ write3_prompt = Ret I2C_OK (final write3_prompt)
  /\ progress (trace (final write3_prompt))
     = [Busy false; SetBit I2C_CTLR1_START;
        Status I2C_EVENT_MASTER_MODE_SELECT true; Send 0x42;
        Status I2C_EVENT_MASTER_TRANSMITTER_MODE_SELECTED true;
        Send 0x10; Star1 I2C_STAR1_TXE true;
        Star1 I2C_STAR1_TXE true; Send 1;
        Star1 I2C_STAR1_TXE true; Send 2;
        Star1 I2C_STAR1_TXE true; Send 3;
        Status I2C_EVENT_MASTER_BYTE_TRANSMITTED true;
        SetBit I2C_CTLR1_STOP].
Proof.
  assert (0 <= 3 <= 255) as Hlen by lia.
  assert (write3_prompt = Ret I2C_OK (final write3_prompt)) as Hrun
    by (vm_compute; reflexivity).
  split; [exact Hlen|]. split; [exact Hrun|].
  exact (proj2 (proj2 (proj2
           (@write_stop_after_last_byte sim sim_prompt 1 0x43 0x10 [1; 2; 3]
              3 (sim0 []) Hlen)) _ Hrun)).
Defined.

(** C10 on a device that answers at once. *)
Lemma zero_length_transfer_witness :
  responds 1 (@hw_idle sim sim_prompt)
  /\ (forall e, responds 1 (@hw_status sim sim_prompt e))
  /\ responds 1 (@hw_star1 sim sim_prompt I2C_STAR1_TXE)
  /\ (exists s',
        @i2c_read sim sim_prompt 1 0x43 0x10 [9; 9] 0 (init (sim0 []))
        = Ret (I2C_OK, [9; 9]) s'
        /\ progress (trace s')
           = [Busy false; SetBit I2C_CTLR1_START;
              Status I2C_EVENT_MASTER_MODE_SELECT true; Send 0x42;
              Status I2C_EVENT_MASTER_TRANSMITTER_MODE_SELECTED true;
              Send 0x10; Star1 I2C_STAR1_TXE true;
              SetBit I2C_CTLR1_START;
              Status I2C_EVENT_MASTER_MODE_SELECT true; Send 0x43;
              Status I2C_EVENT_MASTER_RECEIVER_MODE_SELECTED true;
              SetBit I2C_CTLR1_STOP])
  /\ (exists s',
        @i2c_write sim sim_prompt 1 0x43 0x10 [9; 9] 0 (init (sim0 []))
        = Ret I2C_OK s'
        /\ progress (trace s')
           = [Busy false; SetBit I2C_CTLR1_START;
              Status I2C_EVENT_MASTER_MODE_SELECT true; Send 0x42;
              Status I2C_EVENT_MASTER_TRANSMITTER_MODE_SELECTED true;
              Send 0x10; Star1 I2C_STAR1_TXE true;
              Status I2C_EVENT_MASTER_BYTE_TRANSMITTED true;
              SetBit I2C_CTLR1_STOP]).
Proof.
  assert (responds 1 (@hw_idle sim sim_prompt)) as Hidle
    by (intros x; reflexivity).
  assert (forall e, responds 1 (@hw_status sim sim_prompt e)) as Hst
    by (intros [] x; reflexivity).
  assert (responds 1 (@hw_star1 sim sim_prompt I2C_STAR1_TXE)) as Htxe
    by (intros x; reflexivity).
  split; [exact Hidle|]. split; [exact Hst|]. split; [exact Htxe|].
  apply (proj2 (proj2 (proj2 (proj2
           (@zero_length_transfer sim sim_prompt 1 1 0x43 0x10 [9; 9]
              (sim0 [])))))); try assumption.
  - lia.
  - vm_compute. lia.
Defined.

(** * Beyond the claims *)

(** ** Counting in a log *)

Lemma keep_app p tr tr' : keep p (tr ++ tr') = keep p tr ++ keep p tr'.
Proof. unfold keep. apply flat_map_app. Qed.

Lemma asserted_app b tr tr' :
  asserted b (tr ++ tr') = (asserted b tr + asserted b tr')%nat.
Proof. unfold asserted. rewrite keep_app. apply length_app. Qed.

Lemma sends_app tr tr' : sends (tr ++ tr') = sends tr ++ sends tr'.
Proof. unfold sends. apply flat_map_app. Qed.

Lemma progress_app tr tr' :
  progress (tr ++ tr') = progress tr ++ progress tr'.
Proof. unfold progress. apply keep_app. Qed.

Lemma length_keep_le p tr : (length (keep p tr) <= length tr)%nat.
Proof.
  unfold keep. induction tr as [|a tr IH]; cbn; [lia|].
  rewrite length_app. destruct (p a); cbn; lia.
Qed.

(** ** [i2c_ping], whole *)

Lemma ping_returned_progress T fuel addr r tr :
  ping_shape T fuel addr (Returned r) tr ->
  progress tr = ping_progress addr r.
Proof.
  intros Hsh. inversion Hsh; subst; invert_shapes; read_log; reflexivity.
Qed.

Lemma ping_returned_balance T fuel addr r tr :
  ping_shape T fuel addr (Returned r) tr ->
  asserted I2C_CTLR1_START tr = asserted I2C_CTLR1_STOP tr
  /\ (asserted I2C_CTLR1_STOP tr <= 1)%nat.
Proof.
  intros Hsh. inversion Hsh; subst; invert_shapes; read_log;
    split; first [reflexivity|cbn; lia].
Qed.

Lemma ping_hung_balance T fuel addr tr :
  ping_shape T fuel addr Hung tr ->
  asserted I2C_CTLR1_START tr = 1%nat /\ asserted I2C_CTLR1_STOP tr = 0%nat.
Proof.
  intros Hsh. inversion Hsh; subst; invert_shapes; read_log;
    split; reflexivity.
Qed.

(** ** [i2c_scan] *)

Lemma shiftl1_byte addr :
  0 <= addr < 0x7F -> Z.shiftl addr 1 mod 256 = 2 * addr.
Proof.
  intros Ha. rewrite Z.shiftl_mul_pow2 by lia.
  change (2 ^ 1) with 2. rewrite Z.mod_small; lia.
Qed.

Lemma land_even addr : 0 <= addr < 0x7F -> Z.land (2 * addr) 0xFE = 2 * addr.
Proof.
  intros Ha. apply Z.bits_inj'. intros n Hn.
  rewrite Z.land_spec.
  destruct (Z.testbit (2 * addr) n) eqn:Hbit; [|reflexivity].
  cbn [andb].
  destruct (Z.eq_dec n 0) as [->|Hn0].
  { rewrite Z.testbit_even_0 in Hbit. discriminate. }
  destruct (Z_lt_le_dec n 8) as [Hlt|Hge].
  - assert (n = 1 \/ n = 2 \/ n = 3 \/ n = 4 \/ n = 5 \/ n = 6 \/ n = 7)
      as Hcases by lia.
    destruct Hcases as [->|[->|[->|[->|[->|[->| ->]]]]]]; reflexivity.
  - exfalso. assert (Z.testbit (2 * addr) n = false) as Hf; [|congruence].
    apply Z.testbit_false; [lia|].
    assert (2 ^ 8 <= 2 ^ n) by (apply Z.pow_le_mono_r; lia).
    change (2 ^ 8) with 256 in *.
    rewrite Z.div_small by lia. reflexivity.
Qed.

Lemma scan_shape_not_faulted T fuel addr out tr :
  scan_shape T fuel addr out Faulted tr -> False.
Proof.
  remember Faulted as v eqn:Hv.
  induction 1; [discriminate|auto|discriminate].
Qed.

Section ScanLogic.
Context {HW : Type} `{!I2C_Peripheral HW}.
Implicit Types (s : state HW) (tr : list action).

Lemma scan_loop_runs n fuel addr out s :
  0 <= addr ->
  (Z.to_nat (0x7F - addr) <= n)%nat ->
  runs (scan_loop n fuel addr out) s
    (scan_shape (Z.to_nat I2C_TIMEOUT) fuel addr out).
Proof.
  revert addr out s. induction n as [|n IH]; intros addr out s Ha Hn.
  all: cbn [scan_loop]; destruct (addr <? 0x7F) eqn:Hlt.
  all: try (apply runs_ret; apply scan_end; lia).
  { lia. }
  rewrite shiftl1_byte by lia.
  eapply runs_bind; [apply i2c_ping_runs| | |].
  - intros r tr1 s1 Hping. cbn beta.
    replace ((addr + 1) mod 256) with (addr + 1)
      by (rewrite Z.mod_small; lia).
    eapply runs_weaken; [apply IH; lia|].
    intros v tr Hsh. cbn beta.
    eapply scan_probe; [lia|exact Hping|exact Hsh].
  - intros tr1 Hping. apply scan_stuck; [lia|exact Hping].
  - intros tr1 Hping. inversion Hping.
Qed.

Lemma i2c_scan_runs fuel s :
  runs (i2c_scan fuel) s (i2c_scan_shape (Z.to_nat I2C_TIMEOUT) fuel).
Proof.
  unfold i2c_scan.
  eapply runs_bind; [apply scan_loop_runs; [lia|cbn; lia]| | |].
  - intros out tr1 s1 Hsh. apply runs_ret. rewrite app_nil_r.
    cbn. exists out. split; [reflexivity|exact Hsh].
  - intros tr1 Hsh. exact Hsh.
  - intros tr1 Hsh. exact (scan_shape_not_faulted _ _ _ _ _ Hsh).
Qed.
End ScanLogic.

Lemma probes_cons addr :
  addr < 0x7F -> probes addr = 2 * addr :: probes (addr + 1).
Proof.
  intros Ha. unfold probes. rewrite seqZ_cons by lia. cbn [fmap list_fmap].
  do 3 f_equal; lia.
Qed.

Lemma scan_shape_sends T fuel addr out v tr :
  scan_shape T fuel addr out v tr -> 0 <= addr ->
  sends tr `sublist_of` probes addr.
Proof.
  induction 1 as [addr out Ha|addr out r tr v tr' Ha Hping Hsh IH
                 |addr out tr Ha Hping]; intros H0.
  - apply sublist_nil_l.
  - rewrite sends_app, probes_cons by lia.
    change (2 * addr :: probes (addr + 1))
      with ([2 * addr] ++ probes (addr + 1)).
    apply sublist_app; [|apply IH; lia].
    apply ping_sends in Hping. rewrite land_even in Hping by lia.
    destruct (sends tr) as [|d [|d' l]].
    + apply sublist_nil_l.
    + apply prefix_cons_inv_1 in Hping as ->. reflexivity.
    + apply prefix_cons_inv_2, prefix_nil_inv in Hping. discriminate.
  - rewrite probes_cons by lia.
    apply ping_sends in Hping. rewrite land_even in Hping by lia.
    destruct (sends tr) as [|d [|d' l]].
    + apply sublist_nil_l.
    + apply prefix_cons_inv_1 in Hping as ->.
      apply sublist_skip, sublist_nil_l.
    + apply prefix_cons_inv_2, prefix_nil_inv in Hping. discriminate.
Qed.

Lemma scan_shape_balance T fuel addr out v tr :
  scan_shape T fuel addr out v tr -> 0 <= addr ->
  (asserted I2C_CTLR1_STOP tr <= Z.to_nat (0x7F - addr))%nat
  /\ match v with
     | Returned _ =>
         asserted I2C_CTLR1_START tr = asserted I2C_CTLR1_STOP tr
     | Hung =>
         asserted I2C_CTLR1_START tr = S (asserted I2C_CTLR1_STOP tr)
     | Faulted => False
     end.
Proof.
  induction 1 as [addr out Ha|addr out r tr v tr' Ha Hping Hsh IH
                 |addr out tr Ha Hping]; intros H0.
  - split; [cbn; lia|reflexivity].
  - destruct (IH ltac:(lia)) as [Hle Hv].
    destruct (ping_returned_balance _ _ _ _ _ Hping) as [Heq H1].
    rewrite !asserted_app. split; [lia|].
    destruct v; [lia|lia|exact Hv].
  - destruct (ping_hung_balance _ _ _ _ Hping) as [-> ->].
    split; [lia|reflexivity].
Qed.

Lemma scan_shape_out T fuel addr out o tr :
  scan_shape T fuel addr out (Returned o) tr -> 0 <= addr ->
  o = out ++ (scan_line <$> acked tr).
Proof.
  remember (Returned o) as v eqn:Hv.
  induction 1 as [addr out Ha|addr out r tr v tr' Ha Hping Hsh IH
                 |addr out tr Ha Hping]; intros H0.
  - injection Hv as <-. cbn. rewrite app_nil_r. reflexivity.
  - rewrite (IH Hv) by lia.
    unfold acked. rewrite progress_app.
    rewrite (ping_returned_progress _ _ _ _ _ Hping).
    destruct r; cbn [ping_progress]; rewrite ?land_even by lia;
      destruct (decide _); try congruence; cbn;
      rewrite <- ?app_assoc; reflexivity.
  - discriminate.
Qed.

Lemma scan_shape_acked T fuel addr out v tr :
  scan_shape T fuel addr out v tr -> 0 <= addr ->
  acked tr `sublist_of` probes addr.
Proof.
  induction 1 as [addr out Ha|addr out r tr v tr' Ha Hping Hsh IH
                 |addr out tr Ha Hping]; intros H0.
  - apply sublist_nil_l.
  - unfold acked. rewrite progress_app.
    rewrite (ping_returned_progress _ _ _ _ _ Hping).
    rewrite probes_cons by lia. specialize (IH ltac:(lia)).
    destruct r; cbn [ping_progress]; rewrite ?land_even by lia; cbn.
    + apply sublist_skip, IH.
    + apply sublist_cons, IH.
    + apply sublist_cons, IH.
  - unfold acked. inversion Hping; subst; invert_shapes.
    read_log. cbn. apply sublist_nil_l.
Qed.

Lemma i2c_scan_shape_facts T fuel v tr :
  i2c_scan_shape T fuel v tr ->
  sends tr `sublist_of` (fun a => 2 * a) <$> seqZ 0 0x7F
  /\ (asserted I2C_CTLR1_STOP tr <= 127)%nat
  /\ match v with
     | Returned _ =>
         asserted I2C_CTLR1_START tr = asserted I2C_CTLR1_STOP tr
     | Hung => asserted I2C_CTLR1_START tr = S (asserted I2C_CTLR1_STOP tr)
     | Faulted => False
     end.
Proof.
  intros Hsh.
  assert (exists v' : verdict (list string),
            scan_shape T fuel 0 [scan_banner] v' tr
            /\ match v, v' with
               | Returned _, Returned _ | Hung, Hung => True
               | _, _ => False
               end) as (v' & Hsh' & Hv).
  { destruct v as [o| |]; cbn in Hsh.
    - destruct Hsh as (out & _ & Hsh). exists (Returned out). auto.
    - exists Hung. auto.
    - contradiction. }
  split; [exact (scan_shape_sends _ _ _ _ _ _ Hsh' (Z.le_refl 0))|].
  destruct (scan_shape_balance _ _ _ _ _ _ Hsh' (Z.le_refl 0)) as [Hle Hb].
  split; [exact Hle|].
  destruct v, v'; try contradiction; exact Hb.
Qed.

Section ScanClaims.
Context {HW : Type} `{!I2C_Peripheral HW}.
Implicit Types (h : HW) (s : state HW) (tr : list action).

(** X1.  In every run of [i2c_scan], complete or not, the bytes written
    to the data register are among 0x00, 0x02, ..., 0xFC, each at most
    once and in ascending order: bit 0 is clear, and 0xFE is never
    probed. *)
Theorem scan_probes_ascending fuel h :
  sends (trace (final (i2c_scan fuel (init h))))
    `sublist_of` (fun a => 2 * a) <$> seqZ 0 0x7F.
Proof.
  exact (proj1 (i2c_scan_shape_facts _ _ _ _
                  (runs_init _ _ _ (i2c_scan_runs fuel (init h))))).
Qed.

(** X2.  [i2c_scan] releases the bus: when it returns, the STOP bit was
    set as often as the START bit, at most 127 times; a run that hangs
    in a probe has set START once more than STOP; no run accesses
    memory out of bounds. *)
Theorem scan_releases_bus fuel h :
  let o := i2c_scan fuel (init h) in
  (asserted I2C_CTLR1_STOP (trace (final o)) <= 127)%nat
  /\ match verdict_of o with
     | Returned _ =>
         asserted I2C_CTLR1_START (trace (final o))
         = asserted I2C_CTLR1_STOP (trace (final o))
     | Hung =>
         asserted I2C_CTLR1_START (trace (final o))
         = S (asserted I2C_CTLR1_STOP (trace (final o)))
     | Faulted => False
     end.
Proof.
  exact (proj2 (i2c_scan_shape_facts _ _ _ _
                  (runs_init _ _ _ (i2c_scan_runs fuel (init h))))).
Qed.

(** X3.  When [i2c_scan] returns it has printed the banner, then one
    line for each address the log shows as acknowledged, in probe
    order, then the closing line; an address whose probe timed out or
    was not acknowledged is not reported. *)
Theorem scan_reports_acked fuel h o s' :
  i2c_scan fuel (init h) = Ret o s' ->
  o = scan_banner :: (scan_line <$> acked (trace s')) ++ [scan_done]
  /\ acked (trace s') `sublist_of` (fun a => 2 * a) <$> seqZ 0 0x7F.
Proof.
  intros Hrun.
  pose proof (runs_init_ret _ _ _ _ _ (i2c_scan_runs fuel (init h)) Hrun)
    as (out & -> & Hsh).
  split.
  - rewrite (scan_shape_out _ _ _ _ _ _ Hsh (Z.le_refl 0)). reflexivity.
  - exact (scan_shape_acked _ _ _ _ _ _ Hsh (Z.le_refl 0)).
Qed.

Lemma runs_init_returned {A} (m : M HW A) h a (R : list action -> Prop) :
  runs m (init h) (fun v tr => v = Returned a /\ R tr) ->
  exists s', m (init h) = Ret a s' /\ R (trace s').
Proof.
  intros (tr & Htr & Hv & HR). apply verdict_ret in Hv as [s' Hs'].
  rewrite Hs' in Htr. cbn in Htr. exists s'. rewrite Htr. auto.
Qed.

Lemma ping_busy_verdict fuel addr s :
  (forall x, fst (hw_busy x) = true) ->
  verdict_of (i2c_ping fuel addr s) = Returned I2C_ERR_TIMEOUT.
Proof.
  intros Hbusy. unfold i2c_ping.
  eapply verdict_bind; [apply wait_bus_idle_stuck; [exact Hbusy|lia]|].
  intros s1. reflexivity.
Qed.

Lemma scan_loop_busy n fuel addr out s :
  (forall x, fst (hw_busy x) = true) ->
  0 <= addr -> (Z.to_nat (0x7F - addr) <= n)%nat ->
  runs (scan_loop n fuel addr out) s
    (fun v tr =>
       v = Returned out
       /\ tr = repeat (Busy true)
                 (Z.to_nat (0x7F - addr) * S (Z.to_nat I2C_TIMEOUT))).
Proof.
  intros Hbusy. revert addr out s.
  induction n as [|n IH]; intros addr out s Ha Hn.
  all: cbn [scan_loop]; destruct (addr <? 0x7F) eqn:Hlt.
  all: try (apply runs_ret; split; [reflexivity|];
            replace (Z.to_nat (0x7F - addr)) with 0%nat by lia;
            reflexivity).
  { lia. }
  rewrite shiftl1_byte by lia.
  eapply runs_bind.
  - eapply runs_verdict; [apply i2c_ping_runs|].
    apply ping_busy_verdict, Hbusy.
  - intros r tr1 s1 [[= ->] Hsh]. cbn beta.
    replace ((addr + 1) mod 256) with (addr + 1)
      by (rewrite Z.mod_small; lia).
    destruct (decide _) as [|_]; [discriminate|].
    eapply runs_weaken; [apply IH; lia|].
    intros v tr [-> ->]. cbn beta. split; [reflexivity|].
    inversion Hsh as [tr0 Hop| | |]; subst. inversion Hop; subst.
    change (Busy true :: repeat (Busy true) (Z.to_nat I2C_TIMEOUT))
      with (repeat (Busy true) (S (Z.to_nat I2C_TIMEOUT))).
    rewrite <- repeat_app. f_equal.
    replace (Z.to_nat (0x7F - addr))
      with (S (Z.to_nat (0x7F - (addr + 1)))) by lia.
    rewrite Nat.mul_succ_l. lia.
  - intros tr1 [Hv _]. discriminate.
  - intros tr1 [Hv _]. discriminate.
Qed.

(** X4.  On a bus whose busy flag never clears, [i2c_scan] still
    returns, whatever the fuel: each of the 127 probes times out after
    [I2C_TIMEOUT + 1] busy polls, nothing else is done on the bus, and
    only the banner and the closing line are printed. *)
Theorem scan_busy_bus fuel h :
  (forall x, fst (hw_busy x) = true) ->
  exists s',
    i2c_scan fuel (init h) = Ret [scan_banner; scan_done] s'
    /\ trace s' = repeat (Busy true) (127 * S (Z.to_nat I2C_TIMEOUT)).
Proof.
  intros Hbusy.
  apply (runs_init_returned (i2c_scan fuel) h [scan_banner; scan_done]
           (fun tr => tr = repeat (Busy true)
                             (127 * S (Z.to_nat I2C_TIMEOUT)))).
  unfold i2c_scan.
  eapply runs_bind.
  - apply scan_loop_busy; [exact Hbusy|lia|cbn; lia].
  - intros out tr1 s1 [[= ->] ->]. apply runs_ret.
    rewrite app_nil_r. split; reflexivity.
  - intros tr1 [Hv _]. discriminate.
  - intros tr1 [Hv _]. discriminate.
Qed.
End ScanClaims.

(** X4 on a bus that stays busy. *)
Lemma scan_busy_bus_witness :
  (forall x, fst (@hw_busy sim sim_busy x) = true)
  /\ exists s',
       @i2c_scan sim sim_busy 0 (init (sim0 []))
       = Ret [scan_banner; scan_done] s'
       /\ trace s' = repeat (Busy true) (127 * 4).
Proof.
  assert (forall x, fst (@hw_busy sim sim_busy x) = true) as Hbusy
    by (intros x; reflexivity).
  split; [exact Hbusy|].
  exact (@scan_busy_bus sim sim_busy 0 (sim0 []) Hbusy).
Defined.

(** X3 on a bus with one device at wire address 0x42. *)
Lemma scan_reports_acked_witness :
  @i2c_scan sim sim_one 1 (init (sim0 []))
  = Ret [scan_banner; scan_line 0x42; scan_done]
      (final (@i2c_scan sim sim_one 1 (init (sim0 []))))
  /\ [scan_banner; scan_line 0x42; scan_done]
     = scan_banner
       :: (scan_line
             <$> acked (trace (final (@i2c_scan sim sim_one 1
                                        (init (sim0 []))))))
       ++ [scan_done].
Proof.
  assert (@i2c_scan sim sim_one 1 (init (sim0 []))
          = Ret [scan_banner; scan_line 0x42; scan_done]
              (final (@i2c_scan sim sim_one 1 (init (sim0 [])))))
    as Hrun by (vm_compute; reflexivity).
  split; [exact Hrun|].
  exact (proj1 (@scan_reports_acked sim sim_one 1 (sim0 []) _ _ Hrun)).
Defined.

(** ** Runs on a bus that answers *)

Lemma ping_probe_facts T fuel addr r tr :
  ping_shape T fuel addr (Returned r) tr -> r <> I2C_ERR_TIMEOUT ->
  sends tr = [Z.land addr 0xFE]
  /\ asserted I2C_CTLR1_START tr = 1%nat
  /\ asserted I2C_CTLR1_STOP tr = 1%nat.
Proof.
  intros Hsh Hr. inversion Hsh; subst; try congruence.
  all: invert_shapes; read_log; auto.
Qed.

Section Live.
Context {HW : Type} `{!I2C_Peripheral HW}.
Implicit Types (h : HW) (s : state HW) (tr : list action).

Lemma returns_bind {A B} (m : M HW A) (k : A -> M HW B) s
    (P : A -> Prop) (Q : B -> Prop) :
  (exists a, verdict_of (m s) = Returned a /\ P a) ->
  (forall a s1, P a -> exists b, verdict_of (k a s1) = Returned b /\ Q b) ->
  exists b, verdict_of (bind m k s) = Returned b /\ Q b.
Proof.
  intros (a & Hv & HP) Hk. unfold bind.
  destruct (m s); cbn in Hv; try discriminate.
  injection Hv as ->. apply Hk, HP.
Qed.

Lemma runs_returns {A} (m : M HW A) s (P : verdict A -> list action -> Prop)
    (Q : A -> Prop) :
  runs m s P ->
  (exists a, verdict_of (m s) = Returned a /\ Q a) ->
  runs m s (fun v tr => exists a, v = Returned a /\ Q a /\ P (Returned a) tr).
Proof.
  intros (tr & Htr & HP) (a & Hv & HQ). exists tr. rewrite Hv in *.
  split; [exact Htr|]. exists a. auto.
Qed.

(** A wait with a counter always returns. *)
Lemma timed_wait_returns e s :
  exists b,
    verdict_of (wait_status_timeout (Z.to_nat I2C_TIMEOUT) e I2C_TIMEOUT s)
    = Returned b.
Proof.
  destruct (wait_status_timeout_runs (Z.to_nat I2C_TIMEOUT) e I2C_TIMEOUT s
              (Nat.le_refl _)) as (tr & _ & Hsh).
  destruct (verdict_of _) as [b| |]; cbn in Hsh; [eauto|contradiction..].
Qed.

(** On a bus that is idle and starts, the opening reaches its
    continuation. *)
Lemma opening_live {A} n fuel addr (tmo : A) (k : bool -> M HW A) s :
  responds n hw_idle ->
  responds n (hw_status I2C_EVENT_MASTER_MODE_SELECT) ->
  (n <= fuel)%nat -> (n <= S (Z.to_nat I2C_TIMEOUT))%nat ->
  exists acks s1,
    verdict_of (opening fuel addr tmo k s) = verdict_of (k acks s1).
Proof.
  intros Hidle Hms Hfuel HT.
  unfold opening, bind.
  destruct (verdict_ret _ _
              (wait_bus_idle_live n (Z.to_nat I2C_TIMEOUT) I2C_TIMEOUT s
                 (Hidle _) HT (Nat.le_refl _))) as [s1 ->].
  cbn [negb]. unfold CTLR1_set at 1. cbn beta iota.
  match goal with
  | |- context [wait_status fuel ?e ?s2] =>
      destruct (verdict_ret _ _ (wait_status_live n fuel e s2 (Hms _) Hfuel))
        as [s3 ->]
  end.
  unfold DATAR_write at 1. cbn beta iota.
  match goal with
  | |- context [wait_status_timeout ?m ?e ?t ?s4] =>
      destruct (timed_wait_returns e s4) as [acks Hv];
      destruct (verdict_ret _ _ Hv) as [s5 ->]
  end.
  exists acks, s5. reflexivity.
Qed.

Lemma ping_probe_returns n fuel addr s :
  responds n hw_idle ->
  responds n (hw_status I2C_EVENT_MASTER_MODE_SELECT) ->
  (n <= fuel)%nat -> (n <= S (Z.to_nat I2C_TIMEOUT))%nat ->
  exists r, verdict_of (i2c_ping fuel addr s) = Returned r
            /\ r <> I2C_ERR_TIMEOUT.
Proof.
  intros Hidle Hms Hfuel HT. rewrite i2c_ping_opening.
  destruct (opening_live n fuel addr I2C_ERR_TIMEOUT
              (fun acked =>
                 let* _ := CTLR1_set I2C_CTLR1_STOP in
                 ret (if acked then I2C_OK else I2C_ERR_NACK)) s
              Hidle Hms Hfuel HT) as (acks & s1 & Hv).
  exists (if acks then I2C_OK else I2C_ERR_NACK).
  split; [exact Hv|destruct acks; discriminate].
Qed.

Lemma scan_loop_live n0 n fuel addr out s :
  responds n0 hw_idle ->
  responds n0 (hw_status I2C_EVENT_MASTER_MODE_SELECT) ->
  (n0 <= fuel)%nat -> (n0 <= S (Z.to_nat I2C_TIMEOUT))%nat ->
  0 <= addr -> (Z.to_nat (0x7F - addr) <= n)%nat ->
  runs (scan_loop n fuel addr out) s
    (fun v tr =>
       (exists o, v = Returned o)
       /\ sends tr = probes addr
       /\ asserted I2C_CTLR1_START tr = Z.to_nat (0x7F - addr)
       /\ asserted I2C_CTLR1_STOP tr = Z.to_nat (0x7F - addr)).
Proof.
  intros Hidle Hms Hfuel HT. revert addr out s.
  induction n as [|n IH]; intros addr out s Ha Hn.
  all: cbn [scan_loop]; destruct (addr <? 0x7F) eqn:Hlt.
  all: try (apply runs_ret; unfold probes; rewrite seqZ_nil by lia;
            replace (Z.to_nat (0x7F - addr)) with 0%nat by lia;
            split; [eexists; reflexivity|auto]).
  { lia. }
  rewrite shiftl1_byte by lia.
  eapply runs_bind.
  - eapply runs_returns; [apply i2c_ping_runs|].
    apply (ping_probe_returns n0); assumption.
  - intros r tr1 s1 (r' & [= <-] & Hr & Hsh). cbn beta.
    replace ((addr + 1) mod 256) with (addr + 1)
      by (rewrite Z.mod_small; lia).
    eapply runs_weaken; [apply IH; lia|].
    intros v tr (Hv & Hs & Hstart & Hstop). cbn beta.
    destruct (ping_probe_facts _ _ _ _ _ Hsh Hr) as (Hs1 & Hstart1 & Hstop1).
    rewrite sends_app, !asserted_app, Hs, Hs1, Hstart, Hstart1, Hstop, Hstop1.
    rewrite land_even, (probes_cons addr) by lia.
    split; [exact Hv|]. split; [reflexivity|]. split; lia.
  - intros tr1 (r & Hv & _). discriminate.
  - intros tr1 (r & Hv & _). discriminate.
Qed.

(** X5.  On a bus that is idle and starts within the polls the driver
    allows, [i2c_scan] returns after probing every address from 0x00 to
    0x7E, in order and each once, with 127 START and 127 STOP
    conditions. *)
Theorem scan_live_bus n fuel h :
  responds n hw_idle ->
  responds n (hw_status I2C_EVENT_MASTER_MODE_SELECT) ->
  (n <= fuel)%nat -> (n <= S (Z.to_nat I2C_TIMEOUT))%nat ->
  exists o s',
    i2c_scan fuel (init h) = Ret o s'
    /\ sends (trace s') = (fun a => 2 * a) <$> seqZ 0 0x7F
    /\ asserted I2C_CTLR1_START (trace s') = 127%nat
    /\ asserted I2C_CTLR1_STOP (trace s') = 127%nat.
Proof.
  intros Hidle Hms Hfuel HT.
  assert (runs (i2c_scan fuel) (init h)
            (fun v tr =>
               (exists o, v = Returned o)
               /\ sends tr = (fun a => 2 * a) <$> seqZ 0 0x7F
               /\ asserted I2C_CTLR1_START tr = 127%nat
               /\ asserted I2C_CTLR1_STOP tr = 127%nat)) as Hruns.
  { unfold i2c_scan. eapply runs_bind.
    - apply (scan_loop_live n); try assumption; [lia|cbn; lia].
    - intros out tr1 s1 (_ & Hs & Hstart & Hstop). apply runs_ret.
      rewrite app_nil_r. split; [eexists; reflexivity|].
      split; [exact Hs|]. split; assumption.
    - intros tr1 ([o Hv] & _). discriminate.
    - intros tr1 ([o Hv] & _). discriminate. }
  apply runs_init in Hruns. destruct Hruns as ([o Hv] & Hrest).
  apply verdict_ret in Hv as [s' Hs']. exists o, s'.
  rewrite Hs' in Hrest. split; [exact Hs'|exact Hrest].
Qed.
End Live.

(** X5 on the bus with one device. *)
Lemma scan_live_bus_witness :
  @responds sim 1 (@hw_idle sim sim_one)
  /\ exists o s',
       @i2c_scan sim sim_one 1 (init (sim0 [])) = Ret o s'
       /\ sends (trace s') = (fun a => 2 * a) <$> seqZ 0 0x7F
       /\ asserted I2C_CTLR1_START (trace s') = 127%nat
       /\ asserted I2C_CTLR1_STOP (trace s') = 127%nat.
Proof.
  assert (@responds sim 1 (@hw_idle sim sim_one)) as Hidle
    by (intros x; reflexivity).
  split; [exact Hidle|].
  apply (@scan_live_bus sim sim_one 1 1 (sim0 []) Hidle).
  - intros x. reflexivity.
  - lia.
  - vm_compute. lia.
Defined.

(** ** [i2c_ping], [i2c_read] and [i2c_write], whole *)

Lemma In_keep_inv p a tr : In a (keep p tr) -> In a tr.
Proof.
  unfold keep. intros Hin. apply in_flat_map in Hin as (x & Hx & Hin).
  destruct (p x); [|contradiction]. destruct Hin as [->|[]]. exact Hx.
Qed.

Lemma length_flat_map_repeat {X} (f : action -> list X) a k :
  length (flat_map f (repeat a k)) = (k * length (f a))%nat.
Proof.
  induction k as [|k IH]; cbn; [reflexivity|].
  rewrite length_app, IH. reflexivity.
Qed.

(** Drop the parts of a projection that keep nothing of a loop's log. *)
Ltac drop_silent :=
  repeat match goal with
         | |- context [@flat_map ?A ?B ?f ?l] =>
             progress change (@flat_map A B f l)
               with (@flat_map A B (fun _ => @nil B) l)
         end;
  rewrite ?flat_map_none.

(** Count the polls of one kind in a log built from the shapes. *)
Ltac count_polls :=
  read_log; rewrite ?flat_map_none; unfold idle, await;
  rewrite ?flat_map_app, ?length_app, ?length_flat_map_repeat;
  repeat match goal with
         | |- context [@length ?X ?l] =>
             progress (let n := eval vm_compute in (@length X l) in
                       change (@length X l) with n)
         end;
  lia.

Lemma opening_polls T fuel addr e tr :
  opening_shape T fuel addr e tr ->
  (busy_polls tr <= S T)%nat
  /\ (status_polls I2C_EVENT_MASTER_TRANSMITTER_MODE_SELECTED tr <= S T)%nat
  /\ status_polls I2C_EVENT_MASTER_RECEIVER_MODE_SELECTED tr = 0%nat.
Proof.
  intros Hsh. destruct Hsh; repeat split; count_polls.
Qed.

Lemma ping_polls T fuel addr v tr :
  ping_shape T fuel addr v tr ->
  (busy_polls tr <= S T)%nat
  /\ (status_polls I2C_EVENT_MASTER_TRANSMITTER_MODE_SELECTED tr <= S T)%nat
  /\ (status_polls I2C_EVENT_MASTER_RECEIVER_MODE_SELECTED tr <= S T)%nat.
Proof.
  intros Hsh. inversion Hsh; subst; invert_shapes; repeat split; count_polls.
Qed.

Lemma read_polls T fuel addr reg buf len v tr :
  read_shape T fuel addr reg buf len v tr ->
  (busy_polls tr <= S T)%nat
  /\ (status_polls I2C_EVENT_MASTER_TRANSMITTER_MODE_SELECTED tr <= S T)%nat
  /\ (status_polls I2C_EVENT_MASTER_RECEIVER_MODE_SELECTED tr <= S T)%nat.
Proof.
  intros Hsh. inversion Hsh; subst; invert_shapes; repeat split; count_polls.
Qed.

Lemma write_polls T fuel addr reg buf len v tr :
  write_shape T fuel addr reg buf len v tr ->
  (busy_polls tr <= S T)%nat
  /\ (status_polls I2C_EVENT_MASTER_TRANSMITTER_MODE_SELECTED tr <= S T)%nat
  /\ (status_polls I2C_EVENT_MASTER_RECEIVER_MODE_SELECTED tr <= S T)%nat.
Proof.
  intros Hsh. inversion Hsh; subst; invert_shapes; repeat split; count_polls.
Qed.

Lemma read_error_shape T fuel addr reg buf len r b tr :
  read_shape T fuel addr reg buf len (Returned (r, b)) tr ->
  r <> I2C_OK -> b = buf /\ received tr = [].
Proof.
  intros Hsh Hr. inversion Hsh; subst; invert_shapes; try congruence.
  all: split; [reflexivity|read_log; rewrite ?flat_map_none; reflexivity].
Qed.

Lemma read_fault_shape T fuel addr reg buf len tr :
  read_shape T fuel addr reg buf len Faulted tr ->
  (length buf < Z.to_nat len)%nat
  /\ length (received tr) = S (length buf).
Proof.
  intros Hsh. inversion Hsh; subst; invert_shapes.
  split; [lia|].
  read_log; rewrite ?flat_map_one, ?length_app, ?length_map; cbn; lia.
Qed.

Lemma write_fault_shape T fuel addr reg buf len tr :
  write_shape T fuel addr reg buf len Faulted tr ->
  (length buf < Z.to_nat len)%nat
  /\ sends tr = Z.land addr 0xFE :: reg :: buf.
Proof.
  intros Hsh. inversion Hsh; subst; invert_shapes.
  split; [rewrite ?length_map; lia|].
  read_log; rewrite ?flat_map_one; reflexivity.
Qed.

Lemma read_ok_shape T fuel addr reg buf len b tr :
  read_shape T fuel addr reg buf len (Returned (I2C_OK, b)) tr ->
  progress tr
  = [Busy false; SetBit I2C_CTLR1_START;
     Status I2C_EVENT_MASTER_MODE_SELECT true;
     Send (Z.land addr 0xFE);
     Status I2C_EVENT_MASTER_TRANSMITTER_MODE_SELECTED true;
     Send reg; Star1 I2C_STAR1_TXE true]
    ++ ack_mode len
    ++ [SetBit I2C_CTLR1_START;
        Status I2C_EVENT_MASTER_MODE_SELECT true;
        Send (Z.lor addr 0x01);
        Status I2C_EVENT_MASTER_RECEIVER_MODE_SELECTED true]
    ++ flat_map (fun d => [Star1 I2C_STAR1_RXNE true; Recv d]) (received tr)
    ++ [SetBit I2C_CTLR1_STOP].
Proof.
  intros Hsh. inversion Hsh; subst; invert_shapes.
  read_log; rewrite ?flat_map_one, ?flat_map_map; reflexivity.
Qed.

Lemma write_ok_shape T fuel addr reg buf len tr :
  write_shape T fuel addr reg buf len (Returned I2C_OK) tr ->
  sends tr = Z.land addr 0xFE :: reg :: take (Z.to_nat len) buf
  /\ asserted I2C_CTLR1_STOP tr = 1%nat.
Proof.
  intros Hsh. inversion Hsh; subst; invert_shapes.
  split; read_log; [|drop_silent; reflexivity].
  rewrite flat_map_one.
  repeat match goal with H : _ = _ |- _ => rewrite H end. reflexivity.
Qed.

Lemma read_ok_counts T fuel addr reg buf len b tr :
  read_shape T fuel addr reg buf len (Returned (I2C_OK, b)) tr ->
  length (received tr) = Z.to_nat len
  /\ asserted I2C_CTLR1_STOP tr = 1%nat.
Proof.
  intros Hsh. inversion Hsh; subst; invert_shapes.
  split; read_log;
    first [ rewrite flat_map_one, length_map; assumption
          | drop_silent; reflexivity ].
Qed.

Section Whole.
Context {HW : Type} `{!I2C_Peripheral HW}.
Implicit Types (h : HW) (s : state HW) (tr : list action).

(** X6.  The log of a call of [i2c_ping] that returns, read without the
    failed polls, is fixed by the result: nothing for a timeout;
    otherwise the idle bus, START, the start event, the address with
    bit 0 clear, the address event when the result is [I2C_OK], and
    STOP.  The result is [I2C_OK] exactly when the address event was
    seen. *)
Theorem ping_log fuel addr h r s' :
  i2c_ping fuel addr (init h) = Ret r s' ->
  progress (trace s') = ping_progress addr r
  /\ (r = I2C_OK
      <-> In (Status I2C_EVENT_MASTER_TRANSMITTER_MODE_SELECTED true)
            (trace s')).
Proof.
  intros Hrun.
  pose proof (ping_returned_progress _ _ _ _ _
                (runs_init_ret _ _ _ _ _
                   (i2c_ping_runs fuel addr (init h)) Hrun)) as Hp.
  split; [exact Hp|]. split.
  - intros ->. apply (In_keep_inv (fun a => negb (stalled a))).
    fold (progress (trace s')). rewrite Hp. cbn. auto 10.
  - intros Hin. apply (In_keep (fun a => negb (stalled a))) in Hin;
      [|reflexivity].
    fold (progress (trace s')) in Hin. rewrite Hp in Hin.
    destruct r; cbn in Hin; [reflexivity|..]; intuition discriminate.
Qed.

(** X7.  Every wait that has a counter is bounded: in any run of
    [i2c_ping], [i2c_read] or [i2c_write], complete or not, the busy
    flag is tested at most [I2C_TIMEOUT + 1] times, and each of the two
    address events is asked for at most [I2C_TIMEOUT + 1] times. *)
Theorem timed_waits_bounded fuel addr reg buf len h tr :
  0 <= len <= 255 ->
  tr = trace (final (i2c_ping fuel addr (init h)))
  \/ tr = trace (final (i2c_read fuel addr reg buf len (init h)))
  \/ tr = trace (final (i2c_write fuel addr reg buf len (init h))) ->
  let T := S (Z.to_nat I2C_TIMEOUT) in
  (busy_polls tr <= T)%nat
  /\ (status_polls I2C_EVENT_MASTER_TRANSMITTER_MODE_SELECTED tr <= T)%nat
  /\ (status_polls I2C_EVENT_MASTER_RECEIVER_MODE_SELECTED tr <= T)%nat.
Proof.
  intros Hlen [->|[->| ->]] T.
  - exact (ping_polls _ _ _ _ _
             (runs_init _ _ _ (i2c_ping_runs fuel addr (init h)))).
  - exact (read_polls _ _ _ _ _ _ _ _
             (runs_init _ _ _
                (i2c_read_runs fuel addr reg buf len (init h) (proj2 Hlen)))).
  - exact (write_polls _ _ _ _ _ _ _ _
             (runs_init _ _ _
                (i2c_write_runs fuel addr reg buf len (init h) (proj2 Hlen)))).
Qed.

(** X8.  When [i2c_read] returns an error, the buffer is as the caller
    passed it and the data register was never read. *)
Theorem read_error_keeps_buffer fuel addr reg buf len h r b s' :
  0 <= len <= 255 ->
  i2c_read fuel addr reg buf len (init h) = Ret (r, b) s' ->
  r <> I2C_OK ->
  b = buf /\ received (trace s') = [].
Proof.
  intros Hlen Hrun Hr.
  exact (read_error_shape _ _ _ _ _ _ _ _ _
           (runs_init_ret _ _ _ _ _
              (i2c_read_runs fuel addr reg buf len (init h) (proj2 Hlen))
              Hrun) Hr).
Qed.

(** X9.  With a buffer of at least [len] elements, no run of [i2c_read]
    or [i2c_write] accesses memory outside the buffer. *)
Theorem transfer_in_bounds fuel addr reg buf len h :
  0 <= len <= 255 ->
  (Z.to_nat len <= length buf)%nat ->
  verdict_of (i2c_read fuel addr reg buf len (init h)) <> Faulted
  /\ verdict_of (i2c_write fuel addr reg buf len (init h)) <> Faulted.
Proof.
  intros Hlen Hbuf. split; intros Hv.
  - pose proof (runs_init _ _ _
                  (i2c_read_runs fuel addr reg buf len (init h) (proj2 Hlen)))
      as Hsh.
    rewrite Hv in Hsh. apply read_fault_shape in Hsh. lia.
  - pose proof (runs_init _ _ _
                  (i2c_write_runs fuel addr reg buf len (init h) (proj2 Hlen)))
      as Hsh.
    rewrite Hv in Hsh. apply write_fault_shape in Hsh. lia.
Qed.

(** X10.  A run that leaves the buffer was given fewer than [len]
    elements.  [i2c_read] then has read the data register once more than
    the buffer has elements: the store of that byte is the access out of
    bounds.  [i2c_write] has sent the address, the register number and
    the whole buffer: the load of the next byte is the access out of
    bounds. *)
Theorem transfer_out_of_bounds fuel addr reg buf len h :
  0 <= len <= 255 ->
  (verdict_of (i2c_read fuel addr reg buf len (init h)) = Faulted ->
   (length buf < Z.to_nat len)%nat
   /\ length (received
                (trace (final (i2c_read fuel addr reg buf len (init h)))))
      = S (length buf))
  /\ (verdict_of (i2c_write fuel addr reg buf len (init h)) = Faulted ->
      (length buf < Z.to_nat len)%nat
      /\ sends (trace (final (i2c_write fuel addr reg buf len (init h))))
         = Z.land addr 0xFE :: reg :: buf).
Proof.
  intros Hlen. split; intros Hv.
  - pose proof (runs_init _ _ _
                  (i2c_read_runs fuel addr reg buf len (init h) (proj2 Hlen)))
      as Hsh.
    rewrite Hv in Hsh. exact (read_fault_shape _ _ _ _ _ _ _ Hsh).
  - pose proof (runs_init _ _ _
                  (i2c_write_runs fuel addr reg buf len (init h) (proj2 Hlen)))
      as Hsh.
    rewrite Hv in Hsh. exact (write_fault_shape _ _ _ _ _ _ _ Hsh).
Qed.

(** X11.  The log of a call of [i2c_read] that returns [I2C_OK], read
    without the failed polls: the opening with the write address, the
    register number, the acknowledge bit when [len > 1], the repeated
    START with the read address, then for each byte a read of [STAR1]
    that finds the receive register full and the read of the data
    register, then STOP, last. *)
Theorem read_ok_log fuel addr reg buf len h b s' :
  0 <= len <= 255 ->
  i2c_read fuel addr reg buf len (init h) = Ret (I2C_OK, b) s' ->
  progress (trace s')
  = [Busy false; SetBit I2C_CTLR1_START;
     Status I2C_EVENT_MASTER_MODE_SELECT true;
     Send (Z.land addr 0xFE);
     Status I2C_EVENT_MASTER_TRANSMITTER_MODE_SELECTED true;
     Send reg; Star1 I2C_STAR1_TXE true]
    ++ ack_mode len
    ++ [SetBit I2C_CTLR1_START;
        Status I2C_EVENT_MASTER_MODE_SELECT true;
        Send (Z.lor addr 0x01);
        Status I2C_EVENT_MASTER_RECEIVER_MODE_SELECTED true]
    ++ flat_map (fun d => [Star1 I2C_STAR1_RXNE true; Recv d])
         (received (trace s'))
    ++ [SetBit I2C_CTLR1_STOP].
Proof.
  intros Hlen Hrun.
  exact (read_ok_shape _ _ _ _ _ _ _ _
           (runs_init_ret _ _ _ _ _
              (i2c_read_runs fuel addr reg buf len (init h) (proj2 Hlen))
              Hrun)).
Qed.
End Whole.

(** ** Waits without a counter *)

Section Unbounded.
Context {HW : Type} `{!I2C_Peripheral HW}.
Implicit Types (h : HW) (s : state HW) (tr : list action).

Lemma wait_status_never fuel e s :
  (forall x, fst (hw_status e x) = false) ->
  verdict_of (wait_status fuel e s) = Hung.
Proof.
  intros Hnever. revert s. induction fuel as [|fuel IH]; intros s.
  { reflexivity. }
  cbn [wait_status]. unfold bind, i2c_status.
  pose proof (Hnever (hw s)) as Hb.
  destruct (hw_status e (hw s)) as [b x]; cbn in Hb; subst b.
  cbn [negb]. apply IH.
Qed.

(** The opening on an idle bus where the start event never shows. *)
Lemma opening_mute {A} n fuel addr (tmo : A) (k : bool -> M HW A) s :
  responds n hw_idle -> (n <= S (Z.to_nat I2C_TIMEOUT))%nat ->
  (forall x, fst (hw_status I2C_EVENT_MASTER_MODE_SELECT x) = false) ->
  runs (opening fuel addr tmo k) s
    (fun v tr =>
       v = Hung
       /\ status_polls I2C_EVENT_MASTER_MODE_SELECT tr = fuel
       /\ controls tr = [SetBit I2C_CTLR1_START]
       /\ sends tr = []).
Proof.
  intros Hidle HT Hnever. unfold opening.
  eapply runs_bind.
  - eapply runs_verdict; [apply wait_bus_idle_runs; lia|].
    apply (wait_bus_idle_live n); [apply Hidle|lia|lia].
  - intros a tr1 s1 [[= ->] Hsh]. cbn [negb].
    cbn in Hsh. destruct Hsh as (j & Hj & ->).
    apply runs_seq_set. intros s2. cbn beta.
    eapply runs_bind.
    + eapply runs_verdict; [apply wait_status_runs|].
      apply wait_status_never, Hnever.
    + intros a tr2 s3 [Hv _]. discriminate.
    + intros tr2 [_ Hsh]. cbn in Hsh. subst tr2.
      split; [reflexivity|]. split; [count_polls|].
      split; read_log; reflexivity.
    + intros tr2 [Hv _]. discriminate.
  - intros tr1 [Hv _]. discriminate.
  - intros tr1 [Hv _]. discriminate.
Qed.

(** X12.  The wait for the start event has no counter: on an idle bus
    where [i2c_status] never reports [I2C_EVENT_MASTER_MODE_SELECT],
    [i2c_ping], [i2c_read] and [i2c_write] do not return.  However many
    polls they are given they use them all, after setting the START bit
    and before writing anything to the data register. *)
Theorem start_wait_unbounded n fuel addr reg buf len h :
  responds n hw_idle -> (n <= S (Z.to_nat I2C_TIMEOUT))%nat ->
  (forall x, fst (hw_status I2C_EVENT_MASTER_MODE_SELECT x) = false) ->
  hung_in_start fuel (i2c_ping fuel addr (init h))
  /\ hung_in_start fuel (i2c_read fuel addr reg buf len (init h))
  /\ hung_in_start fuel (i2c_write fuel addr reg buf len (init h)).
Proof.
  intros Hidle HT Hnever.
  rewrite i2c_ping_opening, i2c_read_opening, i2c_write_opening.
  split; [|split].
  all: exact (runs_init _ _ _
                (opening_mute n fuel addr _ _ (init h) Hidle HT Hnever)).
Qed.
End Unbounded.

(** X12 on the bus that reports no event, with 9 polls. *)
Lemma start_wait_unbounded_witness :
  @responds sim 1 (@hw_idle sim sim_mute)
  /\ @hung_in_start sim _ 9
       (@i2c_write sim sim_mute 9 0x43 0x10 [1; 2] 2 (init (sim0 []))).
Proof.
  assert (@responds sim 1 (@hw_idle sim sim_mute)) as Hidle
    by (intros x; reflexivity).
  split; [exact Hidle|].
  refine (proj2 (proj2 (@start_wait_unbounded sim sim_mute 1 9 0x43 0x10
                          [1; 2] 2 (sim0 []) Hidle _ _))).
  - vm_compute. lia.
  - intros x. reflexivity.
Defined.

(** ** Transfers that complete *)

Section Complete.
Context {HW : Type} `{!I2C_Peripheral HW}.
Implicit Types (h : HW) (s : state HW) (tr : list action).

(** On a bus that is idle, starts and acknowledges, the opening reaches
    its continuation with the address acknowledged. *)
Lemma opening_acked {A} n fuel addr (tmo : A) (k : bool -> M HW A) s :
  responds n hw_idle ->
  responds n (hw_status I2C_EVENT_MASTER_MODE_SELECT) ->
  responds n (hw_status I2C_EVENT_MASTER_TRANSMITTER_MODE_SELECTED) ->
  (n <= fuel)%nat -> (n <= S (Z.to_nat I2C_TIMEOUT))%nat ->
  exists s1, verdict_of (opening fuel addr tmo k s) = verdict_of (k true s1).
Proof.
  intros Hidle Hms Htx Hfuel HT. unfold opening, bind.
  destruct (verdict_ret _ _
              (wait_bus_idle_live n (Z.to_nat I2C_TIMEOUT) I2C_TIMEOUT s
                 (Hidle _) HT (Nat.le_refl _))) as [s1 ->].
  cbn [negb]. unfold CTLR1_set at 1. cbn beta iota.
  match goal with
  | |- context [wait_status fuel ?e ?s2] =>
      destruct (verdict_ret _ _ (wait_status_live n fuel e s2 (Hms _) Hfuel))
        as [s3 ->]
  end.
  unfold DATAR_write at 1. cbn beta iota.
  match goal with
  | |- context [wait_status_timeout ?m ?e ?t ?s4] =>
      destruct (verdict_ret _ _
                  (wait_status_timeout_live n m e t s4 (Htx _) HT
                     (Nat.le_refl _))) as [s5 ->]
  end.
  exists s5. reflexivity.
Qed.

Lemma read_bytes_live n0 n fuel len c buf s :
  responds n0 (hw_star1 I2C_STAR1_RXNE) -> (n0 <= fuel)%nat ->
  0 <= c -> len <= 255 ->
  (Z.to_nat len <= length buf)%nat -> (Z.to_nat (len - c) <= n)%nat ->
  exists b, verdict_of (read_bytes n fuel len c buf s) = Returned b
            /\ length b = length buf.
Proof.
  intros Hrx Hfuel. revert c buf s.
  induction n as [|n IH]; intros c buf s Hc Hlen Hbuf Hn.
  all: cbn [read_bytes]; destruct (c <? len) eqn:Hlt.
  all: try (exists buf; split; reflexivity).
  { lia. }
  replace (c =? len) with false by lia.
  eapply returns_bind with (P := fun _ => True).
  { exists tt. split; [reflexivity|exact I]. }
  intros _ s1 _.
  eapply returns_bind with (P := fun _ => True).
  { exists tt. split; [|exact I].
    apply (wait_star1_live n0); [apply Hrx|exact Hfuel]. }
  intros _ s2 _.
  eapply returns_bind with (P := fun _ => True).
  { unfold DATAR_read. destruct (hw_datar_read (hw s2)) as [d x].
    exists d. split; [reflexivity|exact I]. }
  intros d s3 _.
  eapply returns_bind with (P := fun b => length b = length buf).
  { unfold buf_store. destruct (decide _) as [_|Hout]; [|lia].
    eexists. split; [reflexivity|]. apply length_insert. }
  intros b s4 Hb. rewrite Z.mod_small by lia.
  destruct (IH (c + 1) b s4) as (b' & Hv & Hb'); try lia.
  exists b'. split; [exact Hv|congruence].
Qed.

Lemma write_bytes_live n0 n fuel len c buf s :
  responds n0 (hw_star1 I2C_STAR1_TXE) -> (n0 <= fuel)%nat ->
  0 <= c -> len <= 255 ->
  (Z.to_nat len <= length buf)%nat -> (Z.to_nat (len - c) <= n)%nat ->
  verdict_of (write_bytes n fuel len c buf s) = Returned tt.
Proof.
  intros Htx Hfuel. revert c s.
  induction n as [|n IH]; intros c s Hc Hlen Hbuf Hn.
  all: cbn [write_bytes]; destruct (c <? len) eqn:Hlt.
  all: try reflexivity.
  { lia. }
  eapply verdict_bind.
  { apply (wait_star1_live n0); [apply Htx|exact Hfuel]. }
  intros s1. unfold buf_load.
  destruct (decide _) as [_|Hout]; [|lia].
  destruct (lookup_lt_is_Some_2 buf (Z.to_nat c)) as [v Hv]; [lia|].
  rewrite Hv.
  eapply verdict_bind; [reflexivity|]. intros s2.
  eapply verdict_bind; [reflexivity|]. intros s3.
  rewrite Z.mod_small by lia. apply IH; lia.
Qed.

(** X13.  On a bus that is idle, starts and acknowledges the address
    within the polls the driver allows, [i2c_ping] returns [I2C_OK]. *)
Theorem ping_acknowledged n fuel addr h :
  responds n hw_idle ->
  responds n (hw_status I2C_EVENT_MASTER_MODE_SELECT) ->
  responds n (hw_status I2C_EVENT_MASTER_TRANSMITTER_MODE_SELECTED) ->
  (n <= fuel)%nat -> (n <= S (Z.to_nat I2C_TIMEOUT))%nat ->
  exists s', i2c_ping fuel addr (init h) = Ret I2C_OK s'.
Proof.
  intros Hidle Hms Htx Hfuel HT. apply verdict_ret.
  rewrite i2c_ping_opening.
  destruct (opening_acked n fuel addr I2C_ERR_TIMEOUT
              (fun acked =>
                 let* _ := CTLR1_set I2C_CTLR1_STOP in
                 ret (if acked then I2C_OK else I2C_ERR_NACK)) (init h)
              Hidle Hms Htx Hfuel HT) as (s1 & ->).
  reflexivity.
Qed.

(** X14.  On a peripheral that answers every poll within the polls the
    driver allows, [i2c_write] with a buffer of at least [len] bytes
    returns [I2C_OK], having written to the data register the address
    with bit 0 clear, the register number and the first [len] bytes of
    the buffer, and having set the STOP bit once. *)
Theorem write_completes n fuel addr reg buf len h :
  0 <= len <= 255 ->
  (Z.to_nat len <= length buf)%nat ->
  responds n hw_idle ->
  (forall e, responds n (hw_status e)) ->
  responds n (hw_star1 I2C_STAR1_TXE) ->
  (n <= fuel)%nat -> (n <= S (Z.to_nat I2C_TIMEOUT))%nat ->
  exists s',
    i2c_write fuel addr reg buf len (init h) = Ret I2C_OK s'
    /\ sends (trace s') = Z.land addr 0xFE :: reg :: take (Z.to_nat len) buf
    /\ asserted I2C_CTLR1_STOP (trace s') = 1%nat.
Proof.
  intros Hlen Hbuf Hidle Hst Htxe Hfuel HT.
  assert (verdict_of (i2c_write fuel addr reg buf len (init h))
          = Returned I2C_OK) as Hv.
  { rewrite i2c_write_opening.
    destruct (opening_acked n fuel addr I2C_ERR_TIMEOUT
                (fun acked =>
                   if negb acked then ret I2C_ERR_NACK else
                   let* _ := DATAR_write reg in
                   let* _ := wait_star1 fuel I2C_STAR1_TXE in
                   let* _ := write_bytes (Z.to_nat len) fuel len 0 buf in
                   let* _ := wait_status fuel
                               I2C_EVENT_MASTER_BYTE_TRANSMITTED in
                   let* _ := CTLR1_set I2C_CTLR1_STOP in
                   ret I2C_OK) (init h)
                Hidle (Hst _) (Hst _) Hfuel HT) as (s1 & ->).
    cbn [negb].
    eapply verdict_bind; [reflexivity|]. intros s2.
    eapply verdict_bind; [apply (wait_star1_live n); [apply Htxe|lia]|].
    intros s3.
    eapply verdict_bind.
    { apply (write_bytes_live n); try assumption; lia. }
    intros s4.
    eapply verdict_bind; [apply (wait_status_live n); [apply Hst|lia]|].
    intros s5.
    eapply verdict_bind; [reflexivity|]. intros s6. reflexivity. }
  apply verdict_ret in Hv as [s' Hrun]. exists s'. split; [exact Hrun|].
  pose proof (runs_init_ret _ _ _ _ _
                (i2c_write_runs fuel addr reg buf len (init h) (proj2 Hlen))
                Hrun) as Hsh.
  exact (write_ok_shape _ _ _ _ _ _ _ Hsh).
Qed.

(** X15.  On a peripheral that answers every poll within the polls the
    driver allows, [i2c_read] with a buffer of at least [len] bytes
    returns [I2C_OK] and a buffer of the same length, after reading the
    data register [len] times and setting the STOP bit once. *)
Theorem read_completes n fuel addr reg buf len h :
  0 <= len <= 255 ->
  (Z.to_nat len <= length buf)%nat ->
  responds n hw_idle ->
  (forall e, responds n (hw_status e)) ->
  (forall f, responds n (hw_star1 f)) ->
  (n <= fuel)%nat -> (n <= S (Z.to_nat I2C_TIMEOUT))%nat ->
  exists b s',
    i2c_read fuel addr reg buf len (init h) = Ret (I2C_OK, b) s'
    /\ length b = length buf
    /\ length (received (trace s')) = Z.to_nat len
    /\ asserted I2C_CTLR1_STOP (trace s') = 1%nat.
Proof.
  intros Hlen Hbuf Hidle Hst Hfl Hfuel HT.
  assert (exists rb,
            verdict_of (i2c_read fuel addr reg buf len (init h))
            = Returned rb
            /\ fst rb = I2C_OK /\ length (snd rb) = length buf)
    as ([r b] & Hv & Hr & Hb).
  { rewrite i2c_read_opening.
    match goal with
    | |- context [opening fuel addr ?tmo ?k (init h)] =>
        destruct (opening_acked n fuel addr tmo k (init h)
                    Hidle (Hst _) (Hst _) Hfuel HT) as (s1 & ->)
    end.
    cbn [negb].
    eapply returns_bind with (P := fun _ => True).
    { exists tt. split; [reflexivity|exact I]. }
    intros _ s2 _.
    eapply returns_bind with (P := fun _ => True).
    { exists tt. split; [|exact I].
      apply (wait_star1_live n); [apply Hfl|lia]. }
    intros _ s3 _.
    eapply returns_bind with (P := fun _ => True).
    { exists tt. split; [destruct (1 <? len); reflexivity|exact I]. }
    intros _ s4 _.
    eapply returns_bind with (P := fun _ => True).
    { exists tt. split; [reflexivity|exact I]. }
    intros _ s5 _.
    eapply returns_bind with (P := fun _ => True).
    { exists tt. split; [|exact I].
      apply (wait_status_live n); [apply Hst|lia]. }
    intros _ s6 _.
    eapply returns_bind with (P := fun _ => True).
    { exists tt. split; [reflexivity|exact I]. }
    intros _ s7 _.
    eapply returns_bind with (P := fun a => a = true).
    { exists true. split; [|reflexivity].
      apply (wait_status_timeout_live n); [apply Hst|lia|lia]. }
    intros a s8 ->. cbn [negb].
    eapply returns_bind with (P := fun b => length b = length buf).
    { apply (read_bytes_live n); try assumption; try lia. apply Hfl. }
    intros b s9 Hb.
    eapply returns_bind with (P := fun _ => True).
    { exists tt. split; [reflexivity|exact I]. }
    intros _ s10 _.
    exists (I2C_OK, b). split; [reflexivity|]. split; [reflexivity|exact Hb]. }
  cbn in Hr, Hb. subst r.
  apply verdict_ret in Hv as [s' Hrun]. exists b, s'.
  split; [exact Hrun|]. split; [exact Hb|].
  pose proof (runs_init_ret _ _ _ _ _
                (i2c_read_runs fuel addr reg buf len (init h) (proj2 Hlen))
                Hrun) as Hsh.
  exact (read_ok_counts _ _ _ _ _ _ _ _ Hsh).
Qed.
End Complete.

(** ** The properties above on the simulated buses *)

(** X6 on the bus with one device, at its address. *)
Lemma ping_log_witness :
  @i2c_ping sim sim_one 1 0x42 (init (sim0 []))
  = Ret I2C_OK (final (@i2c_ping sim sim_one 1 0x42 (init (sim0 []))))
  /\ progress (trace (final (@i2c_ping sim sim_one 1 0x42 (init (sim0 [])))))
     = ping_progress 0x42 I2C_OK.
Proof.
  assert (@i2c_ping sim sim_one 1 0x42 (init (sim0 []))
          = Ret I2C_OK (final (@i2c_ping sim sim_one 1 0x42 (init (sim0 [])))))
    as Hrun by (vm_compute; reflexivity).
  split; [exact Hrun|].
  exact (proj1 (@ping_log sim sim_one 1 0x42 (sim0 []) _ _ Hrun)).
Defined.

(** X7 on a read from a bus without a device. *)
Lemma timed_waits_bounded_witness :
  0 <= 3 <= 255
  /\ (busy_polls (trace (final read3_absent)) <= 4)%nat
  /\ (status_polls I2C_EVENT_MASTER_TRANSMITTER_MODE_SELECTED
        (trace (final read3_absent)) <= 4)%nat
  /\ (status_polls I2C_EVENT_MASTER_RECEIVER_MODE_SELECTED
        (trace (final read3_absent)) <= 4)%nat.
Proof.
  assert (0 <= 3 <= 255) as Hlen by lia.
  split; [exact Hlen|].
  exact (@timed_waits_bounded sim sim_absent 5 0x43 0x10 [0; 0; 0] 3
           (sim0 []) _ Hlen (or_intror (or_introl eq_refl))).
Defined.

(** X8 on a read from a bus without a device. *)
Lemma read_error_keeps_buffer_witness :
  0 <= 3 <= 255
  /\ read3_absent = Ret (I2C_ERR_NACK, [0; 0; 0]) (final read3_absent)
  /\ I2C_ERR_NACK <> I2C_OK
  /\ received (trace (final read3_absent)) = [].
Proof.
  assert (0 <= 3 <= 255) as Hlen by lia.
  assert (read3_absent = Ret (I2C_ERR_NACK, [0; 0; 0]) (final read3_absent))
    as Hrun by (vm_compute; reflexivity).
  assert (I2C_ERR_NACK <> I2C_OK) as Hr by discriminate.
  split; [exact Hlen|]. split; [exact Hrun|]. split; [exact Hr|].
  exact (proj2 (@read_error_keeps_buffer sim sim_absent 5 0x43 0x10 [0; 0; 0]
                  3 (sim0 []) _ _ _ Hlen Hrun Hr)).
Defined.

(** X9 on a read of three bytes into a buffer of four. *)
Lemma transfer_in_bounds_witness :
  0 <= 3 <= 255
  /\ (Z.to_nat 3 <= length [0; 0; 0; 0xEE])%nat
  /\ verdict_of read3_device <> Faulted.
Proof.
  assert (0 <= 3 <= 255) as Hlen by lia.
  assert (Z.to_nat 3 <= length [0; 0; 0; 0xEE])%nat as Hbuf
    by (vm_compute; lia).
  split; [exact Hlen|]. split; [exact Hbuf|].
  exact (proj1 (@transfer_in_bounds sim sim_device 5 0x43 0x10
                  [0; 0; 0; 0xEE] 3 (sim0 [0x1A5; 7; 9]) Hlen Hbuf)).
Defined.

(** X10 on a read of two bytes into a buffer of one. *)
Lemma transfer_out_of_bounds_witness :
  0 <= 2 <= 255
  /\ verdict_of (@i2c_read sim sim_prompt 1 0x43 0x10 [0] 2
                   (init (sim0 [5; 6]))) = Faulted
  /\ length (received
               (trace (final (@i2c_read sim sim_prompt 1 0x43 0x10 [0] 2
                                (init (sim0 [5; 6])))))) = 2%nat.
Proof.
  assert (0 <= 2 <= 255) as Hlen by lia.
  assert (verdict_of (@i2c_read sim sim_prompt 1 0x43 0x10 [0] 2
                        (init (sim0 [5; 6]))) = Faulted) as Hv
    by (vm_compute; reflexivity).
  split; [exact Hlen|]. split; [exact Hv|].
  exact (proj2 (proj1 (@transfer_out_of_bounds sim sim_prompt 1 0x43 0x10
                         [0] 2 (sim0 [5; 6]) Hlen) Hv)).
Defined.

(** X11 on a read of three bytes. *)
Lemma read_ok_log_witness :
  0 <= 3 <= 255
  /\ read3_device
     = Ret (I2C_OK, [0xA5; 7; 9; 0xEE]) (final read3_device)
  /\ progress (trace (final read3_device))
     = [Busy false; SetBit I2C_CTLR1_START;
        Status I2C_EVENT_MASTER_MODE_SELECT true;
        Send (Z.land 0x43 0xFE);
        Status I2C_EVENT_MASTER_TRANSMITTER_MODE_SELECTED true;
        Send 0x10; Star1 I2C_STAR1_TXE true]
       ++ ack_mode 3
       ++ [SetBit I2C_CTLR1_START;
           Status I2C_EVENT_MASTER_MODE_SELECT true;
           Send (Z.lor 0x43 0x01);
           Status I2C_EVENT_MASTER_RECEIVER_MODE_SELECTED true]
       ++ flat_map (fun d => [Star1 I2C_STAR1_RXNE true; Recv d])
            (received (trace (final read3_device)))
       ++ [SetBit I2C_CTLR1_STOP].
Proof.
  assert (0 <= 3 <= 255) as Hlen by lia.
  assert (read3_device
          = Ret (I2C_OK, [0xA5; 7; 9; 0xEE]) (final read3_device))
    as Hrun by (vm_compute; reflexivity).
  split; [exact Hlen|]. split; [exact Hrun|].
  exact (@read_ok_log sim sim_device 5 0x43 0x10 [0; 0; 0; 0xEE] 3
           (sim0 [0x1A5; 7; 9]) _ _ Hlen Hrun).
Defined.

(** X13 on the bus that answers at once. *)
Lemma ping_acknowledged_witness :
  @responds sim 1 (@hw_idle sim sim_prompt)
  /\ exists s', @i2c_ping sim sim_prompt 1 0x43 (init (sim0 []))
                = Ret I2C_OK s'.
Proof.
  assert (@responds sim 1 (@hw_idle sim sim_prompt)) as Hidle
    by (intros x; reflexivity).
  split; [exact Hidle|].
  apply (@ping_acknowledged sim sim_prompt 1 1 0x43 (sim0 []) Hidle).
  - intros x. reflexivity.
  - intros x. reflexivity.
  - lia.
  - vm_compute. lia.
Defined.

(** X14 on the bus that answers at once. *)
Lemma write_completes_witness :
  0 <= 3 <= 255
  /\ @responds sim 1 (@hw_idle sim sim_prompt)
  /\ exists s',
       write3_prompt = Ret I2C_OK s'
       /\ sends (trace s') = Z.land 0x43 0xFE :: 0x10 :: take (Z.to_nat 3)
                                                         [1; 2; 3]
       /\ asserted I2C_CTLR1_STOP (trace s') = 1%nat.
Proof.
  assert (0 <= 3 <= 255) as Hlen by lia.
  assert (@responds sim 1 (@hw_idle sim sim_prompt)) as Hidle
    by (intros x; reflexivity).
  split; [exact Hlen|]. split; [exact Hidle|].
  apply (@write_completes sim sim_prompt 1 1 0x43 0x10 [1; 2; 3] 3 (sim0 [])
           Hlen).
  - vm_compute. lia.
  - exact Hidle.
  - intros [] x; reflexivity.
  - intros x. reflexivity.
  - lia.
  - vm_compute. lia.
Defined.

(** X15 on the bus that answers at once. *)
Lemma read_completes_witness :
  0 <= 2 <= 255
  /\ @responds sim 1 (@hw_idle sim sim_prompt)
  /\ exists b s',
       @i2c_read sim sim_prompt 1 0x43 0x10 [0; 0; 0xEE] 2
         (init (sim0 [5; 6])) = Ret (I2C_OK, b) s'
       /\ length b = length [0; 0; 0xEE]
       /\ length (received (trace s')) = Z.to_nat 2
       /\ asserted I2C_CTLR1_STOP (trace s') = 1%nat.
Proof.
  assert (0 <= 2 <= 255) as Hlen by lia.
  assert (@responds sim 1 (@hw_idle sim sim_prompt)) as Hidle
    by (intros x; reflexivity).
  split; [exact Hlen|]. split; [exact Hidle|].
  apply (@read_completes sim sim_prompt 1 1 0x43 0x10 [0; 0; 0xEE] 2
           (sim0 [5; 6]) Hlen).
  - vm_compute. lia.
  - exact Hidle.
  - intros [] x; reflexivity.
  - intros f x. reflexivity.
  - lia.
  - vm_compute. lia.
Defined.

(** ** [i2c_init] *)

Lemma standard_divisor_nonzero clk :
  0 < clk <= 100000 -> u32 (2 * clk) <> 0.
Proof. intros Hclk. unfold u32. rewrite Z.mod_small; lia. Qed.

(** Three is odd: tripling a rate that is not zero does not wrap to
    zero. *)
Lemma fast_divisor_nonzero clk : 0 < clk < 2 ^ 32 -> u32 (3 * clk) <> 0.
Proof.
  intros Hclk Hz. unfold u32 in Hz.
  apply Z.mod_divide in Hz; [|lia].
  apply Z.gauss in Hz; [|reflexivity].
  apply Z.divide_pos_le in Hz; lia.
Qed.


Section InitLogic.
Context {HW : Type} `{!Registers HW} `{!I2C_Config}.

Lemma i2c_init_shape clk_rate (m : machine HW) :
  exists l,
    accesses (machine_of (i2c_init clk_rate m)) = accesses m ++ l
    /\ init_shape clk_rate (returned (i2c_init clk_rate m)) l.
Proof.
  unfold i2c_init, reg_or, reg_andnot, load, store, udiv, and_then, done.
  cbn [regs accesses].
  repeat match goal with
         | |- context [hw_load ?r ?x] =>
             destruct (hw_load r x) as [? ?]; cbn [regs accesses]
         end.
  destruct (I2C_PRERATE =? 0) eqn:Hpre.
  { pose (x := fun n => nth n [z; z0; z1; z2; z3; z4; z5; z6; z7] 0).
    exists (setup_accesses x). split.
    - cbn. rewrite <- !app_assoc. reflexivity.
    - apply init_prerate_zero. lia. }
  apply Z.eqb_neq in Hpre. cbn [regs accesses].
  assert (clock_divisor clk_rate
          = if clk_rate <=? 100000 then u32 (2 * clk_rate)
            else u32 (3 * clk_rate)) as Hdiv by reflexivity.
  destruct (clk_rate <=? 100000) eqn:Hstd;
    match goal with
    | |- context [u32 ?d =? 0] => destruct (u32 d =? 0) eqn:Hzero
    end; cbn [regs accesses].
  1, 3: pose (x := fun n => nth n [z; z0; z1; z2; z3; z4; z5; z6; z7] 0);
    exists (setup_accesses x ++ [Store I2C1_CTLR2 (ctlr2_value (x 8%nat))]);
    (split; [cbn; rewrite <- !app_assoc; reflexivity|]);
    apply init_divisor_zero; lia.
  all: destruct (hw_load _ _) as [z8 h8]; cbn [regs accesses].
  all: pose (x := fun n => nth n [z; z0; z1; z2; z3; z4; z5; z6; z7; z8] 0).
  all: exists (setup_accesses x ++ [Store I2C1_CTLR2 (ctlr2_value (x 8%nat))]
               ++ enable_accesses x clk_rate).
  all: split; [|apply init_done; lia].
  all: unfold enable_accesses, ckcfgr_value; rewrite Hdiv, Hstd.
  all: cbn; rewrite <- !app_assoc; reflexivity.
Qed.
End InitLogic.

Lemma clock_divisor_nonzero clk :
  0 < clk < 2 ^ 32 -> clock_divisor clk <> 0.
Proof.
  intros Hclk. unfold clock_divisor.
  destruct (Z.leb_spec clk 100000).
  - apply standard_divisor_nonzero. lia.
  - apply fast_divisor_nonzero. exact Hclk.
Qed.

Lemma u16_spec x n :
  0 <= n -> Z.testbit (u16 x) n = (n <? 16) && Z.testbit x n.
Proof.
  intros Hn. unfold u16. destruct (Z.ltb_spec n 16).
  - rewrite Z.mod_pow2_bits_low by lia. reflexivity.
  - rewrite Z.mod_pow2_bits_high by lia. reflexivity.
Qed.

Lemma small_bits m n : 0 <= m < 2 ^ 16 -> 16 <= n -> Z.testbit m n = false.
Proof.
  intros Hm Hn. rewrite <- (Z.mod_small m (2 ^ 16)) by lia.
  apply Z.mod_pow2_bits_high. lia.
Qed.

Lemma land_lor_same x m : Z.land (Z.lor x m) m = m.
Proof.
  apply Z.bits_inj'. intros n Hn. rewrite Z.land_spec, Z.lor_spec.
  destruct (Z.testbit x n), (Z.testbit m n); reflexivity.
Qed.

Lemma land_andnot_same x m : Z.land (Z.land x (Z.lnot m)) m = 0.
Proof.
  apply Z.bits_inj'. intros n Hn.
  rewrite !Z.land_spec, Z.lnot_spec, Z.bits_0 by lia.
  destruct (Z.testbit x n), (Z.testbit m n); reflexivity.
Qed.

(** Rewrite the bits of a value built from masks. *)
Ltac mask_bits :=
  repeat first
    [ rewrite Z.land_spec
    | rewrite Z.lor_spec
    | rewrite Z.lnot_spec by lia
    | rewrite u16_spec by lia
    | rewrite Z.bits_0 ].

Section InitFacts.
Context `{!I2C_Config}.

Lemma init_shape_done clk r l :
  init_shape clk (Some r) l ->
  r = I2C_OK
  /\ store_order l
     = [RCC_APB2PCENR; RCC_APB1PCENR;
        I2C_PORT_CFGLR; I2C_PORT_CFGLR; I2C_PORT_CFGLR; I2C_PORT_CFGLR;
        RCC_APB1PRSTR; RCC_APB1PRSTR;
        I2C1_CTLR2; I2C1_CKCFGR; I2C1_CTLR1].
Proof.
  intros Hsh. inversion Hsh; subst. split; reflexivity.
Qed.

Lemma init_shape_failed clk l :
  init_shape clk None l ->
  (I2C_PRERATE = 0 \/ clock_divisor clk = 0)
  /\ store_order l
     `prefix_of` [RCC_APB2PCENR; RCC_APB1PCENR;
                  I2C_PORT_CFGLR; I2C_PORT_CFGLR; I2C_PORT_CFGLR;
                  I2C_PORT_CFGLR; RCC_APB1PRSTR; RCC_APB1PRSTR; I2C1_CTLR2]
  /\ (I2C_PRERATE <> 0 ->
      store_order l
      = [RCC_APB2PCENR; RCC_APB1PCENR;
         I2C_PORT_CFGLR; I2C_PORT_CFGLR; I2C_PORT_CFGLR;
         I2C_PORT_CFGLR; RCC_APB1PRSTR; RCC_APB1PRSTR; I2C1_CTLR2]).
Proof.
  intros Hsh. inversion Hsh; subst.
  - split; [left; assumption|]. split; [|congruence].
    cbn. solve_prefix.
  - split; [right; assumption|]. split; [|reflexivity].
    cbn. solve_prefix.
Qed.

Lemma init_shape_pulse clk r l :
  init_shape clk (Some r) l ->
  (exists v1 v2,
     stored RCC_APB1PRSTR l = [v1; v2]
     /\ Z.land v1 RCC_APB1Periph_I2C1 = RCC_APB1Periph_I2C1
     /\ Z.land v2 RCC_APB1Periph_I2C1 = 0)
  /\ (exists v,
        stored I2C1_CTLR1 l = [v]
        /\ Z.land v I2C_CTLR1_PE = I2C_CTLR1_PE
        /\ last l = Some (Store I2C1_CTLR1 v)).
Proof.
  intros Hsh. inversion Hsh as [| |x Hpre Hdiv]; subst. split.
  - exists (Z.lor (x 6%nat) RCC_APB1Periph_I2C1),
      (Z.land (x 7%nat) (Z.lnot RCC_APB1Periph_I2C1)).
    split; [reflexivity|]. split; [apply land_lor_same|apply land_andnot_same].
  - exists (Z.lor (x 9%nat) I2C_CTLR1_PE).
    split; [reflexivity|]. split; [apply land_lor_same|reflexivity].
Qed.

Lemma ckcfgr_value_fields clk :
  0 <= I2C_CKCFGR_CCR < 2 ^ 16 ->
  0 <= I2C_CKCFGR_FS < 2 ^ 16 ->
  Z.land I2C_CKCFGR_CCR I2C_CKCFGR_FS = 0 ->
  Z.land (ckcfgr_value clk) I2C_CKCFGR_FS
  = (if clk <=? 100000 then 0 else I2C_CKCFGR_FS)
  /\ Z.land (ckcfgr_value clk) I2C_CKCFGR_CCR
     = Z.land (FUNCONF_SYSTEM_CORE_CLOCK / clock_divisor clk) I2C_CKCFGR_CCR.
Proof.
  intros Hccr Hfs Hdisj.
  assert (forall n, 0 <= n ->
            Z.testbit I2C_CKCFGR_CCR n && Z.testbit I2C_CKCFGR_FS n = false)
    as Hd.
  { intros n Hn. rewrite <- Z.land_spec, Hdisj. apply Z.bits_0. }
  unfold ckcfgr_value.
  set (q := FUNCONF_SYSTEM_CORE_CLOCK / clock_divisor clk).
  split; destruct (clk <=? 100000).
  all: apply Z.bits_inj'; intros n Hn.
  all: mask_bits.
  all: specialize (Hd n Hn).
  all: destruct (Z.ltb_spec n 16) as [Hlt|Hge];
    [|rewrite (small_bits I2C_CKCFGR_CCR n Hccr Hge) in *;
      rewrite (small_bits I2C_CKCFGR_FS n Hfs Hge) in *].
  all: destruct (Z.testbit q n), (Z.testbit I2C_CKCFGR_CCR n),
         (Z.testbit I2C_CKCFGR_FS n); cbn in *; congruence.
Qed.

Lemma ctlr2_value_fields x :
  0 <= I2C_CTLR2_FREQ < 2 ^ 16 ->
  Z.land (ctlr2_value x) I2C_CTLR2_FREQ
  = Z.land (FUNCONF_SYSTEM_CORE_CLOCK / I2C_PRERATE) I2C_CTLR2_FREQ
  /\ Z.land (ctlr2_value x) (Z.lnot I2C_CTLR2_FREQ)
     = Z.land (u16 x) (Z.lnot I2C_CTLR2_FREQ).
Proof.
  intros Hfreq. unfold ctlr2_value.
  set (q := FUNCONF_SYSTEM_CORE_CLOCK / I2C_PRERATE).
  split.
  all: apply Z.bits_inj'; intros n Hn.
  all: mask_bits.
  all: destruct (Z.ltb_spec n 16) as [Hlt|Hge];
    [|rewrite (small_bits I2C_CTLR2_FREQ n Hfreq Hge) in *].
  all: destruct (Z.testbit q n), (Z.testbit x n),
         (Z.testbit I2C_CTLR2_FREQ n); reflexivity.
Qed.

Lemma init_shape_clock clk r l :
  init_shape clk (Some r) l ->
  stored I2C1_CKCFGR l = [ckcfgr_value clk]
  /\ exists x, In (Load I2C1_CTLR2 x) l
               /\ stored I2C1_CTLR2 l = [ctlr2_value x].
Proof.
  intros Hsh. inversion Hsh as [| |x Hpre Hdiv]; subst.
  split; [reflexivity|]. exists (x 8%nat). split; [|reflexivity].
  cbn. auto 25.
Qed.
End InitFacts.

Lemma init_shape_divisors `{!I2C_Config} clk r l :
  init_shape clk (Some r) l -> I2C_PRERATE <> 0 /\ clock_divisor clk <> 0.
Proof. intros Hsh. inversion Hsh; subst. split; assumption. Qed.

Lemma testbit_15 k : Z.testbit 15 k = (0 <=? k) && (k <? 4).
Proof.
  destruct (Z.leb_spec 0 k) as [Hk|Hk]; [|apply Z.testbit_neg_r; lia].
  destruct (Z.ltb_spec k 4) as [Hlt|Hge].
  - assert (k = 0 \/ k = 1 \/ k = 2 \/ k = 3) as Hcases by lia.
    destruct Hcases as [->|[->|[->| ->]]]; reflexivity.
  - change 15 with (15 mod 2 ^ 4). apply Z.mod_pow2_bits_high. lia.
Qed.

Lemma nibble_bits c k : 0 <= c < 16 -> ~ 0 <= k < 4 -> Z.testbit c k = false.
Proof.
  intros Hc Hk. destruct (Z.leb_spec 0 k); [|apply Z.testbit_neg_r; lia].
  rewrite <- (Z.mod_small c (2 ^ 4)) by lia.
  apply Z.mod_pow2_bits_high. lia.
Qed.

Section InitClaims.
Context {HW : Type} `{!Registers HW} `{!I2C_Config}.

Lemma i2c_init_power_on clk (h : HW) :
  init_shape clk (returned (i2c_init clk (power_on h)))
    (accesses (machine_of (i2c_init clk (power_on h)))).
Proof.
  destruct (i2c_init_shape clk (power_on h)) as (l & Hl & Hsh).
  rewrite Hl. exact Hsh.
Qed.

Lemma i2c_init_done clk (h : HW) r m' :
  i2c_init clk (power_on h) = Done r m' ->
  init_shape clk (Some r) (accesses m').
Proof.
  intros Hrun. pose proof (i2c_init_power_on clk h) as Hsh.
  rewrite Hrun in Hsh. exact Hsh.
Qed.

(** X16.  For every clock rate other than zero, [i2c_init] returns
    [I2C_OK]: in fast mode the divisor [3*clk_rate] may wrap around, but
    never to zero.  It has then written the registers in this order: the
    two clock enables, the pin configuration four times, the reset
    register twice, [CTLR2], [CKCFGR], and [CTLR1] last. *)
Theorem init_returns_ok clk (h : HW) :
  0 < clk < 2 ^ 32 -> I2C_PRERATE <> 0 ->
  exists m',
    i2c_init clk (power_on h) = Done I2C_OK m'
    /\ store_order (accesses m')
       = [RCC_APB2PCENR; RCC_APB1PCENR;
          I2C_PORT_CFGLR; I2C_PORT_CFGLR; I2C_PORT_CFGLR; I2C_PORT_CFGLR;
          RCC_APB1PRSTR; RCC_APB1PRSTR;
          I2C1_CTLR2; I2C1_CKCFGR; I2C1_CTLR1].
Proof.
  intros Hclk Hpre. pose proof (i2c_init_power_on clk h) as Hsh.
  destruct (i2c_init clk (power_on h)) as [r m'|m']; cbn in Hsh.
  - apply init_shape_done in Hsh as [-> Hord]. exists m'. auto.
  - apply init_shape_failed in Hsh as ([Hz|Hz] & _); [contradiction|].
    exfalso. exact (clock_divisor_nonzero clk Hclk Hz).
Qed.

(** X17.  With a clock rate of zero [i2c_init] divides by zero.  By then
    it has enabled the clocks, configured the pins, pulsed the reset and
    written [CTLR2]; it has written neither [CKCFGR] nor [CTLR1], so the
    peripheral is not enabled. *)
Theorem init_zero_rate (h : HW) :
  I2C_PRERATE <> 0 ->
  exists m',
    i2c_init 0 (power_on h) = DivByZero m'
    /\ store_order (accesses m')
       = [RCC_APB2PCENR; RCC_APB1PCENR;
          I2C_PORT_CFGLR; I2C_PORT_CFGLR; I2C_PORT_CFGLR; I2C_PORT_CFGLR;
          RCC_APB1PRSTR; RCC_APB1PRSTR; I2C1_CTLR2].
Proof.
  intros Hpre. pose proof (i2c_init_power_on 0 h) as Hsh.
  destruct (i2c_init 0 (power_on h)) as [r m'|m']; cbn in Hsh.
  - apply init_shape_divisors in Hsh as [_ Hdiv].
    exfalso. apply Hdiv. reflexivity.
  - apply init_shape_failed in Hsh as (_ & _ & Hord). exists m'. auto.
Qed.

(** X18.  When [i2c_init] returns it has written the reset register
    twice, first with the I2C bit set and then with it clear, and it has
    written [CTLR1] once, with the enable bit set, as its last access:
    the peripheral is enabled after it was reset and its clock was
    configured. *)
Theorem init_reset_then_enable clk (h : HW) r m' :
  i2c_init clk (power_on h) = Done r m' ->
  (exists v1 v2,
     stored RCC_APB1PRSTR (accesses m') = [v1; v2]
     /\ Z.land v1 RCC_APB1Periph_I2C1 = RCC_APB1Periph_I2C1
     /\ Z.land v2 RCC_APB1Periph_I2C1 = 0)
  /\ (exists v,
        stored I2C1_CTLR1 (accesses m') = [v]
        /\ Z.land v I2C_CTLR1_PE = I2C_CTLR1_PE
        /\ last (accesses m') = Some (Store I2C1_CTLR1 v)).
Proof.
  intros Hrun. exact (init_shape_pulse _ _ _ (i2c_init_done _ _ _ _ Hrun)).
Qed.

(** X19.  When [i2c_init] returns it has written [CKCFGR] once.  If the
    fast-mode bit lies outside the divider field, the value written has
    the fast-mode bit set exactly when [clk_rate] is above 100000, and
    its divider field holds the core clock divided by twice the rate,
    or by three times the rate in fast mode, cut to the field. *)
Theorem init_clock_mode clk (h : HW) r m' :
  0 <= I2C_CKCFGR_CCR < 2 ^ 16 ->
  0 <= I2C_CKCFGR_FS < 2 ^ 16 ->
  Z.land I2C_CKCFGR_CCR I2C_CKCFGR_FS = 0 ->
  i2c_init clk (power_on h) = Done r m' ->
  exists v,
    stored I2C1_CKCFGR (accesses m') = [v]
    /\ Z.land v I2C_CKCFGR_FS = (if clk <=? 100000 then 0 else I2C_CKCFGR_FS)
    /\ Z.land v I2C_CKCFGR_CCR
       = Z.land (FUNCONF_SYSTEM_CORE_CLOCK / clock_divisor clk)
           I2C_CKCFGR_CCR.
Proof.
  intros Hccr Hfs Hdisj Hrun. exists (ckcfgr_value clk).
  split; [|exact (ckcfgr_value_fields clk Hccr Hfs Hdisj)].
  exact (proj1 (init_shape_clock _ _ _ (i2c_init_done _ _ _ _ Hrun))).
Qed.

(** X20.  When [i2c_init] returns it has written [CTLR2] once: the
    frequency field holds the core clock divided by [I2C_PRERATE], cut to
    the field, and the other bits are those read from the register
    before. *)
Theorem init_ctlr2_frequency clk (h : HW) r m' :
  0 <= I2C_CTLR2_FREQ < 2 ^ 16 ->
  i2c_init clk (power_on h) = Done r m' ->
  exists x v,
    In (Load I2C1_CTLR2 x) (accesses m')
    /\ stored I2C1_CTLR2 (accesses m') = [v]
    /\ Z.land v I2C_CTLR2_FREQ
       = Z.land (FUNCONF_SYSTEM_CORE_CLOCK / I2C_PRERATE) I2C_CTLR2_FREQ
    /\ Z.land v (Z.lnot I2C_CTLR2_FREQ)
       = Z.land (u16 x) (Z.lnot I2C_CTLR2_FREQ).
Proof.
  intros Hfreq Hrun.
  destruct (init_shape_clock _ _ _ (i2c_init_done _ _ _ _ Hrun))
    as (_ & x & Hin & Hst).
  exists x, (ctlr2_value x). split; [exact Hin|]. split; [exact Hst|].
  exact (ctlr2_value_fields x Hfreq).
Qed.
End InitClaims.

Section InitPins.
Context `{!I2C_Config}.

Lemma init_cfglr clk (h : regfile) r m' :
  @i2c_init regfile regfile_registers _ clk (power_on h) = Done r m' ->
  let cnf := Z.lor GPIO_Speed_10MHz GPIO_CNF_OUT_OD_AF in
  regs m' I2C_PORT_CFGLR
  = Z.lor
      (Z.land
         (Z.lor
            (Z.land (h I2C_PORT_CFGLR)
               (Z.lnot (Z.shiftl 0x0F (4 * I2C_PIN_SDA))))
            (Z.shiftl cnf (4 * I2C_PIN_SDA)))
         (Z.lnot (Z.shiftl 0x0F (4 * I2C_PIN_SCL))))
      (Z.shiftl cnf (4 * I2C_PIN_SCL)).
Proof.
  unfold i2c_init, reg_or, reg_andnot, load, store, udiv, and_then, done.
  cbn [hw_load hw_store regfile_registers regs accesses power_on].
  destruct (I2C_PRERATE =? 0); [discriminate|].
  destruct (clk <=? 100000);
    match goal with
    | |- context [u32 ?d =? 0] => destruct (u32 d =? 0)
    end; try discriminate.
  all: intros [= <- <-]; reflexivity.
Qed.

(** X21.  On registers that hold what was last stored, [i2c_init]
    leaves the pin configuration register with the four bits of the SCL
    pin and the four bits of the SDA pin set to the open-drain
    alternate-function mode, and every other bit as it was. *)
Theorem init_pin_config clk (h : regfile) r m' n :
  0 <= I2C_PIN_SDA -> 0 <= I2C_PIN_SCL ->
  0 <= Z.lor GPIO_Speed_10MHz GPIO_CNF_OUT_OD_AF < 16 ->
  @i2c_init regfile regfile_registers _ clk (power_on h) = Done r m' ->
  0 <= n ->
  Z.testbit (regs m' I2C_PORT_CFGLR) n
  = if decide (4 * I2C_PIN_SCL <= n < 4 * I2C_PIN_SCL + 4)
    then Z.testbit (Z.lor GPIO_Speed_10MHz GPIO_CNF_OUT_OD_AF)
           (n - 4 * I2C_PIN_SCL)
    else if decide (4 * I2C_PIN_SDA <= n < 4 * I2C_PIN_SDA + 4)
    then Z.testbit (Z.lor GPIO_Speed_10MHz GPIO_CNF_OUT_OD_AF)
           (n - 4 * I2C_PIN_SDA)
    else Z.testbit (h I2C_PORT_CFGLR) n.
Proof.
  intros Hsda Hscl Hcnf Hrun Hn. rewrite (init_cfglr _ _ _ _ Hrun).
  set (cnf := Z.lor GPIO_Speed_10MHz GPIO_CNF_OUT_OD_AF) in *.
  cbv zeta.
  repeat first
    [ rewrite Z.lor_spec
    | rewrite Z.land_spec
    | rewrite Z.lnot_spec by lia
    | rewrite Z.shiftl_spec by lia ].
  rewrite !testbit_15.
  repeat destruct (decide _).
  all: repeat match goal with
              | |- context [0 <=? ?k] => destruct (Z.leb_spec 0 k); try lia
              | |- context [?k <? 4] => destruct (Z.ltb_spec k 4); try lia
              end.
  all: try rewrite (nibble_bits cnf (n - 4 * I2C_PIN_SCL)) by (auto; lia).
  all: try rewrite (nibble_bits cnf (n - 4 * I2C_PIN_SDA)) by (auto; lia).
  all: cbn [andb orb negb].
  all: repeat match goal with
              | |- context [Z.testbit ?a ?b] => destruct (Z.testbit a b)
              end; reflexivity.
Qed.
End InitPins.

(** ** [i2c_init] on the CH32V003 configuration *)

(** X16 at 400 kHz. *)
Lemma init_returns_ok_witness :
  0 < 400000 < 2 ^ 32
  /\ @I2C_PRERATE ch32v003_config <> 0
  /\ exists m',
       init_fast = Done I2C_OK m'
       /\ store_order (accesses m')
          = [RCC_APB2PCENR; RCC_APB1PCENR;
             I2C_PORT_CFGLR; I2C_PORT_CFGLR; I2C_PORT_CFGLR; I2C_PORT_CFGLR;
             RCC_APB1PRSTR; RCC_APB1PRSTR;
             I2C1_CTLR2; I2C1_CKCFGR; I2C1_CTLR1].
Proof.
  assert (0 < 400000 < 2 ^ 32) as Hclk by lia.
  assert (@I2C_PRERATE ch32v003_config <> 0) as Hpre by (cbn; lia).
  split; [exact Hclk|]. split; [exact Hpre|].
  exact (@init_returns_ok regfile regfile_registers ch32v003_config 400000
           (fun _ => 0) Hclk Hpre).
Defined.

(** X17 on the same registers. *)
Lemma init_zero_rate_witness :
  @I2C_PRERATE ch32v003_config <> 0
  /\ exists m',
       @i2c_init regfile regfile_registers ch32v003_config 0
         (power_on (fun _ => 0)) = DivByZero m'
       /\ store_order (accesses m')
          = [RCC_APB2PCENR; RCC_APB1PCENR;
             I2C_PORT_CFGLR; I2C_PORT_CFGLR; I2C_PORT_CFGLR; I2C_PORT_CFGLR;
             RCC_APB1PRSTR; RCC_APB1PRSTR; I2C1_CTLR2].
Proof.
  assert (@I2C_PRERATE ch32v003_config <> 0) as Hpre by (cbn; lia).
  split; [exact Hpre|].
  exact (@init_zero_rate regfile regfile_registers ch32v003_config
           (fun _ => 0) Hpre).
Defined.

(** X18 at 400 kHz. *)
Lemma init_reset_then_enable_witness :
  init_fast = Done I2C_OK (machine_of init_fast)
  /\ exists v,
       stored I2C1_CTLR1 (accesses (machine_of init_fast)) = [v]
       /\ Z.land v (@I2C_CTLR1_PE ch32v003_config)
          = @I2C_CTLR1_PE ch32v003_config
       /\ last (accesses (machine_of init_fast)) = Some (Store I2C1_CTLR1 v).
Proof.
  assert (init_fast = Done I2C_OK (machine_of init_fast)) as Hrun
    by (vm_compute; reflexivity).
  split; [exact Hrun|].
  exact (proj2 (@init_reset_then_enable regfile regfile_registers
                  ch32v003_config 400000 (fun _ => 0) _ _ Hrun)).
Defined.

(** X19 at 100 kHz: a divider of 240 and no fast-mode bit. *)
Lemma init_clock_mode_witness :
  Z.land (@I2C_CKCFGR_CCR ch32v003_config) (@I2C_CKCFGR_FS ch32v003_config)
  = 0
  /\ init_standard = Done I2C_OK (machine_of init_standard)
  /\ exists v,
       stored I2C1_CKCFGR (accesses (machine_of init_standard)) = [v]
       /\ Z.land v (@I2C_CKCFGR_FS ch32v003_config)
          = (if 100000 <=? 100000 then 0 else @I2C_CKCFGR_FS ch32v003_config)
       /\ Z.land v (@I2C_CKCFGR_CCR ch32v003_config)
          = Z.land (@FUNCONF_SYSTEM_CORE_CLOCK ch32v003_config
                    / clock_divisor 100000)
              (@I2C_CKCFGR_CCR ch32v003_config).
Proof.
  assert (Z.land (@I2C_CKCFGR_CCR ch32v003_config)
            (@I2C_CKCFGR_FS ch32v003_config) = 0) as Hdisj by reflexivity.
  assert (init_standard = Done I2C_OK (machine_of init_standard)) as Hrun
    by (vm_compute; reflexivity).
  assert (0 <= @I2C_CKCFGR_CCR ch32v003_config < 2 ^ 16) as Hccr
    by (cbn; lia).
  assert (0 <= @I2C_CKCFGR_FS ch32v003_config < 2 ^ 16) as Hfs
    by (cbn; lia).
  split; [exact Hdisj|]. split; [exact Hrun|].
  exact (@init_clock_mode regfile regfile_registers ch32v003_config 100000
           (fun _ => 0) _ _ Hccr Hfs Hdisj Hrun).
Defined.

(** X20 at 400 kHz. *)
Lemma init_ctlr2_frequency_witness :
  0 <= @I2C_CTLR2_FREQ ch32v003_config < 2 ^ 16
  /\ init_fast = Done I2C_OK (machine_of init_fast)
  /\ exists x v,
       In (Load I2C1_CTLR2 x) (accesses (machine_of init_fast))
       /\ stored I2C1_CTLR2 (accesses (machine_of init_fast)) = [v]
       /\ Z.land v (@I2C_CTLR2_FREQ ch32v003_config)
          = Z.land (@FUNCONF_SYSTEM_CORE_CLOCK ch32v003_config
                    / @I2C_PRERATE ch32v003_config)
              (@I2C_CTLR2_FREQ ch32v003_config)
       /\ Z.land v (Z.lnot (@I2C_CTLR2_FREQ ch32v003_config))
          = Z.land (u16 x) (Z.lnot (@I2C_CTLR2_FREQ ch32v003_config)).
Proof.
  assert (0 <= @I2C_CTLR2_FREQ ch32v003_config < 2 ^ 16) as Hfreq
    by (cbn; lia).
  assert (init_fast = Done I2C_OK (machine_of init_fast)) as Hrun
    by (vm_compute; reflexivity).
  split; [exact Hfreq|]. split; [exact Hrun|].
  exact (@init_ctlr2_frequency regfile regfile_registers ch32v003_config
           400000 (fun _ => 0) _ _ Hfreq Hrun).
Defined.

(** X21 at 400 kHz, for bit 5 of the pin configuration register: bit 1
    of the SDA pin's field. *)
Lemma init_pin_config_witness :
  0 <= Z.lor (@GPIO_Speed_10MHz ch32v003_config)
         (@GPIO_CNF_OUT_OD_AF ch32v003_config) < 16
  /\ init_fast = Done I2C_OK (machine_of init_fast)
  /\ Z.testbit (regs (machine_of init_fast) I2C_PORT_CFGLR) 5
     = if decide (4 * @I2C_PIN_SCL ch32v003_config <= 5
                  < 4 * @I2C_PIN_SCL ch32v003_config + 4)
       then Z.testbit (Z.lor (@GPIO_Speed_10MHz ch32v003_config)
                         (@GPIO_CNF_OUT_OD_AF ch32v003_config))
              (5 - 4 * @I2C_PIN_SCL ch32v003_config)
       else if decide (4 * @I2C_PIN_SDA ch32v003_config <= 5
                       < 4 * @I2C_PIN_SDA ch32v003_config + 4)
       then Z.testbit (Z.lor (@GPIO_Speed_10MHz ch32v003_config)
                         (@GPIO_CNF_OUT_OD_AF ch32v003_config))
              (5 - 4 * @I2C_PIN_SDA ch32v003_config)
       else Z.testbit 0 5.
Proof.
  assert (0 <= Z.lor (@GPIO_Speed_10MHz ch32v003_config)
                 (@GPIO_CNF_OUT_OD_AF ch32v003_config) < 16) as Hcnf
    by (change (0 <= 13 < 16); lia).
  assert (init_fast = Done I2C_OK (machine_of init_fast)) as Hrun
    by (vm_compute; reflexivity).
  assert (0 <= @I2C_PIN_SDA ch32v003_config) as Hsda by (cbn; lia).
  assert (0 <= @I2C_PIN_SCL ch32v003_config) as Hscl by (cbn; lia).
  assert (0 <= 5) as Hn by lia.
  split; [exact Hcnf|]. split; [exact Hrun|].
  exact (@init_pin_config ch32v003_config 400000 (fun _ => 0) _ _ 5
           Hsda Hscl Hcnf Hrun Hn).
Defined.
